(** * Stoichiometric balancing scripts of the potato GEM curation pipeline

    A shallow embedding of the mass/charge balancing code found in
    [scripts/curation/balance_model_reactions.py] (class [ModelBalancer]),
    [scripts/curation/balance_reactions.py],
    [scripts/curation/fix_proton_balance.py] and
    [scripts/curation/fix_hydrogen_balance.py], followed by the properties
    stated about them.

    Conventions of the embedding:
    - Python [float] values (stoichiometric coefficients, imbalances) are
      exact rationals [Q]; values are compared with [==].
    - Python [int] values (element counts, charges) are [Z].
    - A Python [dict] is an association list in insertion order with
      pairwise distinct keys; [str] is [string] over ASCII.
    - COBRApy objects are records.  A metabolite is identified by its id
      (ids are unique in a COBRApy model), so membership of a metabolite
      in a reaction is decided on ids, as [Reaction.add_metabolites] does. *)

From Stdlib Require Import String Ascii List Bool Arith ZArith QArith Qabs Lia Lqa.
Import ListNotations.

Local Open Scope string_scope.

(** ** Python string primitives *)

Module PyStr.

Definition code (c : ascii) : nat := nat_of_ascii c.

Definition is_upper (c : ascii) : bool :=
  (65 <=? code c)%nat && (code c <=? 90)%nat.

Definition is_lower (c : ascii) : bool :=
  (97 <=? code c)%nat && (code c <=? 122)%nat.

Definition is_digit (c : ascii) : bool :=
  (48 <=? code c)%nat && (code c <=? 57)%nat.

Definition is_sign (c : ascii) : bool :=
  Ascii.eqb c "+"%char || Ascii.eqb c "-"%char.

Definition newline : ascii := ascii_of_nat 10.

Definition lower_char (c : ascii) : ascii :=
  if is_upper c then ascii_of_nat (code c + 32) else c.

(** [s.lower()] *)
Fixpoint lower (s : string) : string :=
  match s with
  | EmptyString => EmptyString
  | String c tl => String (lower_char c) (lower tl)
  end.

(** [s.startswith(p)] *)
Fixpoint startswith (p s : string) : bool :=
  match p, s with
  | EmptyString, _ => true
  | String _ _, EmptyString => false
  | String a p', String b s' => Ascii.eqb a b && startswith p' s'
  end.

(** [p in s] on strings *)
Fixpoint contains (p s : string) : bool :=
  startswith p s ||
  match s with
  | EmptyString => false
  | String _ tl => contains p tl
  end.

(** [s.replace(c, '')] for a one-character [c] *)
Fixpoint remove_char (c : ascii) (s : string) : string :=
  match s with
  | EmptyString => EmptyString
  | String a tl =>
      if Ascii.eqb a c then remove_char c tl else String a (remove_char c tl)
  end.

(** [s.split('_')[0]] *)
Fixpoint before_underscore (s : string) : string :=
  match s with
  | EmptyString => EmptyString
  | String a tl =>
      if Ascii.eqb a "_"%char then EmptyString
      else String a (before_underscore tl)
  end.

(** Longest run of decimal digits at the head of [s], and what follows. *)
Fixpoint drop_digits (s : string) : string :=
  match s with
  | EmptyString => EmptyString
  | String a tl => if is_digit a then drop_digits tl else s
  end.

Fixpoint take_digits (s : string) : string :=
  match s with
  | EmptyString => EmptyString
  | String a tl => if is_digit a then String a (take_digits tl) else EmptyString
  end.

Fixpoint all_digits (s : string) : bool :=
  match s with
  | EmptyString => true
  | String a tl => is_digit a && all_digits tl
  end.

(** [any(p(c) for c in s)] *)
Fixpoint existsb_string (p : ascii -> bool) (s : string) : bool :=
  match s with
  | EmptyString => false
  | String a tl => p a || existsb_string p tl
  end.

(** [int(s)] for a string of decimal digits *)
Fixpoint int_acc (acc : Z) (s : string) : Z :=
  match s with
  | EmptyString => acc
  | String a tl => int_acc (10 * acc + Z.of_nat (code a - 48)) tl
  end.

Definition int (s : string) : Z := int_acc 0 s.

(** The position matched by [$] without MULTILINE: end of the string, or
    just before a newline that ends the string. *)
Definition at_dollar (s : string) : bool :=
  match s with
  | EmptyString => true
  | String a EmptyString => Ascii.eqb a newline
  | _ => false
  end.

End PyStr.

(** ** Insertion-ordered dictionaries *)

Module Dict.

Section Dict.
Context {V : Type}.

Definition t := list (string * V).

(** [d.get(k)] *)
Fixpoint get (k : string) (d : t) : option V :=
  match d with
  | [] => None
  | (k', v) :: tl => if String.eqb k k' then Some v else get k tl
  end.

(** [k in d] *)
Definition mem (k : string) (d : t) : bool :=
  match get k d with Some _ => true | None => false end.

(** [d.get(k, default)] *)
Definition get_default (k : string) (default : V) (d : t) : V :=
  match get k d with Some v => v | None => default end.

(** [d[k] = f(d[k])] when [k] is present, [d[k] = v0] (appended)
    otherwise: the shape of [d[k] = d.get(k, 0) + x] and of [+=] on a
    [defaultdict]. *)
Fixpoint upsert (k : string) (f : V -> V) (v0 : V) (d : t) : t :=
  match d with
  | [] => [(k, v0)]
  | (k', v) :: tl =>
      if String.eqb k k' then (k', f v) :: tl
      else (k', v) :: upsert k f v0 tl
  end.

(** [d[k] = v] *)
Definition set (k : string) (v : V) (d : t) : t :=
  upsert k (fun _ => v) v d.

Definition keys (d : t) : list string := map fst d.
Definition values (d : t) : list V := map snd d.

End Dict.

Arguments t : clear implicits.

End Dict.

(** ** Formula parsing *)

Module Formula.
Import PyStr.

(** Scanner state of [re.finditer] for the element pattern (group 1: one
    upper-case letter and an optional lower-case letter; group 2: a
    possibly empty run of digits): the match in progress, if any, as
    (group 1, group 2, may still take the lower-case letter). *)
Definition pending := option (string * string * bool).

Definition start (c : ascii) : pending :=
  if is_upper c then Some (String c EmptyString, EmptyString, true) else None.

Definition emit (p : pending) : list (string * string) :=
  match p with
  | Some (el, ds, _) => [(el, ds)]
  | None => []
  end.

(** All non-overlapping matches, left to right, as (group 1, group 2). *)
Fixpoint scan (p : pending) (s : string) : list (string * string) :=
  match s with
  | EmptyString => emit p
  | String c tl =>
      match p with
      | None => scan (start c) tl
      | Some (el, ds, may_lower) =>
          if may_lower && is_lower c
          then scan (Some (el ++ String c EmptyString, ds, false)) tl
          else if is_digit c
          then scan (Some (el, ds ++ String c EmptyString, false)) tl
          else (el, ds) :: scan (start c) tl
      end
  end.

Definition findall (s : string) : list (string * string) := scan None s.

(** [count = int(g2) if g2 else 1] *)
Definition count_of (ds : string) : Z :=
  match ds with
  | EmptyString => 1%Z
  | _ => int ds
  end.

(** The loop [elements[element] = elements.get(element, 0) + count]. *)
Fixpoint accumulate (ms : list (string * string)) (elements : Dict.t Z)
  : Dict.t Z :=
  match ms with
  | [] => elements
  | (el, ds) :: tl =>
      accumulate tl
        (Dict.upsert el (fun old => (old + count_of ds)%Z)
           (0 + count_of ds)%Z elements)
  end.

(** [re.sub] of the charge pattern (a sign, a possibly empty run of
    digits, then [$]) by the empty string: the leftmost sign that is
    followed by digits only up to [$] is removed with those digits. *)
Fixpoint strip_charge (s : string) : string :=
  match s with
  | EmptyString => EmptyString
  | String c tl =>
      if is_sign c && at_dollar (drop_digits tl)
      then drop_digits tl
      else String c (strip_charge tl)
  end.

(** [parse_formula] of balance_reactions.py, fix_proton_balance.py and
    fix_hydrogen_balance.py (the three copies are identical).  The
    argument is [None] or a string. *)
Definition parse_formula (formula : option string) : Dict.t Z :=
  match formula with
  | None => []
  | Some f =>
      if String.eqb f "" || String.eqb (lower f) "none"
         || String.eqb (lower f) "null"
      then []
      else accumulate (findall (strip_charge f)) []
  end.

(** [get_charge_from_formula] of balance_reactions.py: [re.search] of
    the charge pattern, group 1 the sign and group 2 the digits. *)
Fixpoint search_charge (s : string) : option (ascii * string) :=
  match s with
  | EmptyString => None
  | String c tl =>
      if is_sign c && at_dollar (drop_digits tl)
      then Some (c, take_digits tl)
      else search_charge tl
  end.

Definition get_charge_from_formula (formula : option string) : Z :=
  match formula with
  | None => 0%Z
  | Some f =>
      match search_charge f with
      | Some (sg, ds) =>
          let sign := if Ascii.eqb sg "+"%char then 1%Z else (-1)%Z in
          let magnitude :=
            match ds with EmptyString => 1%Z | _ => int ds end in
          (sign * magnitude)%Z
      | None => 0%Z
      end
  end.

End Formula.

(** ** Numbers *)

Module Num.
Local Open Scope Q_scope.

(** [x < y] and [x > y] on floats *)
Definition ltb (x y : Q) : bool := negb (Qle_bool y x).
Definition gtb (x y : Q) : bool := ltb y x.

(** The tolerance [0.01] of balance_model_reactions.py. *)
Definition tol : Q := 1 # 100.

(** [max(abs(val) for val in values)] over a non-empty sequence *)
Fixpoint max_abs_from (cur : Q) (vs : list Q) : Q :=
  match vs with
  | [] => cur
  | v :: tl => max_abs_from (if gtb (Qabs v) cur then Qabs v else cur) tl
  end.

Definition max_abs (vs : list Q) : Q :=
  match vs with
  | [] => 0
  | v :: tl => max_abs_from (Qabs v) tl
  end.

End Num.

(** ** The part of COBRApy the scripts rely on *)

Module Cobra.
Local Open Scope Q_scope.

Record Metabolite := {
  met_id : string;
  met_name : option string;
  formula : option string;
  charge : option Z;
  compartment : option string;
  annotation : Dict.t string
}.

(** A stoichiometry dictionary: metabolite to coefficient. *)
Definition Stoich := list (Metabolite * Q).

(** [stoich] is the reaction's own dictionary (the private
    [_metabolites] of [cobra.Reaction]). *)
Record Reaction := {
  rxn_id : string;
  stoich : Stoich
}.

Record Model := {
  model_metabolites : list Metabolite;
  model_reactions : list Reaction
}.

Definition same_met (a b : Metabolite) : bool :=
  String.eqb (met_id a) (met_id b).

Definition opt_string_eqb (a b : option string) : bool :=
  match a, b with
  | Some x, Some y => String.eqb x y
  | None, None => true
  | _, _ => false
  end.

(** [m in d] for a stoichiometry dictionary *)
Definition mem (m : Metabolite) (d : Stoich) : bool :=
  existsb (fun mc => same_met m (fst mc)) d.

(** [d[m] += c] on a dictionary that holds [m] *)
Fixpoint bump (m : Metabolite) (c : Q) (d : Stoich) : Stoich :=
  match d with
  | [] => []
  | (m', c') :: tl =>
      if same_met m m' then (m', c' + c) :: tl else (m', c') :: bump m c tl
  end.

(** The property [Reaction.metabolites]: COBRApy returns a copy of the
    reaction's dictionary.  Writing to the value it returns (item
    assignment, [clear()]) changes that copy and not the reaction. *)
Definition metabolites (r : Reaction) : Stoich := stoich r.

(** [Reaction.add_metabolites(to_add)] with its defaults
    ([combine=True]): the coefficient of a metabolite the reaction
    already holds is increased by the given one, another metabolite is
    entered with the given coefficient; afterwards every entry whose
    coefficient is zero is removed from the reaction.  The repository
    relies on the combining: scripts/curation/optimize_biomass_ngam.py
    passes [new_coef - coef], "Difference to add", to change a
    coefficient to [new_coef]. *)
Definition add_one (d : Stoich) (mc : Metabolite * Q) : Stoich :=
  if mem (fst mc) d then bump (fst mc) (snd mc) d else (d ++ [mc])%list.

Definition drop_zeros (d : Stoich) : Stoich :=
  filter (fun mc => negb (Qeq_bool (snd mc) 0)) d.

Definition add_metabolites (to_add : Stoich) (r : Reaction) : Reaction :=
  {| rxn_id := rxn_id r;
     stoich := drop_zeros (fold_left add_one to_add (stoich r)) |}.

(** [Reaction.reactants] and [Reaction.products] *)
Definition reactants (r : Reaction) : list Metabolite :=
  map fst (filter (fun mc => Num.ltb (snd mc) 0) (stoich r)).

Definition products (r : Reaction) : list Metabolite :=
  map fst (filter (fun mc => Qle_bool 0 (snd mc)) (stoich r)).

(** [Reaction.get_coefficient(metabolite_id)], called by the scripts
    only with the id of a metabolite of the reaction. *)
Definition get_coefficient (r : Reaction) (id : string) : Q :=
  match find (fun mc => String.eqb id (met_id (fst mc))) (stoich r) with
  | Some mc => snd mc
  | None => 0
  end.

(** [DictList.get_by_id]; [None] stands for the [KeyError]. *)
Definition get_by_id (rs : list Reaction) (id : string) : option Reaction :=
  find (fun r => String.eqb id (rxn_id r)) rs.

(** In-place mutation of the reaction object obtained by [get_by_id]:
    the model afterwards holds the mutated reaction at its place. *)
Fixpoint store (r' : Reaction) (rs : list Reaction) : list Reaction :=
  match rs with
  | [] => []
  | r :: tl =>
      if String.eqb (rxn_id r') (rxn_id r) then r' :: tl
      else r :: store r' tl
  end.

(** Truth value of an optional string ([None] and [''] are false). *)
Definition truthy (o : option string) : bool :=
  match o with
  | Some s => negb (String.eqb s "")
  | None => false
  end.

End Cobra.

(** ** balance_model_reactions.py: class ModelBalancer *)

Module ModelBalancer.
Import Cobra.
Local Open Scope Q_scope.

(** [self.formula_patterns] *)
Definition formula_patterns : Dict.t string :=
  [ ("cpd00001", "H2O");
    ("cpd00002", "C21H28N7O17P3");
    ("cpd00008", "C21H27N7O17P3");
    ("cpd00009", "H3O4P");
    ("cpd00067", "H");
    ("cpd00003", "C21H27N7O17P3");
    ("cpd00004", "C21H26N7O17P3");
    ("cpd00006", "C21H27N7O17P3");
    ("cpd00005", "C21H28N7O18P3");
    ("cpd00011", "CO2");
    ("cpd00007", "O2") ].

(** [parse_formula]: every [+] and every [-] is deleted, then the element
    pattern is matched. *)
Definition parse_formula (formula : option string) : Dict.t Z :=
  match formula with
  | None => []
  | Some f =>
      if String.eqb f "" then []
      else
        Formula.accumulate
          (Formula.findall
             (PyStr.remove_char "-" (PyStr.remove_char "+" f))) []
  end.

(** [get_metabolite_formula]: the formula attribute, else the table of
    known compounds under the id up to its first underscore, else the
    value of the first annotation whose key contains "formula". *)
Definition get_metabolite_formula (metabolite : Metabolite) : option string :=
  if truthy (formula metabolite) then formula metabolite
  else
    match Dict.get (PyStr.before_underscore (met_id metabolite))
            formula_patterns with
    | Some f => Some f
    | None =>
        match find (fun kv => PyStr.contains "formula" (PyStr.lower (fst kv)))
                (annotation metabolite) with
        | Some kv => Some (snd kv)
        | None => None
        end
    end.

(** [for element, count in elements.items():
       element_balance[element] += coefficient * count] *)
Fixpoint add_elements (coefficient : Q) (elements : Dict.t Z)
    (element_balance : Dict.t Q) : Dict.t Q :=
  match elements with
  | [] => element_balance
  | (element, count) :: tl =>
      add_elements coefficient tl
        (Dict.upsert element
           (fun old => old + coefficient * inject_Z count)
           (0 + coefficient * inject_Z count) element_balance)
  end.

Definition unknown : Dict.t Q := [("unknown", 1)].

Fixpoint mass_loop (items : Stoich) (element_balance : Dict.t Q)
  : Dict.t Q :=
  match items with
  | [] => element_balance
  | (metabolite, coefficient) :: tl =>
      let f := get_metabolite_formula metabolite in
      if negb (truthy f) then unknown
      else mass_loop tl
             (add_elements coefficient (parse_formula f) element_balance)
  end.

Definition calculate_mass_balance (reaction : Reaction) : Dict.t Q :=
  mass_loop (metabolites reaction) [].

(** [getattr(metabolite, 'charge', 0) or 0] *)
Definition charge_or_0 (metabolite : Metabolite) : Z :=
  match charge metabolite with Some z => z | None => 0%Z end.

Definition calculate_charge_balance (reaction : Reaction) : Q :=
  fold_left
    (fun total_charge mc =>
       total_charge + snd mc * inject_Z (charge_or_0 (fst mc)))
    (metabolites reaction) 0.

(** The set of compartments, in order of first occurrence. *)
Fixpoint compartments_of (items : Stoich) (seen : list (option string))
  : list (option string) :=
  match items with
  | [] => seen
  | (metabolite, _) :: tl =>
      let comp := compartment metabolite in
      if existsb (opt_string_eqb comp) seen then compartments_of tl seen
      else compartments_of tl (seen ++ [comp])%list
  end.

Definition is_transport_reaction (reaction : Reaction) : bool :=
  (1 <? length (compartments_of (metabolites reaction) []))%nat.

Definition is_exchange_reaction (reaction : Reaction) : bool :=
  PyStr.startswith "EX_" (rxn_id reaction)
  || PyStr.startswith "DM_" (rxn_id reaction)
  || PyStr.startswith "SK_" (rxn_id reaction)
  || (length (metabolites reaction) =? 1)%nat.

(** Python's [None] for "no compartment found" and a metabolite whose
    compartment is [None] are the same value. *)
Definition first_compartment (items : Stoich) : option string :=
  match items with
  | [] => None
  | (metabolite, _) :: _ => compartment metabolite
  end.

Definition first_non_proton_compartment (items : Stoich) : option string :=
  first_compartment
    (filter (fun mc => negb (PyStr.startswith "cpd00067" (met_id (fst mc))))
       items).

(** First metabolite of the model whose id starts with [prefix] and
    whose compartment is [main_compartment]. *)
Definition find_species (prefix : string) (main_compartment : option string)
    (model_mets : list Metabolite) : option Metabolite :=
  find (fun metabolite =>
          PyStr.startswith prefix (met_id metabolite)
          && opt_string_eqb (compartment metabolite) main_compartment)
    model_mets.

(** [reaction.metabolites[met] -= x] when [met] is in the reaction: the
    item assignment goes to the dictionary returned by the property
    [metabolites], a copy; the reaction keeps its stoichiometry. *)
Definition adjust_on_copy (met : Metabolite) (x : Q) (reaction : Reaction)
  : Reaction :=
  let copy := bump met (- x) (metabolites reaction) in
  reaction.

(** Both branches of
    [if met in reaction.metabolites: reaction.metabolites[met] -= x
     else: reaction.add_metabolites({met: -x})]. *)
Definition adjust (met : Metabolite) (x : Q) (reaction : Reaction)
  : Reaction :=
  if mem met (metabolites reaction) then adjust_on_copy met x reaction
  else add_metabolites [(met, - x)] reaction.

Definition fix_proton_balance (model_mets : list Metabolite)
    (reaction : Reaction) (element_balance : Dict.t Q) : bool * Reaction :=
  let h_imbalance := Dict.get_default "H" 0 element_balance in
  if Num.ltb (Qabs h_imbalance) Num.tol then (true, reaction)
  else
    let main_compartment :=
      first_non_proton_compartment (metabolites reaction) in
    match find_species "cpd00067" main_compartment model_mets with
    | Some proton_met => (true, adjust proton_met h_imbalance reaction)
    | None => (false, reaction)
    end.

Definition fix_water_balance (model_mets : list Metabolite)
    (reaction : Reaction) (element_balance : Dict.t Q) : bool * Reaction :=
  let o_imbalance := Dict.get_default "O" 0 element_balance in
  let h_imbalance := Dict.get_default "H" 0 element_balance in
  if Num.ltb (Qabs o_imbalance) Num.tol then (true, reaction)
  else if Num.gtb (Qabs (h_imbalance - 2 * o_imbalance)) (1 # 10)
  then (false, reaction)
  else
    let main_compartment := first_compartment (metabolites reaction) in
    match find_species "cpd00001" main_compartment model_mets with
    | Some water_met => (true, adjust water_met o_imbalance reaction)
    | None => (false, reaction)
    end.

(** [max(abs(val) for val in element_balance.values())
     if element_balance else 0] *)
Definition max_imbalance (element_balance : Dict.t Q) : Q :=
  Num.max_abs (Dict.values element_balance).

(** [self.balance_report] *)
Inductive Imbalance :=
| ElementImbalance (d : Dict.t Q)
| ChargeImbalance (q : Q).

Record Unfixable := {
  unfixable_id : string;
  unfixable_type : string;
  unfixable_imbalance : Imbalance
}.

Record BalanceReport := {
  total_reactions : nat;
  mass_imbalanced : list (string * Dict.t Q);
  charge_imbalanced : list (string * Q);
  fixed_mass : list string;
  fixed_charge : list string;
  unfixable : list Unfixable
}.

Definition empty_report (n : nat) : BalanceReport :=
  {| total_reactions := n; mass_imbalanced := []; charge_imbalanced := [];
     fixed_mass := []; fixed_charge := []; unfixable := [] |}.

Definition add_mass_imbalanced (x : string * Dict.t Q) (b : BalanceReport) :=
  {| total_reactions := total_reactions b;
     mass_imbalanced := mass_imbalanced b ++ [x];
     charge_imbalanced := charge_imbalanced b;
     fixed_mass := fixed_mass b; fixed_charge := fixed_charge b;
     unfixable := unfixable b |}.

Definition add_charge_imbalanced (x : string * Q) (b : BalanceReport) :=
  {| total_reactions := total_reactions b;
     mass_imbalanced := mass_imbalanced b;
     charge_imbalanced := charge_imbalanced b ++ [x];
     fixed_mass := fixed_mass b; fixed_charge := fixed_charge b;
     unfixable := unfixable b |}.

Definition add_fixed_mass (x : string) (b : BalanceReport) :=
  {| total_reactions := total_reactions b;
     mass_imbalanced := mass_imbalanced b;
     charge_imbalanced := charge_imbalanced b;
     fixed_mass := fixed_mass b ++ [x]; fixed_charge := fixed_charge b;
     unfixable := unfixable b |}.

Definition add_fixed_charge (x : string) (b : BalanceReport) :=
  {| total_reactions := total_reactions b;
     mass_imbalanced := mass_imbalanced b;
     charge_imbalanced := charge_imbalanced b;
     fixed_mass := fixed_mass b; fixed_charge := fixed_charge b ++ [x];
     unfixable := unfixable b |}.

Definition add_unfixable (x : Unfixable) (b : BalanceReport) :=
  {| total_reactions := total_reactions b;
     mass_imbalanced := mass_imbalanced b;
     charge_imbalanced := charge_imbalanced b;
     fixed_mass := fixed_mass b; fixed_charge := fixed_charge b;
     unfixable := unfixable b ++ [x] |}.

(** The instance: [self.model] and [self.balance_report]. *)
Record Balancer := {
  model : Model;
  balance_report : BalanceReport
}.

(** The two "try a fix, then recalculate" steps of
    [balance_reaction_mass]; each yields the reaction and the element
    balance held afterwards. *)
Definition proton_step (model_mets : list Metabolite)
    (st : Reaction * Dict.t Q) : Reaction * Dict.t Q :=
  let (reaction, element_balance) := st in
  if Dict.mem "H" element_balance
     && Num.gtb (Qabs (Dict.get_default "H" 0 element_balance)) Num.tol
  then
    let (ok, reaction') :=
      fix_proton_balance model_mets reaction element_balance in
    if ok then (reaction', calculate_mass_balance reaction')
    else (reaction', element_balance)
  else st.

Definition water_step (model_mets : list Metabolite)
    (st : Reaction * Dict.t Q) : Reaction * Dict.t Q :=
  let (reaction, element_balance) := st in
  if Dict.mem "O" element_balance
     && Num.gtb (Qabs (Dict.get_default "O" 0 element_balance)) Num.tol
  then
    let (ok, reaction') :=
      fix_water_balance model_mets reaction element_balance in
    if ok then (reaction', calculate_mass_balance reaction')
    else (reaction', element_balance)
  else st.

(** The revert of [balance_reaction_mass]:
    [reaction.metabolites.clear()] empties the copy returned by the
    property, then [reaction.add_metabolites(original_metabolites)]
    combines the saved coefficients with those the reaction holds. *)
Definition revert (original_metabolites : Stoich) (reaction : Reaction)
  : Reaction :=
  let cleared_copy : Stoich := [] in
  add_metabolites original_metabolites reaction.

(** [balance_reaction_mass]: the returned flag, the reaction as mutated,
    and the report. *)
Definition balance_reaction_mass (model_mets : list Metabolite)
    (report : BalanceReport) (reaction : Reaction)
  : bool * Reaction * BalanceReport :=
  if is_exchange_reaction reaction || is_transport_reaction reaction
  then (true, reaction, report)
  else
    let element_balance := calculate_mass_balance reaction in
    if Num.ltb (max_imbalance element_balance) Num.tol
    then (true, reaction, report)
    else
      let original_metabolites := metabolites reaction in
      let (reaction', element_balance') :=
        water_step model_mets
          (proton_step model_mets (reaction, element_balance)) in
      if Num.ltb (max_imbalance element_balance') Num.tol
      then (true, reaction', add_fixed_mass (rxn_id reaction') report)
      else (false, revert original_metabolites reaction', report).

(** [balance_reaction_charge] *)
Definition balance_reaction_charge (model_mets : list Metabolite)
    (report : BalanceReport) (reaction : Reaction)
  : bool * Reaction * BalanceReport :=
  if is_exchange_reaction reaction then (true, reaction, report)
  else
    let charge_balance := calculate_charge_balance reaction in
    if Num.ltb (Qabs charge_balance) Num.tol then (true, reaction, report)
    else
      let main_compartment := first_compartment (metabolites reaction) in
      match find_species "cpd00067" main_compartment model_mets with
      | Some proton_met =>
          let reaction' := adjust proton_met charge_balance reaction in
          (true, reaction', add_fixed_charge (rxn_id reaction') report)
      | None => (false, reaction, report)
      end.

(** [analyze_balance]: one pass over [self.model.reactions]. *)
Definition analyze_one (report : BalanceReport) (reaction : Reaction)
  : BalanceReport :=
  let element_balance := calculate_mass_balance reaction in
  let report1 :=
    if negb (Nat.eqb (length element_balance) 0)
       && negb (Dict.mem "unknown" element_balance)
       && Num.gtb (max_imbalance element_balance) Num.tol
    then add_mass_imbalanced (rxn_id reaction, element_balance) report
    else report in
  let charge_balance := calculate_charge_balance reaction in
  if Num.gtb (Qabs charge_balance) Num.tol
  then add_charge_imbalanced (rxn_id reaction, charge_balance) report1
  else report1.

Definition analyze_balance (self : Balancer) : Balancer :=
  {| model := model self;
     balance_report :=
       fold_left analyze_one (model_reactions (model self))
         (balance_report self) |}.

Definition with_reaction (reaction : Reaction) (report : BalanceReport)
    (self : Balancer) : Balancer :=
  {| model :=
       {| model_metabolites := model_metabolites (model self);
          model_reactions := store reaction (model_reactions (model self)) |};
     balance_report := report |}.

(** A [for] loop whose body may raise ([None]). *)
Fixpoint for_each {A S : Type} (body : A -> S -> option S) (xs : list A)
    (st : S) : option S :=
  match xs with
  | [] => Some st
  | x :: tl =>
      match body x st with
      | Some st' => for_each body tl st'
      | None => None
      end
  end.

(** The records appended to [unfixable] by the two loops. *)
Definition mass_entry (reaction : Reaction)
    (reaction_info : string * Dict.t Q) : Unfixable :=
  {| unfixable_id := rxn_id reaction; unfixable_type := "mass";
     unfixable_imbalance := ElementImbalance (snd reaction_info) |}.

Definition charge_entry (reaction : Reaction)
    (reaction_info : string * Q) : Unfixable :=
  {| unfixable_id := rxn_id reaction; unfixable_type := "charge";
     unfixable_imbalance := ChargeImbalance (snd reaction_info) |}.

(** Body of the first loop of [fix_all_reactions]. *)
Definition fix_mass_body (reaction_info : string * Dict.t Q)
    (self : Balancer) : option Balancer :=
  match get_by_id (model_reactions (model self)) (fst reaction_info) with
  | None => None
  | Some reaction =>
      let '(ok, reaction', report') :=
        balance_reaction_mass (model_metabolites (model self))
          (balance_report self) reaction in
      Some (with_reaction reaction'
              (if ok then report'
               else add_unfixable (mass_entry reaction' reaction_info)
                      report')
              self)
  end.

(** Body of the second loop of [fix_all_reactions]. *)
Definition fix_charge_body (reaction_info : string * Q) (self : Balancer)
  : option Balancer :=
  match get_by_id (model_reactions (model self)) (fst reaction_info) with
  | None => None
  | Some reaction =>
      let '(ok, reaction', report') :=
        balance_reaction_charge (model_metabolites (model self))
          (balance_report self) reaction in
      Some (with_reaction reaction'
              (if ok then report'
               else add_unfixable (charge_entry reaction' reaction_info)
                      report')
              self)
  end.

Definition fix_mass_pass (self : Balancer) : option Balancer :=
  for_each fix_mass_body (mass_imbalanced (balance_report self)) self.

Definition fix_charge_pass (self : Balancer) : option Balancer :=
  for_each fix_charge_body (charge_imbalanced (balance_report self)) self.

Definition fix_all_reactions (self : Balancer) : option Balancer :=
  match fix_mass_pass self with
  | Some self' => fix_charge_pass self'
  | None => None
  end.

(** [__init__] (the report as it starts) and phases 1 and 2 of
    [run_balancing]. *)
Definition init (m : Model) : Balancer :=
  {| model := m;
     balance_report := empty_report (length (model_reactions m)) |}.

Definition run_balancing (m : Model) : option Balancer :=
  fix_all_reactions (analyze_balance (init m)).

End ModelBalancer.

(** ** balance_reactions.py *)

Module BalanceReactions.
Import Cobra.
Local Open Scope Q_scope.

Record Balance := {
  missing_formulas : list string;
  element_imbalances : Dict.t Q;
  charge_imbalance : Q;
  is_mass_balanced : bool;
  is_charge_balanced : bool;
  is_balanced : bool
}.

(** The tolerance [1e-6] of this script. *)
Definition eps : Q := 1 # 1000000.

Fixpoint add_counts (a : Q) (elements : Dict.t Z) (acc : Dict.t Q)
  : Dict.t Q :=
  match elements with
  | [] => acc
  | (element, count) :: tl =>
      add_counts a tl
        (Dict.upsert element (fun old => old + a * inject_Z count)
           (0 + a * inject_Z count) acc)
  end.

(** One of the two loops (over [reaction.reactants], over
    [reaction.products]); the state is the side's element table, the
    side's charge and the shared list [missing_formulas]. *)
Fixpoint side (reaction : Reaction) (mets : list Metabolite)
    (st : Dict.t Q * Q * list string) : Dict.t Q * Q * list string :=
  match mets with
  | [] => st
  | metabolite :: tl =>
      let '(els, chg, missing) := st in
      let coefficient := get_coefficient reaction (met_id metabolite) in
      if negb (truthy (formula metabolite))
      then side reaction tl (els, chg, (missing ++ [met_id metabolite])%list)
      else
        let elements := Formula.parse_formula (formula metabolite) in
        let charge := Formula.get_charge_from_formula (formula metabolite) in
        side reaction tl
          (add_counts (Qabs coefficient) elements els,
           chg + Qabs coefficient * inject_Z charge,
           missing)
  end.

(** [set(reactant_elements.keys()) | set(product_elements.keys())],
    listed as the reactant keys followed by the new product keys (a
    Python set has no specified order). *)
Definition all_elements (re pe : Dict.t Q) : list string :=
  (Dict.keys re
   ++ filter (fun k => negb (Dict.mem k re)) (Dict.keys pe))%list.

Fixpoint imbalances (els : list string) (re pe : Dict.t Q) : Dict.t Q :=
  match els with
  | [] => []
  | element :: tl =>
      let imbalance :=
        Dict.get_default element 0 re - Dict.get_default element 0 pe in
      if Num.gtb (Qabs imbalance) eps
      then (element, imbalance) :: imbalances tl re pe
      else imbalances tl re pe
  end.

Definition analyze_reaction_balance (reaction : Reaction) : Balance :=
  let '(reactant_elements, reactant_charge, missing1) :=
    side reaction (reactants reaction) ([], 0, []) in
  let '(product_elements, product_charge, missing2) :=
    side reaction (products reaction) ([], 0, missing1) in
  let element_imbalances :=
    imbalances (all_elements reactant_elements product_elements)
      reactant_elements product_elements in
  let charge_imbalance := reactant_charge - product_charge in
  let mass_ok := Nat.eqb (length element_imbalances) 0 in
  let charge_ok := Num.ltb (Qabs charge_imbalance) eps in
  {| missing_formulas := missing2;
     element_imbalances := element_imbalances;
     charge_imbalance := charge_imbalance;
     is_mass_balanced := mass_ok;
     is_charge_balanced := charge_ok;
     is_balanced := mass_ok && charge_ok |}.

Record Results := {
  total_reactions : nat;
  reactions_with_missing_formulas : nat;
  mass_imbalanced_reactions : nat;
  charge_imbalanced_reactions : nat;
  fully_balanced_reactions : nat;
  reaction_details : Dict.t Balance;
  missing_formula_metabolites : list string;
  element_imbalance_summary : Dict.t nat;
  charge_imbalance_distribution : list Q
}.

(** [set.update] on a set kept as a duplicate-free list *)
Definition set_update (new old : list string) : list string :=
  fold_left
    (fun acc x => if existsb (String.eqb x) acc then acc else (acc ++ [x])%list)
    new old.

(** [for element, _ in d.items(): counter[element] += 1] *)
Definition count_elements (d : Dict.t Q) (counter : Dict.t nat) : Dict.t nat :=
  fold_left (fun acc kv => Dict.upsert (fst kv) S 1%nat acc) d counter.

Definition analyze_model_step (results : Results) (reaction : Reaction)
  : Results :=
  let balance := analyze_reaction_balance reaction in
  let has_missing := negb (Nat.eqb (length (missing_formulas balance)) 0) in
  {| total_reactions := total_reactions results;
     reactions_with_missing_formulas :=
       if has_missing then S (reactions_with_missing_formulas results)
       else reactions_with_missing_formulas results;
     mass_imbalanced_reactions :=
       if is_mass_balanced balance then mass_imbalanced_reactions results
       else S (mass_imbalanced_reactions results);
     charge_imbalanced_reactions :=
       if is_charge_balanced balance then charge_imbalanced_reactions results
       else S (charge_imbalanced_reactions results);
     fully_balanced_reactions :=
       if is_balanced balance then S (fully_balanced_reactions results)
       else fully_balanced_reactions results;
     reaction_details :=
       Dict.set (rxn_id reaction) balance (reaction_details results);
     missing_formula_metabolites :=
       if has_missing
       then set_update (missing_formulas balance)
              (missing_formula_metabolites results)
       else missing_formula_metabolites results;
     element_imbalance_summary :=
       if is_mass_balanced balance then element_imbalance_summary results
       else count_elements (element_imbalances balance)
              (element_imbalance_summary results);
     charge_imbalance_distribution :=
       if is_charge_balanced balance
       then charge_imbalance_distribution results
       else (charge_imbalance_distribution results
             ++ [charge_imbalance balance])%list |}.

Definition analyze_model_balance (m : Model) : Results :=
  fold_left analyze_model_step (model_reactions m)
    {| total_reactions := length (model_reactions m);
       reactions_with_missing_formulas := 0;
       mass_imbalanced_reactions := 0;
       charge_imbalanced_reactions := 0;
       fully_balanced_reactions := 0;
       reaction_details := [];
       missing_formula_metabolites := [];
       element_imbalance_summary := [];
       charge_imbalance_distribution := [] |}.

End BalanceReactions.

(** ** fix_proton_balance.py *)

Module FixProton.
Import Cobra.
Local Open Scope Q_scope.

Record HBalance := {
  h_imbalance : Q;
  missing_formulas : list string;
  can_fix_with_proton : bool;
  protons_needed : Q
}.

(** One of the two loops of [analyze_h_balance]; the state is the side's
    hydrogen count and the shared list [missing_formulas]. *)
Fixpoint side_h (reaction : Reaction) (mets : list Metabolite)
    (st : Q * list string) : Q * list string :=
  match mets with
  | [] => st
  | metabolite :: tl =>
      let (h, missing) := st in
      let coefficient := get_coefficient reaction (met_id metabolite) in
      if negb (truthy (formula metabolite))
      then side_h reaction tl (h, (missing ++ [met_id metabolite])%list)
      else
        let elements := Formula.parse_formula (formula metabolite) in
        side_h reaction tl
          (h + Qabs coefficient * inject_Z (Dict.get_default "H" 0%Z elements),
           missing)
  end.

Definition analyze_h_balance (reaction : Reaction) : HBalance :=
  let (reactant_h, missing1) :=
    side_h reaction (reactants reaction) (0, []) in
  let (product_h, missing2) :=
    side_h reaction (products reaction) (0, missing1) in
  let h_imbalance := reactant_h - product_h in
  {| h_imbalance := h_imbalance;
     missing_formulas := missing2;
     can_fix_with_proton :=
       Num.gtb (Qabs h_imbalance) 0 && Qle_bool (Qabs h_imbalance) 3;
     protons_needed := h_imbalance |}.

Definition get_met_by_id (mets : list Metabolite) (id : string)
  : option Metabolite :=
  find (fun m => String.eqb id (met_id m)) mets.

Definition compartment_suffixes : list string :=
  ["_c0"; "_d0"; "_m0"; "_p0"; "_e0"; "_x0"; "_v0"].

Definition formula_in (m : Metabolite) (fs : list string) : bool :=
  match formula m with
  | Some f => existsb (String.eqb f) fs
  | None => false
  end.

(** The candidate ids of the direct match, in the order the two nested
    loops visit them. *)
Definition full_ids (ids : list string) : list string :=
  flat_map (fun id => map (fun suffix => id ++ suffix) compartment_suffixes)
    ids.

Fixpoint direct_match (mets : list Metabolite) (ids : list string)
  : option Metabolite :=
  match ids with
  | [] => None
  | full_id :: tl =>
      match get_met_by_id mets full_id with
      | Some candidate =>
          if formula_in candidate ["H"; "H+"] then Some candidate
          else direct_match mets tl
      | None => direct_match mets tl
      end
  end.

Definition name_has (m : Metabolite) (ps : list string) : bool :=
  match met_name m with
  | Some n =>
      negb (String.eqb n "")
      && existsb (fun p => PyStr.contains p (PyStr.lower n)) ps
  | None => false
  end.

(** The test of the second loop: the formula, then the id patterns
    (any text, "cpd00067", any text; "h_" at the start; any text,
    "proton", any text; all case-insensitive), then the name. *)
Definition looks_like_proton (met : Metabolite) : bool :=
  formula_in met ["H"; "H+"; "H1"]
  || PyStr.contains "cpd00067" (PyStr.lower (met_id met))
  || PyStr.startswith "h_" (PyStr.lower (met_id met))
  || PyStr.contains "proton" (PyStr.lower (met_id met))
  || name_has met ["proton"; "h+"].

Definition find_proton_metabolite (m : Model) : option Metabolite :=
  match direct_match (model_metabolites m)
          (full_ids ["h"; "cpd00067"; "H"; "proton"; "h_plus"]) with
  | Some candidate => Some candidate
  | None => find looks_like_proton (model_metabolites m)
  end.

(** State of the loop of [fix_proton_balance]: the reactions already
    visited (as mutated), [fixes_made] and [remaining_imbalanced]. *)
Record Loop := {
  visited : list Reaction;
  fixes_made : nat;
  remaining_imbalanced : list (string * Q)
}.

(** What the loop body does to one reaction. *)
Definition fix_one (proton_met : Metabolite) (dry_run : bool)
    (reaction : Reaction) : Reaction :=
  let balance := analyze_h_balance reaction in
  if negb (Nat.eqb (length (missing_formulas balance)) 0) then reaction
  else if can_fix_with_proton balance
          && Num.gtb (Qabs (protons_needed balance)) 0
  then
    if dry_run then reaction
    else if Num.gtb (protons_needed balance) 0
    then add_metabolites [(proton_met, - Qabs (protons_needed balance))] reaction
    else add_metabolites [(proton_met, Qabs (protons_needed balance))] reaction
  else reaction.

Definition loop_body (proton_met : Metabolite) (dry_run : bool)
    (st : Loop) (reaction : Reaction) : Loop :=
  let balance := analyze_h_balance reaction in
  if negb (Nat.eqb (length (missing_formulas balance)) 0)
  then {| visited := visited st ++ [reaction];
          fixes_made := fixes_made st;
          remaining_imbalanced := remaining_imbalanced st |}
  else if can_fix_with_proton balance
          && Num.gtb (Qabs (protons_needed balance)) 0
  then {| visited := visited st ++ [fix_one proton_met dry_run reaction];
          fixes_made := S (fixes_made st);
          remaining_imbalanced := remaining_imbalanced st |}
  else if Num.gtb (Qabs (h_imbalance balance)) 3
  then {| visited := visited st ++ [reaction];
          fixes_made := fixes_made st;
          remaining_imbalanced :=
            remaining_imbalanced st
            ++ [(rxn_id reaction, h_imbalance balance)] |}
  else {| visited := visited st ++ [reaction];
          fixes_made := fixes_made st;
          remaining_imbalanced := remaining_imbalanced st |}.

(** [fix_proton_balance]: the model as mutated, the returned
    [fixes_made], and the list [remaining_imbalanced] it reports. *)
Definition fix_proton_balance (m : Model) (dry_run : bool)
  : Model * nat * list (string * Q) :=
  match find_proton_metabolite m with
  | None => (m, 0%nat, [])
  | Some proton_met =>
      let st :=
        fold_left (loop_body proton_met dry_run) (model_reactions m)
          {| visited := []; fixes_made := 0;
             remaining_imbalanced := [] |} in
      ({| model_metabolites := model_metabolites m;
          model_reactions := visited st |},
       fixes_made st, remaining_imbalanced st)
  end.

End FixProton.

(** ** fix_hydrogen_balance.py *)

Module FixHydrogen.
Import Cobra.
Local Open Scope Q_scope.

Record HOBalance := {
  h_imbalance : Q;
  o_imbalance : Q;
  missing_formulas : list string;
  can_fix_with_water : bool;
  water_molecules_needed : Q
}.

Fixpoint side_ho (reaction : Reaction) (mets : list Metabolite)
    (st : Q * Q * list string) : Q * Q * list string :=
  match mets with
  | [] => st
  | metabolite :: tl =>
      let '(h, o, missing) := st in
      let coefficient := get_coefficient reaction (met_id metabolite) in
      if negb (truthy (formula metabolite))
      then side_ho reaction tl (h, o, (missing ++ [met_id metabolite])%list)
      else
        let elements := Formula.parse_formula (formula metabolite) in
        side_ho reaction tl
          (h + Qabs coefficient * inject_Z (Dict.get_default "H" 0%Z elements),
           o + Qabs coefficient * inject_Z (Dict.get_default "O" 0%Z elements),
           missing)
  end.

Definition analyze_h_o_balance (reaction : Reaction) : HOBalance :=
  let '(reactant_h, reactant_o, missing1) :=
    side_ho reaction (reactants reaction) (0, 0, []) in
  let '(product_h, product_o, missing2) :=
    side_ho reaction (products reaction) (0, 0, missing1) in
  let h_imbalance := reactant_h - product_h in
  let o_imbalance := reactant_o - product_o in
  {| h_imbalance := h_imbalance;
     o_imbalance := o_imbalance;
     missing_formulas := missing2;
     can_fix_with_water :=
       Qeq_bool h_imbalance (2 * o_imbalance)
       && Num.gtb (Qabs h_imbalance) 0;
     water_molecules_needed :=
       if Qeq_bool h_imbalance (2 * o_imbalance) then o_imbalance else 0 |}.

(** What the loop body of [fix_hydrogen_balance_with_water] does to one
    reaction, [water_met] being the species [find_water_metabolite]
    returned. *)
Definition fix_one (water_met : Metabolite) (dry_run : bool)
    (reaction : Reaction) : Reaction :=
  let balance := analyze_h_o_balance reaction in
  if negb (Nat.eqb (length (missing_formulas balance)) 0) then reaction
  else if can_fix_with_water balance
          && Num.gtb (Qabs (water_molecules_needed balance)) 0
  then
    if dry_run then reaction
    else if Num.gtb (water_molecules_needed balance) 0
    then add_metabolites
           [(water_met, - Qabs (water_molecules_needed balance))] reaction
    else add_metabolites
           [(water_met, Qabs (water_molecules_needed balance))] reaction
  else reaction.

End FixHydrogen.

(** ** Sums over the two sides of a reaction, as the specification words
    the imbalance *)

Module SideSums.
Import Cobra.
Local Open Scope Q_scope.

(** Sum over the reactants (negative coefficient) of
    |coefficient| times [f metabolite]. *)
Fixpoint reactant_sum (f : Metabolite -> Z) (d : Stoich) : Q :=
  match d with
  | [] => 0
  | (m, c) :: tl =>
      (if Num.ltb c 0 then Qabs c * inject_Z (f m) else 0)
      + reactant_sum f tl
  end.

(** The same sum over the products (positive coefficient). *)
Fixpoint product_sum (f : Metabolite -> Z) (d : Stoich) : Q :=
  match d with
  | [] => 0
  | (m, c) :: tl =>
      (if Num.gtb c 0 then Qabs c * inject_Z (f m) else 0)
      + product_sum f tl
  end.

(** The sum of coefficient times [f metabolite] over all entries. *)
Fixpoint signed_sum (f : Metabolite -> Z) (d : Stoich) : Q :=
  match d with
  | [] => 0
  | (m, c) :: tl => c * inject_Z (f m) + signed_sum f tl
  end.

(** Atoms of [element] in one molecule of the metabolite, from the
    formula [ModelBalancer] resolves for it. *)
Definition atoms (element : string) (m : Metabolite) : Z :=
  Dict.get_default element 0%Z
    (ModelBalancer.parse_formula (ModelBalancer.get_metabolite_formula m)).

(** Every metabolite of the reaction has a formula [ModelBalancer] can
    resolve. *)
Definition resolved (r : Reaction) : bool :=
  forallb (fun mc => truthy (ModelBalancer.get_metabolite_formula (fst mc)))
    (stoich r).

(** A reaction is within tolerance when every element imbalance and
    the charge imbalance that [ModelBalancer] computes for it have an
    absolute value below 0.01. *)
Definition within_tolerance (r : Reaction) : Prop :=
  (forall element,
     Qabs (Dict.get_default element 0
             (ModelBalancer.calculate_mass_balance r)) < Num.tol)
  /\ Qabs (ModelBalancer.calculate_charge_balance r) < Num.tol.

(** The tests under which [analyze_balance] lists a reaction. *)
Definition mass_listed (r : Reaction) : bool :=
  let element_balance := ModelBalancer.calculate_mass_balance r in
  negb (Nat.eqb (length element_balance) 0)
  && negb (Dict.mem "unknown" element_balance)
  && Num.gtb (ModelBalancer.max_imbalance element_balance) Num.tol.

Definition charge_listed (r : Reaction) : bool :=
  Num.gtb (Qabs (ModelBalancer.calculate_charge_balance r)) Num.tol.

(** The ids listed under [unfixable]. *)
Definition unfixable_ids (self : ModelBalancer.Balancer) : list string :=
  map ModelBalancer.unfixable_id
    (ModelBalancer.unfixable (ModelBalancer.balance_report self)).

End SideSums.

(** ** Sample models *)

Module Samples.
Import Cobra.
Local Open Scope Q_scope.

Definition species (id : string) (f : option string) (ch : option Z)
    (comp : string) : Metabolite :=
  {| met_id := id; met_name := None; formula := f; charge := ch;
     compartment := Some comp; annotation := [] |}.

Definition reaction (id : string) (d : Stoich) : Reaction :=
  {| rxn_id := id; stoich := d |}.

Definition proton_c := species "cpd00067_c0" (Some "H") (Some 1%Z) "c0".
Definition water_c := species "cpd00001_c0" (Some "H2O") (Some 0%Z) "c0".

(** C -> C2 : a carbon atom appears from nowhere. *)
Definition carbon := species "A_c0" (Some "C") (Some 0%Z) "c0".
Definition dicarbon := species "B_c0" (Some "C2") (Some 0%Z) "c0".
Definition r_carbon := reaction "R_carbon" [(carbon, -1); (dicarbon, 1)].

(** CH -> C : one hydrogen short on the product side. *)
Definition methylidyne := species "M_c0" (Some "CH") (Some 0%Z) "c0".
Definition r_short_h := reaction "R_short_h" [(methylidyne, -1); (carbon, 1)].

(** An anion carried from compartment c0 to e0 and neutralised. *)
Definition anion_c := species "X_c0" (Some "C") (Some (-1)%Z) "c0".
Definition neutral_e := species "X_e0" (Some "C") (Some 0%Z) "e0".
Definition r_transport := reaction "R_transport" [(anion_c, -1); (neutral_e, 1)].

(** A reactant without formula. *)
Definition unknown_anion := species "U_c0" None (Some (-1)%Z) "c0".
Definition unknown_neutral := species "V_c0" None (Some 0%Z) "c0".
Definition r_unknown_charged :=
  reaction "R_unknown_charged" [(unknown_anion, -1); (carbon, 1)].
Definition r_unknown_neutral :=
  reaction "R_unknown_neutral" [(unknown_neutral, -1); (carbon, 1)].

(** C + 0.005 H ... -> CH2O : hydrogen excess 2.005, oxygen excess 1. *)
Definition hydrogen := species "Hy_c0" (Some "H") (Some 0%Z) "c0".
Definition formaldehyde := species "F_c0" (Some "CH2O") (Some 0%Z) "c0".
Definition r_almost_water :=
  reaction "R_almost_water"
    [(carbon, -1); (formaldehyde, 1); (hydrogen, 5 # 1000)].

(** CH4 -> C : four hydrogens lost. *)
Definition methane := species "G_c0" (Some "CH4") (Some 0%Z) "c0".
Definition r_methane := reaction "R_methane" [(methane, -1); (carbon, 1)].

(** C -> C : balanced. *)
Definition carbon2 := species "A2_c0" (Some "C") (Some 0%Z) "c0".
Definition r_balanced := reaction "R_balanced" [(carbon, -1); (carbon2, 1)].

(** A single-metabolite reaction. *)
Definition r_single := reaction "R_single" [(anion_c, -1)].

(** C -> C + 0.005 H : hydrogen excess 0.005, below the tolerance 0.01. *)
Definition r_small :=
  reaction "R_small" [(carbon, -1); (carbon2, 1); (hydrogen, 5 # 1000)].

Definition mets_plain : list Metabolite :=
  [carbon; dicarbon; methylidyne; methane; carbon2].
Definition mets_with_proton : list Metabolite :=
  [carbon; methylidyne; anion_c; neutral_e; unknown_anion; unknown_neutral;
   methane; carbon2; proton_c].
Definition mets_with_water : list Metabolite :=
  [carbon; formaldehyde; hydrogen; water_c].

Definition model_of (mets : list Metabolite) (rs : list Reaction) : Model :=
  {| model_metabolites := mets; model_reactions := rs |}.

End Samples.

(** ** balance_model_reactions.py: generate_summary *)

Module Summary.
Import Cobra ModelBalancer.
Local Open Scope Q_scope.

Record t := {
  summary_total_reactions : nat;
  mass_imbalanced_initial : nat;
  charge_imbalanced_initial : nat;
  mass_fixed : nat;
  charge_fixed : nat;
  summary_unfixable : nat;
  mass_balance_rate : Q;
  charge_balance_rate : Q
}.

(** [(total - len(imbalanced) + len(fixed)) / total] on Python integers;
    [None] stands for the [ZeroDivisionError]. *)
Definition rate (total imbalanced fixed : nat) : option Q :=
  if Nat.eqb total 0 then None
  else Some (inject_Z (Z.of_nat total - Z.of_nat imbalanced + Z.of_nat fixed)
             / inject_Z (Z.of_nat total)).

(** [generate_summary]: the summary it stores, or [None] when one of the
    two divisions raises. *)
Definition generate_summary (report : BalanceReport) : option t :=
  match rate (total_reactions report) (length (mass_imbalanced report))
          (length (fixed_mass report)),
        rate (total_reactions report) (length (charge_imbalanced report))
          (length (fixed_charge report)) with
  | Some mass_rate, Some charge_rate =>
      Some {| summary_total_reactions := total_reactions report;
              mass_imbalanced_initial := length (mass_imbalanced report);
              charge_imbalanced_initial := length (charge_imbalanced report);
              mass_fixed := length (fixed_mass report);
              charge_fixed := length (fixed_charge report);
              summary_unfixable := length (unfixable report);
              mass_balance_rate := mass_rate;
              charge_balance_rate := charge_rate |}
  | _, _ => None
  end.

(** Phases 1 to 3 of [run_balancing]. *)
Definition run_with_summary (m : Model) : option (Balancer * t) :=
  match run_balancing m with
  | Some self =>
      match generate_summary (balance_report self) with
      | Some summary => Some (self, summary)
      | None => None
      end
  | None => None
  end.

End Summary.

(** ** fix_hydrogen_balance.py: find_water_metabolite and the loop *)

Module FixHydrogenRun.
Import Cobra FixHydrogen.
Local Open Scope Q_scope.

(** The direct match: the first candidate id the model holds.  No check
    of the formula is made here. *)
Fixpoint direct_match (mets : list Metabolite) (ids : list string)
  : option Metabolite :=
  match ids with
  | [] => None
  | full_id :: tl =>
      match FixProton.get_met_by_id mets full_id with
      | Some candidate => Some candidate
      | None => direct_match mets tl
      end
  end.

(** The test of the second loop: the formula, then the id patterns (any
    text, "h2o", any text; any text, "water", any text; any text,
    "cpd00001", any text; all case-insensitive), then the name. *)
Definition looks_like_water (met : Metabolite) : bool :=
  FixProton.formula_in met ["H2O"]
  || PyStr.contains "h2o" (PyStr.lower (met_id met))
  || PyStr.contains "water" (PyStr.lower (met_id met))
  || PyStr.contains "cpd00001" (PyStr.lower (met_id met))
  || FixProton.name_has met ["water"].

Definition find_water_metabolite (m : Model) : option Metabolite :=
  match direct_match (model_metabolites m)
          (FixProton.full_ids ["h2o"; "cpd00001"; "H2O"; "water"]) with
  | Some candidate => Some candidate
  | None => find looks_like_water (model_metabolites m)
  end.

(** State of the loop of [fix_hydrogen_balance_with_water]. *)
Record Loop := {
  visited : list Reaction;
  fixes_made : nat;
  problematic_reactions : list (string * Q * Q)
}.

Definition loop_body (water_met : Metabolite) (dry_run : bool)
    (st : Loop) (reaction : Reaction) : Loop :=
  let balance := analyze_h_o_balance reaction in
  if negb (Nat.eqb (length (missing_formulas balance)) 0)
  then {| visited := visited st ++ [reaction];
          fixes_made := fixes_made st;
          problematic_reactions := problematic_reactions st |}
  else if can_fix_with_water balance
          && Num.gtb (Qabs (water_molecules_needed balance)) 0
  then {| visited := visited st ++ [fix_one water_met dry_run reaction];
          fixes_made := S (fixes_made st);
          problematic_reactions := problematic_reactions st |}
  else if Num.gtb (Qabs (h_imbalance balance)) 0
          || Num.gtb (Qabs (o_imbalance balance)) 0
  then {| visited := visited st ++ [reaction];
          fixes_made := fixes_made st;
          problematic_reactions :=
            problematic_reactions st
            ++ [(rxn_id reaction, h_imbalance balance, o_imbalance balance)] |}
  else {| visited := visited st ++ [reaction];
          fixes_made := fixes_made st;
          problematic_reactions := problematic_reactions st |}.

(** [fix_hydrogen_balance_with_water]: the model as mutated, the returned
    [fixes_made], and the list [problematic_reactions]. *)
Definition fix_hydrogen_balance_with_water (m : Model) (dry_run : bool)
  : Model * nat * list (string * Q * Q) :=
  match find_water_metabolite m with
  | None => (m, 0%nat, [])
  | Some water_met =>
      let st :=
        fold_left (loop_body water_met dry_run) (model_reactions m)
          {| visited := []; fixes_made := 0; problematic_reactions := [] |} in
      ({| model_metabolites := model_metabolites m;
          model_reactions := visited st |},
       fixes_made st, problematic_reactions st)
  end.

End FixHydrogenRun.

(** ** Notions used to state properties of the standalone scripts *)

Module Notions.
Import Cobra.
Local Open Scope Q_scope.

(** An element symbol: an upper-case letter, or one followed by a
    lower-case letter. *)
Definition is_symbol (s : string) : bool :=
  match s with
  | String a EmptyString => PyStr.is_upper a
  | String a (String b EmptyString) => PyStr.is_upper a && PyStr.is_lower b
  | _ => false
  end.

(** A match of the element pattern: a symbol and a run of digits. *)
Definition group_ok (g : string * string) : Prop :=
  is_symbol (fst g) = true /\ PyStr.all_digits (snd g) = true.

(** The scanner's match in progress is a match so far; while it may still
    take the lower-case letter it is one upper-case letter. *)
Definition pending_ok (p : Formula.pending) : Prop :=
  match p with
  | None => True
  | Some (el, ds, may_lower) =>
      group_ok (el, ds)
      /\ (may_lower = true ->
          exists a, el = String a EmptyString /\ ds = EmptyString)
  end.

(** The string holds no [+] and no [-]. *)
Definition sign_free (s : string) : bool :=
  negb (PyStr.existsb_string PyStr.is_sign s).

(** Atoms of [element] per molecule, from the formula attribute as the
    standalone scripts parse it. *)
Definition atoms_of (element : string) (m : Metabolite) : Z :=
  Dict.get_default element 0%Z (Formula.parse_formula (formula m)).

(** Every metabolite of the reaction has a formula attribute. *)
Definition all_formulas (r : Reaction) : bool :=
  forallb (fun mc => truthy (formula (fst mc))) (stoich r).

(** No metabolite of the reaction has a formula attribute. *)
Definition no_formulas (r : Reaction) : bool :=
  forallb (fun mc => negb (truthy (formula (fst mc)))) (stoich r).

(** The sum of |coefficient| times [f metabolite] over the entries. *)
Fixpoint abs_sum (f : Metabolite -> Z) (d : Stoich) : Q :=
  match d with
  | [] => 0
  | (m, c) :: tl => Qabs c * inject_Z (f m) + abs_sum f tl
  end.

(** The ids of the metabolites of a reaction. *)
Definition met_ids (d : Stoich) : list string :=
  map (fun mc => met_id (fst mc)) d.

(** The test under which the standalone proton fixer counts a fix. *)
Definition proton_fixable (r : Reaction) : bool :=
  let balance := FixProton.analyze_h_balance r in
  Nat.eqb (length (FixProton.missing_formulas balance)) 0
  && FixProton.can_fix_with_proton balance
  && Num.gtb (Qabs (FixProton.protons_needed balance)) 0.

(** The test under which the standalone proton fixer lists a reaction
    for review. *)
Definition proton_review (r : Reaction) : bool :=
  let balance := FixProton.analyze_h_balance r in
  Nat.eqb (length (FixProton.missing_formulas balance)) 0
  && negb (FixProton.can_fix_with_proton balance
           && Num.gtb (Qabs (FixProton.protons_needed balance)) 0)
  && Num.gtb (Qabs (FixProton.h_imbalance balance)) 3.

(** The fields of the report of [ModelBalancer] that the two fix passes
    leave alone. *)
Definition same_lists (a b : ModelBalancer.BalanceReport) : Prop :=
  ModelBalancer.total_reactions a = ModelBalancer.total_reactions b
  /\ ModelBalancer.mass_imbalanced a = ModelBalancer.mass_imbalanced b
  /\ ModelBalancer.charge_imbalanced a = ModelBalancer.charge_imbalanced b.

(** The ids the report of [ModelBalancer] holds as settled by the mass
    pass: fixed, or unfixable. *)
Definition mass_settled (b : ModelBalancer.BalanceReport) : list string :=
  (ModelBalancer.fixed_mass b
   ++ map ModelBalancer.unfixable_id (ModelBalancer.unfixable b))%list.

(** The id is one under which [ModelBalancer] looks for the proton or
    for water. *)
Definition proton_or_water_id (id : string) : bool :=
  PyStr.startswith "cpd00067" id || PyStr.startswith "cpd00001" id.

(** What one of the two fix functions of [ModelBalancer] may do to a
    reaction: enter species of the model whose id starts with [prefix],
    and keep every entry with a non-zero coefficient. *)
Definition touches_only (model_mets : list Metabolite) (prefix : string)
    (r r' : Reaction) : Prop :=
  (forall mc, In mc (stoich r') ->
     In mc (stoich r)
     \/ (In (fst mc) model_mets
         /\ PyStr.startswith prefix (met_id (fst mc)) = true))
  /\ (forall mc, In mc (stoich r) -> ~ snd mc == 0 -> In mc (stoich r')).

(** Two entries of the dictionary lie in different compartments. *)
Definition spans_compartments (d : Stoich) : Prop :=
  exists a b, In a d /\ In b d
              /\ opt_string_eqb (compartment (fst a)) (compartment (fst b))
                 = false.

End Notions.

(** * Properties *)

(** ** Comparisons and the largest absolute value *)

Section NumFacts.
Local Open Scope Q_scope.

Lemma ltb_lt (x y : Q) : Num.ltb x y = true <-> x < y.
Proof.
  unfold Num.ltb. rewrite negb_true_iff.
  split; intro H.
  - apply Qnot_le_lt. intro Hle. apply Qle_bool_iff in Hle. congruence.
  - destruct (Qle_bool y x) eqn:E; [|reflexivity].
    apply Qle_bool_iff in E. exfalso. apply (Qlt_not_le _ _ H E).
Qed.

Lemma ltb_ge (x y : Q) : Num.ltb x y = false <-> y <= x.
Proof.
  unfold Num.ltb. rewrite negb_false_iff. apply Qle_bool_iff.
Qed.

Lemma gtb_gt (x y : Q) : Num.gtb x y = true <-> y < x.
Proof. apply ltb_lt. Qed.

Lemma gtb_le (x y : Q) : Num.gtb x y = false <-> x <= y.
Proof. apply ltb_ge. Qed.

Lemma tol_pos : 0 < Num.tol.
Proof. reflexivity. Qed.

Lemma max_abs_from_lt (t : Q) (vs : list Q) : forall cur,
  Num.max_abs_from cur vs < t <-> cur < t /\ Forall (fun v => Qabs v < t) vs.
Proof.
  induction vs as [|v tl IH]; intro cur; simpl.
  - split; [intro H; split; [exact H | constructor] | intros [H _]; exact H].
  - rewrite IH. destruct (Num.gtb (Qabs v) cur) eqn:E.
    + apply gtb_gt in E. split.
      * intros [H1 H2]. split; [lra | constructor; assumption].
      * intros [H1 H2]. inversion H2; subst. split; assumption.
    + apply gtb_le in E. split.
      * intros [H1 H2]. split; [exact H1 | constructor; [lra | exact H2]].
      * intros [H1 H2]. inversion H2; subst. split; assumption.
Qed.

Lemma max_abs_lt (t : Q) (vs : list Q) : 0 < t ->
  (Num.max_abs vs < t <-> Forall (fun v => Qabs v < t) vs).
Proof.
  intro Ht. destruct vs as [|v tl]; simpl.
  - split; [constructor | intros _; exact Ht].
  - rewrite max_abs_from_lt. split.
    + intros [H1 H2]. constructor; assumption.
    + intro H. inversion H; subst. split; assumption.
Qed.

End NumFacts.

(** ** Dictionaries *)

Section DictFacts.
Context {V : Type}.

Lemma get_in_values (k : string) (d : Dict.t V) (v : V) :
  Dict.get k d = Some v -> In v (Dict.values d).
Proof.
  induction d as [|[k' v'] tl IH]; simpl; [discriminate|].
  destruct (String.eqb k k').
  - intro H. injection H as ->. now left.
  - intro H. right. now apply IH.
Qed.

Lemma get_of_nodup (d : Dict.t V) : NoDup (Dict.keys d) ->
  forall k v, In (k, v) d -> Dict.get k d = Some v.
Proof.
  induction d as [|[k' v'] tl IH]; simpl; intros Hnd k v Hin; [contradiction|].
  inversion Hnd as [|? ? Hnotin Hnd']; subst.
  destruct Hin as [Heq | Hin].
  - injection Heq as -> ->. now rewrite String.eqb_refl.
  - destruct (String.eqb k k') eqn:E.
    + apply String.eqb_eq in E. subst k'. exfalso. apply Hnotin.
      change (In (fst (k, v)) (map fst tl)). now apply in_map.
    + now apply IH.
Qed.

Lemma upsert_keys_in (k : string) (f : V -> V) (v0 : V) (d : Dict.t V) :
  forall x, In x (Dict.keys (Dict.upsert k f v0 d)) <->
            x = k \/ In x (Dict.keys d).
Proof.
  induction d as [|[k' v'] tl IH]; simpl; intro x.
  - split; [intros [H | []]; now left | intros [H | []]; now left].
  - destruct (String.eqb k k') eqn:E; simpl.
    + apply String.eqb_eq in E. subst k'. intuition congruence.
    + rewrite IH. intuition congruence.
Qed.

Lemma upsert_nodup (k : string) (f : V -> V) (v0 : V) (d : Dict.t V) :
  NoDup (Dict.keys d) -> NoDup (Dict.keys (Dict.upsert k f v0 d)).
Proof.
  induction d as [|[k' v'] tl IH]; simpl; intro Hnd.
  - constructor; [intros [] | constructor].
  - inversion Hnd as [|? ? Hnotin Hnd']; subst.
    destruct (String.eqb k k') eqn:E; simpl.
    + constructor; assumption.
    + constructor; [|now apply IH].
      intro Hin. apply upsert_keys_in in Hin. destruct Hin as [-> | Hin].
      * now rewrite String.eqb_refl in E.
      * now apply Hnotin.
Qed.

Lemma get_upsert_same (k : string) (f : V -> V) (v0 : V) (d : Dict.t V) :
  Dict.get k (Dict.upsert k f v0 d) =
  Some (match Dict.get k d with Some v => f v | None => v0 end).
Proof.
  induction d as [|[k' v'] tl IH]; simpl.
  - now rewrite String.eqb_refl.
  - destruct (String.eqb k k') eqn:E; simpl; rewrite E; [reflexivity | exact IH].
Qed.

Lemma get_upsert_other (k e : string) (f : V -> V) (v0 : V) (d : Dict.t V) :
  e <> k -> Dict.get e (Dict.upsert k f v0 d) = Dict.get e d.
Proof.
  intro Hne. induction d as [|[k' v'] tl IH]; simpl.
  - destruct (String.eqb e k) eqn:E; [|reflexivity].
    apply String.eqb_eq in E. contradiction.
  - destruct (String.eqb k k') eqn:E; simpl.
    + apply String.eqb_eq in E. subst k'.
      destruct (String.eqb e k) eqn:E'; [|reflexivity].
      apply String.eqb_eq in E'. contradiction.
    + destruct (String.eqb e k'); [reflexivity | exact IH].
Qed.

End DictFacts.

(** ** The element balance held by [balance_reaction_mass] *)

Section MassSteps.
Import Cobra ModelBalancer.
Local Open Scope Q_scope.

Variable model_mets : list Metabolite.

Lemma fix_proton_failed (r r' : Reaction) (eb : Dict.t Q) :
  fix_proton_balance model_mets r eb = (false, r') -> r' = r.
Proof.
  unfold fix_proton_balance.
  destruct (Num.ltb _ Num.tol); [discriminate|].
  destruct (find_species _ _ _); [discriminate|].
  intro H. now injection H.
Qed.

Lemma fix_water_failed (r r' : Reaction) (eb : Dict.t Q) :
  fix_water_balance model_mets r eb = (false, r') -> r' = r.
Proof.
  unfold fix_water_balance.
  destruct (Num.ltb _ Num.tol); [discriminate|].
  destruct (Num.gtb _ _); [intro H; now injection H|].
  destruct (find_species _ _ _); [discriminate|].
  intro H. now injection H.
Qed.

(** Each step hands on the balance of the reaction it hands on. *)
Lemma proton_step_balance (r : Reaction) :
  snd (proton_step model_mets (r, calculate_mass_balance r)) =
  calculate_mass_balance (fst (proton_step model_mets (r, calculate_mass_balance r))).
Proof.
  unfold proton_step.
  destruct (Dict.mem "H" _ && _); [|reflexivity].
  destruct (fix_proton_balance _ _ _) as [ok r'] eqn:E.
  destruct ok; simpl; [reflexivity|].
  apply fix_proton_failed in E. now subst.
Qed.

Lemma water_step_balance (r : Reaction) :
  snd (water_step model_mets (r, calculate_mass_balance r)) =
  calculate_mass_balance (fst (water_step model_mets (r, calculate_mass_balance r))).
Proof.
  unfold water_step.
  destruct (Dict.mem "O" _ && _); [|reflexivity].
  destruct (fix_water_balance _ _ _) as [ok r'] eqn:E.
  destruct ok; simpl; [reflexivity|].
  apply fix_water_failed in E. now subst.
Qed.

Lemma steps_balance (r : Reaction) :
  let st := water_step model_mets
              (proton_step model_mets (r, calculate_mass_balance r)) in
  snd st = calculate_mass_balance (fst st).
Proof.
  intro st. subst st.
  pose proof (proton_step_balance r) as Hp.
  destruct (proton_step model_mets (r, calculate_mass_balance r)) as [r1 eb1].
  simpl in Hp. subst eb1. apply water_step_balance.
Qed.

Lemma add_fixed_mass_changes (x : string) (b : BalanceReport) :
  add_fixed_mass x b <> b.
Proof.
  intro H. apply (f_equal fixed_mass) in H. simpl in H.
  apply (f_equal (@length string)) in H.
  rewrite length_app in H. simpl in H. lia.
Qed.

Lemma add_fixed_charge_changes (x : string) (b : BalanceReport) :
  add_fixed_charge x b <> b.
Proof.
  intro H. apply (f_equal fixed_charge) in H. simpl in H.
  apply (f_equal (@length string)) in H.
  rewrite length_app in H. simpl in H. lia.
Qed.

Lemma within_tol_get (d : Dict.t Q) :
  Num.ltb (max_imbalance d) Num.tol = true ->
  forall e, Qabs (Dict.get_default e 0 d) < Num.tol.
Proof.
  intros H e. apply ltb_lt in H. unfold max_imbalance in H.
  apply (max_abs_lt Num.tol _ tol_pos) in H.
  unfold Dict.get_default. destruct (Dict.get e d) as [v|] eqn:E.
  - rewrite Forall_forall in H. apply H. eapply get_in_values; eassumption.
  - reflexivity.
Qed.

End MassSteps.

(** C2 (as amended).  Whenever [balance_reaction_mass] reports a reaction as
    fixed (it returns true and appends the reaction's id to [fixed_mass]),
    recomputing [calculate_mass_balance] on the mutated reaction gives every
    element an imbalance of absolute value below the tolerance 0.01. *)
Theorem mass_fixed_elements_within_tolerance
    (model_mets : list Cobra.Metabolite) (report : ModelBalancer.BalanceReport)
    (r r' : Cobra.Reaction) :
  ModelBalancer.balance_reaction_mass model_mets report r =
    (true, r', ModelBalancer.add_fixed_mass (Cobra.rxn_id r') report) ->
  forall element,
    (Qabs (Dict.get_default element 0 (ModelBalancer.calculate_mass_balance r'))
     < Num.tol)%Q.
Proof.
  unfold ModelBalancer.balance_reaction_mass.
  destruct (_ || _).
  { intro H. injection H as _ H. symmetry in H.
    now apply add_fixed_mass_changes in H. }
  destruct (Num.ltb _ Num.tol).
  { intro H. injection H as _ H. symmetry in H.
    now apply add_fixed_mass_changes in H. }
  pose proof (steps_balance model_mets r) as Hst. simpl in Hst.
  destruct (ModelBalancer.water_step _ _) as [r2 eb2]. simpl in Hst.
  destruct (Num.ltb _ Num.tol) eqn:E; [|discriminate].
  intro H. injection H as <- _. subst eb2.
  now apply within_tol_get.
Qed.

Lemma mass_fixed_elements_within_tolerance_witness :
  ModelBalancer.balance_reaction_mass Samples.mets_with_proton
    (ModelBalancer.empty_report 1) Samples.r_short_h =
  (true,
   Cobra.add_metabolites [(Samples.proton_c, 1%Q)] Samples.r_short_h,
   ModelBalancer.add_fixed_mass "R_short_h" (ModelBalancer.empty_report 1))
  /\ forall element,
       (Qabs (Dict.get_default element 0
                (ModelBalancer.calculate_mass_balance
                   (Cobra.add_metabolites [(Samples.proton_c, 1%Q)]
                      Samples.r_short_h)))
        < Num.tol)%Q.
Proof.
  split; [reflexivity|].
  apply (mass_fixed_elements_within_tolerance Samples.mets_with_proton
           (ModelBalancer.empty_report 1) Samples.r_short_h).
  reflexivity.
Defined.

(** C2 as stated fails: the reaction CH -> C is reported as fixed by the
    mass path (a proton is inserted on the product side), and its charge
    balance is then 1, outside the tolerance. *)
Lemma mass_fixed_charge_off :
  let '(ok, r', report') :=
    ModelBalancer.balance_reaction_mass Samples.mets_with_proton
      (ModelBalancer.empty_report 1) Samples.r_short_h in
  ok = true
  /\ ModelBalancer.fixed_mass report' = ["R_short_h"]
  /\ (ModelBalancer.calculate_charge_balance r' == 1)%Q
  /\ ~ (Qabs (ModelBalancer.calculate_charge_balance r') < Num.tol)%Q.
Proof.
  vm_compute. repeat split; discriminate.
Qed.

(** The charge path reports the reaction X(-1) -> X as fixed after taking
    up a proton; the hydrogen balance of the result is -1. *)
Lemma charge_fixed_mass_off :
  let '(ok, r', report') :=
    ModelBalancer.balance_reaction_charge Samples.mets_with_proton
      (ModelBalancer.empty_report 1)
      (Samples.reaction "R_anion" [(Samples.anion_c, (-1)%Q); (Samples.carbon, 1%Q)]) in
  ok = true
  /\ ModelBalancer.fixed_charge report' = ["R_anion"]
  /\ (Dict.get_default "H" 0 (ModelBalancer.calculate_mass_balance r') == -1)%Q.
Proof.
  vm_compute. repeat split; discriminate.
Qed.

(** The charge path reports a reaction that already holds the proton as
    fixed although it has not changed it. *)
Lemma charge_fixed_without_change :
  let r := Samples.reaction "R_held"
             [(Samples.anion_c, (-1)%Q); (Samples.carbon, 1%Q);
              (Samples.proton_c, (-2)%Q)] in
  let '(ok, r', report') :=
    ModelBalancer.balance_reaction_charge Samples.mets_with_proton
      (ModelBalancer.empty_report 1) r in
  (ModelBalancer.calculate_charge_balance r == -1)%Q
  /\ ok = true /\ r' = r
  /\ ModelBalancer.fixed_charge report' = ["R_held"].
Proof.
  vm_compute. repeat split; reflexivity.
Qed.

(** ** Rollback *)

(** C1.  [balance_reaction_mass] on the reaction C -> C2 (coefficients -1
    and 1) finds no fix and returns false; the revert it then performs
    leaves the reaction with the coefficients -2 and 2, not with the
    mapping it had before the attempt. *)
Theorem revert_leaves_doubled_coefficients :
  let '(ok, r', report') :=
    ModelBalancer.balance_reaction_mass Samples.mets_plain
      (ModelBalancer.empty_report 1) Samples.r_carbon in
  ok = false
  /\ Cobra.stoich Samples.r_carbon =
       [(Samples.carbon, (-1)%Q); (Samples.dicarbon, 1%Q)]
  /\ Cobra.stoich r' = [(Samples.carbon, (-2)%Q); (Samples.dicarbon, 2%Q)]
  /\ ~ (Cobra.get_coefficient r' "A_c0" == Cobra.get_coefficient Samples.r_carbon "A_c0")%Q.
Proof.
  vm_compute. repeat split; discriminate.
Qed.

(** The same through the whole run: the reaction is listed as unfixable
    and the model holds it with doubled coefficients. *)
Lemma run_leaves_doubled_coefficients :
  match ModelBalancer.run_balancing
          (Samples.model_of Samples.mets_plain [Samples.r_carbon]) with
  | Some self =>
      map ModelBalancer.unfixable_id
        (ModelBalancer.unfixable (ModelBalancer.balance_report self))
      = ["R_carbon"]
      /\ Cobra.model_reactions (ModelBalancer.model self) =
         [Samples.reaction "R_carbon"
            [(Samples.carbon, (-2)%Q); (Samples.dicarbon, 2%Q)]]
  | None => False
  end.
Proof.
  vm_compute. split; reflexivity.
Qed.

(** In general the revert doubles what it was meant to restore. *)
Section Revert.
Import Cobra ModelBalancer.
Local Open Scope Q_scope.

Let double (mc : Metabolite * Q) : Metabolite * Q := (fst mc, snd mc + snd mc).

Lemma bump_past (m : Metabolite) (c : Q) (p s : Stoich) :
  (forall x, In x p -> same_met m (fst x) = false) ->
  bump m c (p ++ s)%list = (p ++ bump m c s)%list.
Proof.
  intro H. induction p as [|[m0 c0] tl IH]; simpl; [reflexivity|].
  pose proof (H (m0, c0) (or_introl eq_refl)) as H0. simpl in H0.
  rewrite H0. rewrite IH; [reflexivity|].
  intros x Hx. apply H. now right.
Qed.

Lemma combine_with_itself (s : Stoich) : forall p,
  NoDup (map (fun mc => met_id (fst mc)) (p ++ s)%list) ->
  fold_left add_one s (map double p ++ s)%list = map double (p ++ s)%list.
Proof.
  induction s as [|[m c] tl IH]; intros p Hnd; simpl.
  - now rewrite map_app.
  - assert (Hp : forall x, In x (map double p) -> same_met m (fst x) = false).
    { intros x Hx. apply in_map_iff in Hx. destruct Hx as [[m0 c0] [<- Hin]].
      simpl. unfold same_met. destruct (String.eqb _ _) eqn:E; [|reflexivity].
      apply String.eqb_eq in E. exfalso.
      rewrite map_app in Hnd. simpl in Hnd.
      apply NoDup_remove_2 in Hnd. apply Hnd. apply in_or_app. left.
      rewrite E. apply in_map_iff. exists (m0, c0). split; [reflexivity|exact Hin]. }
    unfold add_one at 2. simpl fst. simpl snd.
    assert (Hmem : mem m (map double p ++ (m, c) :: tl)%list = true).
    { unfold mem. rewrite existsb_app. simpl. unfold same_met at 2.
      rewrite String.eqb_refl. simpl. apply orb_true_r. }
    rewrite Hmem. rewrite (bump_past m c _ _ Hp). simpl.
    unfold same_met at 1. rewrite String.eqb_refl.
    replace (map double p ++ (m, c + c) :: tl)%list
      with (map double (p ++ [(m, c)])%list ++ tl)%list
      by (rewrite map_app, <- app_assoc; reflexivity).
    rewrite IH.
    + now rewrite <- app_assoc.
    + now rewrite <- app_assoc.
Qed.

Lemma revert_doubles (r : Reaction) :
  NoDup (map (fun mc => met_id (fst mc)) (stoich r)) ->
  stoich (revert (metabolites r) r) = drop_zeros (map double (stoich r)).
Proof.
  intro Hnd. unfold revert, add_metabolites, metabolites. simpl.
  pose proof (combine_with_itself (stoich r) [] Hnd) as H. simpl in H.
  now rewrite H.
Qed.

End Revert.

(** ** Exempt reactions *)

(** C3 (as amended).  A reaction whose metabolites span more than one
    compartment, or that has exactly one metabolite, is returned unchanged
    by [balance_reaction_mass]; a reaction with exactly one metabolite is
    returned unchanged by [balance_reaction_charge].  Neither call touches
    the report. *)
Theorem exempt_reactions_untouched
    (model_mets : list Cobra.Metabolite) (report : ModelBalancer.BalanceReport)
    (r : Cobra.Reaction) :
  ModelBalancer.is_transport_reaction r = true
  \/ length (Cobra.metabolites r) = 1%nat ->
  ModelBalancer.balance_reaction_mass model_mets report r = (true, r, report)
  /\ (length (Cobra.metabolites r) = 1%nat ->
      ModelBalancer.balance_reaction_charge model_mets report r
      = (true, r, report)).
Proof.
  intro H. split.
  - unfold ModelBalancer.balance_reaction_mass, ModelBalancer.is_exchange_reaction.
    destruct H as [-> | ->].
    + now rewrite orb_true_r.
    + now rewrite Nat.eqb_refl, !orb_true_r.
  - intro H1.
    unfold ModelBalancer.balance_reaction_charge, ModelBalancer.is_exchange_reaction.
    now rewrite H1, Nat.eqb_refl, !orb_true_r.
Qed.

Lemma exempt_reactions_untouched_witness :
  length (Cobra.metabolites Samples.r_single) = 1%nat
  /\ ModelBalancer.balance_reaction_mass Samples.mets_with_proton
       (ModelBalancer.empty_report 1) Samples.r_single
     = (true, Samples.r_single, ModelBalancer.empty_report 1)
  /\ ModelBalancer.balance_reaction_charge Samples.mets_with_proton
       (ModelBalancer.empty_report 1) Samples.r_single
     = (true, Samples.r_single, ModelBalancer.empty_report 1).
Proof.
  split; [reflexivity|].
  destruct (exempt_reactions_untouched Samples.mets_with_proton
              (ModelBalancer.empty_report 1) Samples.r_single
              (or_intror eq_refl)) as [Hm Hc].
  split; [exact Hm | exact (Hc eq_refl)].
Defined.

(** C3 as stated fails: the reaction X(-1)[c0] -> X[e0] spans two
    compartments, and [balance_reaction_charge] enters a proton with
    coefficient -1 into it. *)
Lemma charge_path_edits_transport :
  ModelBalancer.is_transport_reaction Samples.r_transport = true
  /\ Cobra.stoich
       (snd (fst (ModelBalancer.balance_reaction_charge
                    Samples.mets_with_proton (ModelBalancer.empty_report 1)
                    Samples.r_transport)))
     = [(Samples.anion_c, (-1)%Q); (Samples.neutral_e, 1%Q);
        (Samples.proton_c, (-1)%Q)]
  /\ Cobra.stoich
       (snd (fst (ModelBalancer.balance_reaction_charge
                    Samples.mets_with_proton (ModelBalancer.empty_report 1)
                    Samples.r_transport)))
     <> Cobra.stoich Samples.r_transport.
Proof.
  split; [reflexivity|]. split; [reflexivity|].
  vm_compute. discriminate.
Qed.

(** The standalone proton fixer has no exemption: a one-metabolite
    reaction that consumes water is given two protons. *)
Lemma standalone_fixer_edits_single :
  Cobra.stoich
    (FixProton.fix_one Samples.proton_c false
       (Samples.reaction "EX_h2o" [(Samples.water_c, (-1)%Q)]))
  = [(Samples.water_c, (-1)%Q); (Samples.proton_c, (-2)%Q)].
Proof. reflexivity. Qed.

(** ** Formula parsing *)

(** C5.  On the formula "Fe+2" the [parse_formula] of [ModelBalancer]
    deletes the sign only, so the charge digit is read as the count of
    iron; the [parse_formula] of the other scripts strips the charge. *)
Theorem parse_formula_charge_digits :
  ModelBalancer.parse_formula (Some "Fe+2") = [("Fe", 2%Z)]
  /\ Formula.parse_formula (Some "Fe+2") = [("Fe", 1%Z)].
Proof. split; reflexivity. Qed.

Example parse_H2O :
  Formula.parse_formula (Some "H2O") = [("H", 2%Z); ("O", 1%Z)]
  /\ ModelBalancer.parse_formula (Some "H2O") = [("H", 2%Z); ("O", 1%Z)].
Proof. split; reflexivity. Qed.

Example parse_glucose :
  Formula.parse_formula (Some "C6H12O6") = [("C", 6%Z); ("H", 12%Z); ("O", 6%Z)]
  /\ ModelBalancer.parse_formula (Some "C6H12O6")
     = [("C", 6%Z); ("H", 12%Z); ("O", 6%Z)].
Proof. split; reflexivity. Qed.

Example parse_sodium :
  Formula.parse_formula (Some "Na+") = [("Na", 1%Z)]
  /\ ModelBalancer.parse_formula (Some "Na+") = [("Na", 1%Z)].
Proof. split; reflexivity. Qed.

Example parse_nothing :
  Formula.parse_formula None = [] /\ Formula.parse_formula (Some "") = []
  /\ Formula.parse_formula (Some "none") = []
  /\ ModelBalancer.parse_formula None = []
  /\ ModelBalancer.parse_formula (Some "") = []
  /\ ModelBalancer.parse_formula (Some "none") = [].
Proof. repeat split; reflexivity. Qed.

(** ** What the two balances compute *)

Section BalanceValues.
Import Cobra ModelBalancer SideSums.
Local Open Scope Q_scope.

Lemma get_absent {V : Type} (k : string) (d : Dict.t V) :
  ~ In k (Dict.keys d) -> Dict.get k d = None.
Proof.
  induction d as [|[k' v'] tl IH]; simpl; intro H; [reflexivity|].
  destruct (String.eqb k k') eqn:E.
  - apply String.eqb_eq in E. subst. exfalso. apply H. now left.
  - apply IH. intro Hin. apply H. now right.
Qed.

Lemma add_elements_get (e : string) (c : Q) (els : Dict.t Z) :
  NoDup (Dict.keys els) ->
  forall acc,
    Dict.get_default e 0 (add_elements c els acc) ==
    Dict.get_default e 0 acc + c * inject_Z (Dict.get_default e 0%Z els).
Proof.
  induction els as [|[k v] tl IH]; intros Hnd acc.
  - unfold Dict.get_default at 3. simpl. ring.
  - inversion Hnd as [|? ? Hnotin Hnd']; subst. simpl add_elements.
    rewrite (IH Hnd').
    unfold Dict.get_default at 1 3 4. simpl Dict.get.
    destruct (String.eqb e k) eqn:E.
    + apply String.eqb_eq in E. subst k.
      rewrite get_upsert_same.
      unfold Dict.get_default. rewrite (get_absent e tl Hnotin).
      destruct (Dict.get e acc); simpl; ring.
    + rewrite get_upsert_other.
      * unfold Dict.get_default. reflexivity.
      * intro Heq. subst. now rewrite String.eqb_refl in E.
Qed.

Lemma add_elements_nodup (c : Q) (els : Dict.t Z) : forall acc,
  NoDup (Dict.keys acc) -> NoDup (Dict.keys (add_elements c els acc)).
Proof.
  induction els as [|[k v] tl IH]; intros acc H; simpl; [exact H|].
  apply IH. now apply upsert_nodup.
Qed.

Lemma accumulate_nodup (ms : list (string * string)) : forall acc,
  NoDup (Dict.keys acc) -> NoDup (Dict.keys (Formula.accumulate ms acc)).
Proof.
  induction ms as [|[el ds] tl IH]; intros acc H; simpl; [exact H|].
  apply IH. now apply upsert_nodup.
Qed.

Lemma parse_formula_nodup (f : option string) :
  NoDup (Dict.keys (parse_formula f)).
Proof.
  unfold parse_formula. destruct f as [f|]; [|constructor].
  destruct (String.eqb f ""); [constructor|].
  apply accumulate_nodup. constructor.
Qed.

Lemma mass_loop_nodup (items : Stoich) : forall acc,
  NoDup (Dict.keys acc) -> NoDup (Dict.keys (mass_loop items acc)).
Proof.
  induction items as [|[m c] tl IH]; intros acc H; simpl; [exact H|].
  destruct (negb _).
  - simpl. constructor; [intros [] | constructor].
  - apply IH. now apply add_elements_nodup.
Qed.

Lemma mass_loop_get (e : string) (items : Stoich) :
  forallb (fun mc => truthy (get_metabolite_formula (fst mc))) items = true ->
  forall acc,
    Dict.get_default e 0 (mass_loop items acc) ==
    Dict.get_default e 0 acc + signed_sum (atoms e) items.
Proof.
  induction items as [|[m c] tl IH]; intros Hres acc; simpl.
  - ring.
  - simpl in Hres. apply andb_true_iff in Hres. destruct Hres as [Hm Htl].
    rewrite Hm. simpl negb. cbv iota.
    rewrite (IH Htl).
    rewrite (add_elements_get e c _ (parse_formula_nodup _)).
    unfold atoms. ring.
Qed.

Lemma charge_fold (items : Stoich) : forall acc,
  fold_left
    (fun total_charge mc =>
       total_charge + snd mc * inject_Z (charge_or_0 (fst mc))) items acc
  == acc + signed_sum charge_or_0 items.
Proof.
  induction items as [|[m c] tl IH]; intro acc; simpl.
  - ring.
  - rewrite IH. ring.
Qed.

(** The signed sum is the product side minus the reactant side. *)
Lemma signed_is_products_minus_reactants (f : Metabolite -> Z) (d : Stoich) :
  signed_sum f d == product_sum f d - reactant_sum f d.
Proof.
  induction d as [|[m c] tl IH]; simpl.
  - ring.
  - rewrite IH. unfold Num.gtb.
    destruct (Num.ltb c 0) eqn:Eneg; destruct (Num.ltb 0 c) eqn:Epos.
    + apply ltb_lt in Eneg. apply ltb_lt in Epos. lra.
    + apply ltb_lt in Eneg.
      rewrite (Qabs_neg c) by lra. ring.
    + apply ltb_lt in Epos.
      rewrite (Qabs_pos c) by lra. ring.
    + apply ltb_ge in Eneg. apply ltb_ge in Epos.
      assert (Hc : c == 0) by lra. rewrite Hc. ring.
Qed.

End BalanceValues.

Lemma within_tol_of_get (d : Dict.t Q) :
  NoDup (Dict.keys d) ->
  (forall e, Qabs (Dict.get_default e 0 d) < Num.tol)%Q ->
  Num.ltb (ModelBalancer.max_imbalance d) Num.tol = true.
Proof.
  intros Hnd H. apply ltb_lt. unfold ModelBalancer.max_imbalance.
  apply (max_abs_lt Num.tol _ tol_pos). apply Forall_forall.
  intros v Hv. unfold Dict.values in Hv. apply in_map_iff in Hv.
  destruct Hv as [[k v'] [Hk Hin]]. simpl in Hk. subst v'.
  specialize (H k). unfold Dict.get_default in H.
  now rewrite (get_of_nodup d Hnd k v Hin) in H.
Qed.

(** C6 (as amended).  For a reaction all of whose formulas are resolved,
    [calculate_mass_balance] holds for each element the sum over the
    products of |coefficient| x count minus the same sum over the
    reactants, [calculate_charge_balance] is that difference for the
    charges (a missing charge counting 0), and the test "largest absolute
    value below 0.01" made by [balance_reaction_mass] holds exactly when
    every element's imbalance has absolute value below 0.01. *)
Theorem balances_are_products_minus_reactants (r : Cobra.Reaction) :
  SideSums.resolved r = true ->
  (forall element,
     (Dict.get_default element 0 (ModelBalancer.calculate_mass_balance r) ==
      SideSums.product_sum (SideSums.atoms element) (Cobra.stoich r)
      - SideSums.reactant_sum (SideSums.atoms element) (Cobra.stoich r))%Q)
  /\ (ModelBalancer.calculate_charge_balance r ==
      SideSums.product_sum ModelBalancer.charge_or_0 (Cobra.stoich r)
      - SideSums.reactant_sum ModelBalancer.charge_or_0 (Cobra.stoich r))%Q
  /\ (Num.ltb (ModelBalancer.max_imbalance (ModelBalancer.calculate_mass_balance r))
        Num.tol = true
      <-> forall element,
            (Qabs (Dict.get_default element 0
                     (ModelBalancer.calculate_mass_balance r)) < Num.tol)%Q).
Proof.
  intro Hres. split; [|split].
  - intro element. unfold ModelBalancer.calculate_mass_balance, Cobra.metabolites.
    rewrite (mass_loop_get element (Cobra.stoich r) Hres []).
    rewrite signed_is_products_minus_reactants.
    unfold Dict.get_default. simpl. ring.
  - unfold ModelBalancer.calculate_charge_balance, Cobra.metabolites.
    rewrite charge_fold. rewrite signed_is_products_minus_reactants. ring.
  - split.
    + apply within_tol_get.
    + apply within_tol_of_get.
      unfold ModelBalancer.calculate_mass_balance.
      apply mass_loop_nodup. constructor.
Qed.

Lemma balances_are_products_minus_reactants_witness :
  (Dict.get_default "H" 0 (ModelBalancer.calculate_mass_balance Samples.r_short_h)
   == SideSums.product_sum (SideSums.atoms "H") (Cobra.stoich Samples.r_short_h)
      - SideSums.reactant_sum (SideSums.atoms "H") (Cobra.stoich Samples.r_short_h))%Q.
Proof.
  exact (proj1 (balances_are_products_minus_reactants Samples.r_short_h eq_refl) "H").
Defined.

(** C6 as stated fails on the sign: for CH -> C the hydrogen entry of
    [calculate_mass_balance] is -1 where reactants minus products is 1,
    and for X(-1) -> C the charge balance is 1 where reactants minus
    products is -1. *)
Lemma balance_sign_is_products_first :
  SideSums.resolved Samples.r_short_h = true
  /\ (Dict.get_default "H" 0 (ModelBalancer.calculate_mass_balance Samples.r_short_h)
      == -1)%Q
  /\ (SideSums.reactant_sum (SideSums.atoms "H") (Cobra.stoich Samples.r_short_h)
      - SideSums.product_sum (SideSums.atoms "H") (Cobra.stoich Samples.r_short_h)
      == 1)%Q
  /\ ~ (Dict.get_default "H" 0 (ModelBalancer.calculate_mass_balance Samples.r_short_h)
        == SideSums.reactant_sum (SideSums.atoms "H") (Cobra.stoich Samples.r_short_h)
           - SideSums.product_sum (SideSums.atoms "H") (Cobra.stoich Samples.r_short_h))%Q
  /\ ~ (ModelBalancer.calculate_charge_balance
          (Samples.reaction "R_anion"
             [(Samples.anion_c, (-1)%Q); (Samples.carbon, 1%Q)])
        == SideSums.reactant_sum ModelBalancer.charge_or_0
             [(Samples.anion_c, (-1)%Q); (Samples.carbon, 1%Q)]
           - SideSums.product_sum ModelBalancer.charge_or_0
               [(Samples.anion_c, (-1)%Q); (Samples.carbon, 1%Q)])%Q.
Proof.
  vm_compute. repeat split; discriminate.
Qed.

(** ** The water adjustment *)

Section WaterStep.
Import Cobra ModelBalancer.
Local Open Scope Q_scope.

Lemma find_after_absent {A : Type} (p q : A -> bool) (x : A) (l : list A) :
  (forall y, In y l -> p y = false) -> p x = true -> q x = true ->
  find p (filter q (l ++ [x])%list) = Some x.
Proof.
  intros Hl Hp Hq. induction l as [|y tl IH]; simpl.
  - now rewrite Hq; simpl; rewrite Hp.
  - destruct (q y); simpl.
    + rewrite (Hl y (or_introl eq_refl)). apply IH.
      intros z Hz. apply Hl. now right.
    + apply IH. intros z Hz. apply Hl. now right.
Qed.

(** A species the reaction does not hold, entered with a non-zero
    coefficient, has that coefficient afterwards. *)
Lemma coefficient_of_entered (met : Metabolite) (c : Q) (r : Reaction) :
  mem met (metabolites r) = false -> ~ c == 0 ->
  stoich (add_metabolites [(met, c)] r) = drop_zeros (stoich r ++ [(met, c)])%list
  /\ get_coefficient (add_metabolites [(met, c)] r) (met_id met) = c.
Proof.
  intros Hmem Hc. unfold metabolites in Hmem.
  assert (Hst : stoich (add_metabolites [(met, c)] r)
                = drop_zeros (stoich r ++ [(met, c)])%list).
  { unfold add_metabolites. simpl. unfold add_one. simpl. now rewrite Hmem. }
  split; [exact Hst|].
  unfold get_coefficient. rewrite Hst. unfold drop_zeros.
  rewrite (find_after_absent _ _ (met, c)).
  - reflexivity.
  - intros y Hy. unfold mem in Hmem.
    destruct (String.eqb (met_id met) (met_id (fst y))) eqn:E; [|reflexivity].
    assert (Hex : existsb (fun mc => same_met met (fst mc)) (stoich r) = true).
    { apply existsb_exists. exists y. split; [exact Hy | exact E]. }
    congruence.
  - simpl. apply String.eqb_refl.
  - simpl. destruct (Qeq_bool c 0) eqn:E; [|reflexivity].
    apply Qeq_bool_iff in E. contradiction.
Qed.

End WaterStep.

(** C7 (as amended).  The water step of [balance_reaction_mass], run on a
    reaction and the element balance held after the proton step, changes
    the reaction only when the oxygen imbalance exceeds 0.01 in absolute
    value and the hydrogen imbalance differs from twice the oxygen
    imbalance by at most 0.1; the change is then the entry of the water
    species of the first metabolite's compartment, which the reaction did
    not hold, with the negative of the oxygen imbalance as coefficient. *)
Theorem water_step_changes_only_within_tolerance
    (model_mets : list Cobra.Metabolite) (r r' : Cobra.Reaction)
    (eb eb' : Dict.t Q) :
  ModelBalancer.water_step model_mets (r, eb) = (r', eb') ->
  r' <> r ->
  let o := Dict.get_default "O" 0%Q eb in
  let h := Dict.get_default "H" 0%Q eb in
  (Num.tol < Qabs o)%Q
  /\ (Qabs (h - 2 * o) <= 1 # 10)%Q
  /\ exists water,
       ModelBalancer.find_species "cpd00001"
         (ModelBalancer.first_compartment (Cobra.metabolites r)) model_mets
       = Some water
       /\ Cobra.mem water (Cobra.metabolites r) = false
       /\ r' = Cobra.add_metabolites [(water, (- o)%Q)] r
       /\ Cobra.get_coefficient r' (Cobra.met_id water) = (- o)%Q.
Proof.
  unfold ModelBalancer.water_step.
  destruct (Dict.mem "O" eb && _) eqn:Eg.
  2:{ intros H Hne. injection H as H _. now subst. }
  apply andb_true_iff in Eg. destruct Eg as [_ Eo]. apply gtb_gt in Eo.
  unfold ModelBalancer.fix_water_balance.
  destruct (Num.ltb _ Num.tol).
  { simpl. intros H Hne. injection H as H _. now subst. }
  destruct (Num.gtb _ (1 # 10)) eqn:Eh.
  { simpl. intros H Hne. injection H as H _. now subst. }
  apply gtb_le in Eh.
  destruct (ModelBalancer.find_species _ _ _) as [water|] eqn:Ew.
  2:{ simpl. intros H Hne. injection H as H _. now subst. }
  unfold ModelBalancer.adjust.
  destruct (Cobra.mem water (Cobra.metabolites r)) eqn:Em.
  { unfold ModelBalancer.adjust_on_copy. simpl.
    intros H Hne. injection H as H _. now subst. }
  simpl. intros H Hne. injection H as H _.
  split; [exact Eo|]. split; [exact Eh|].
  exists water. split; [reflexivity|]. split; [exact Em|].
  split; [now symmetry|]. subst r'.
  apply coefficient_of_entered; [exact Em|].
  intro Hz. rewrite <- (Qabs_opp (Dict.get_default "O" 0%Q eb)) in Eo.
  rewrite Hz in Eo. revert Eo. apply Qle_not_lt. discriminate.
Qed.

Lemma water_step_changes_only_within_tolerance_witness :
  (Num.tol < Qabs (Dict.get_default "O" 0%Q
                     (ModelBalancer.calculate_mass_balance Samples.r_almost_water)))%Q.
Proof.
  refine (proj1 (water_step_changes_only_within_tolerance
                   Samples.mets_with_water Samples.r_almost_water
                   (Cobra.add_metabolites [(Samples.water_c, (-1)%Q)]
                      Samples.r_almost_water)
                   (ModelBalancer.calculate_mass_balance Samples.r_almost_water)
                   (ModelBalancer.calculate_mass_balance
                      (Cobra.add_metabolites [(Samples.water_c, (-1)%Q)]
                         Samples.r_almost_water))
                   _ _)).
  - vm_compute. reflexivity.
  - vm_compute. discriminate.
Defined.

(** C7 as stated fails on "exactly": in C + 0.005 H -> CH2O the hydrogen
    imbalance 2.005 is not twice the oxygen imbalance 1, yet the water
    step enters water with coefficient -1 and the reaction is reported as
    fixed. *)
Lemma water_applied_without_exact_ratio :
  let eb := ModelBalancer.calculate_mass_balance Samples.r_almost_water in
  ModelBalancer.proton_step Samples.mets_with_water (Samples.r_almost_water, eb)
    = (Samples.r_almost_water, eb)
  /\ (Dict.get_default "H" 0 eb == 2005 # 1000)%Q
  /\ (Dict.get_default "O" 0 eb == 1)%Q
  /\ ~ (Dict.get_default "H" 0 eb == 2 * Dict.get_default "O" 0 eb)%Q
  /\ Cobra.stoich
       (fst (ModelBalancer.water_step Samples.mets_with_water
               (Samples.r_almost_water, eb)))
     = [(Samples.carbon, (-1)%Q); (Samples.formaldehyde, 1%Q);
        (Samples.hydrogen, (5 # 1000)%Q); (Samples.water_c, (-1)%Q)]
  /\ fst (fst (ModelBalancer.balance_reaction_mass Samples.mets_with_water
                 (ModelBalancer.empty_report 1) Samples.r_almost_water)) = true
  /\ ModelBalancer.fixed_mass
       (snd (ModelBalancer.balance_reaction_mass Samples.mets_with_water
               (ModelBalancer.empty_report 1) Samples.r_almost_water))
     = ["R_almost_water"].
Proof.
  vm_compute. repeat split; discriminate.
Qed.

(** ** A second pass over balanced reactions *)

Section Balanced.
Import Cobra ModelBalancer SideSums.
Local Open Scope Q_scope.

Lemma calculate_mass_balance_nodup (r : Reaction) :
  NoDup (Dict.keys (calculate_mass_balance r)).
Proof. apply mass_loop_nodup. constructor. Qed.

Lemma balanced_mass (model_mets : list Metabolite) (report : BalanceReport)
    (r : Reaction) :
  within_tolerance r ->
  balance_reaction_mass model_mets report r = (true, r, report).
Proof.
  intros [Hm _]. unfold balance_reaction_mass.
  destruct (_ || _); [reflexivity|].
  now rewrite (within_tol_of_get _ (calculate_mass_balance_nodup r) Hm).
Qed.

Lemma balanced_charge (model_mets : list Metabolite) (report : BalanceReport)
    (r : Reaction) :
  within_tolerance r ->
  balance_reaction_charge model_mets report r = (true, r, report).
Proof.
  intros [_ Hc]. unfold balance_reaction_charge.
  destruct (is_exchange_reaction r); [reflexivity|].
  apply ltb_lt in Hc. now rewrite Hc.
Qed.

Lemma balanced_analyze_one (report : BalanceReport) (r : Reaction) :
  within_tolerance r -> analyze_one report r = report.
Proof.
  intros [Hm Hc]. unfold analyze_one.
  assert (Hmax : Num.gtb (max_imbalance (calculate_mass_balance r)) Num.tol
                 = false).
  { apply gtb_le. apply Qlt_le_weak. apply ltb_lt.
    exact (within_tol_of_get _ (calculate_mass_balance_nodup r) Hm). }
  assert (Hch : Num.gtb (Qabs (calculate_charge_balance r)) Num.tol = false).
  { apply gtb_le. now apply Qlt_le_weak. }
  now rewrite Hmax, Hch, andb_false_r.
Qed.

Lemma balanced_analyze_all (rs : list Reaction) (report : BalanceReport) :
  (forall r, In r rs -> within_tolerance r) ->
  fold_left analyze_one rs report = report.
Proof.
  revert report. induction rs as [|r tl IH]; intros report H; simpl.
  - reflexivity.
  - rewrite (balanced_analyze_one report r) by (apply H; now left).
    apply IH. intros r' Hr'. apply H. now right.
Qed.

End Balanced.

Section ProtonFixer.
Import Cobra FixProton.
Local Open Scope Q_scope.

Lemma analyze_h_balance_fields (r : Reaction) :
  can_fix_with_proton (analyze_h_balance r)
  = Num.gtb (Qabs (h_imbalance (analyze_h_balance r))) 0
    && Qle_bool (Qabs (h_imbalance (analyze_h_balance r))) 3
  /\ protons_needed (analyze_h_balance r) = h_imbalance (analyze_h_balance r).
Proof.
  unfold analyze_h_balance.
  destruct (side_h r (reactants r) (0, [])) as [rh m1].
  destruct (side_h r (products r) (0, m1)) as [ph m2].
  simpl. split; reflexivity.
Qed.

End ProtonFixer.

(** C8 (as amended).  In a model all of whose reactions are within tolerance (every
    element imbalance and the charge imbalance below 0.01 in absolute
    value) the run of [ModelBalancer] records nothing and leaves the
    model as it is, and each of its two fix functions returns any such
    reaction unchanged.  The standalone proton fixer, whose test is an
    imbalance different from zero, returns unchanged every reaction whose
    hydrogen imbalance is zero. *)
Theorem balanced_model_gets_no_edit (m : Cobra.Model) :
  (forall r, In r (Cobra.model_reactions m) -> SideSums.within_tolerance r) ->
  ModelBalancer.run_balancing m = Some (ModelBalancer.init m)
  /\ (forall r report,
        In r (Cobra.model_reactions m) ->
        ModelBalancer.balance_reaction_mass (Cobra.model_metabolites m) report r
          = (true, r, report)
        /\ ModelBalancer.balance_reaction_charge (Cobra.model_metabolites m)
             report r = (true, r, report))
  /\ (forall r proton_met dry_run,
        In r (Cobra.model_reactions m) ->
        (FixProton.h_imbalance (FixProton.analyze_h_balance r) == 0)%Q ->
        FixProton.fix_one proton_met dry_run r = r).
Proof.
  intro Hall. split; [|split].
  - unfold ModelBalancer.run_balancing, ModelBalancer.analyze_balance.
    rewrite (balanced_analyze_all _ _ Hall). reflexivity.
  - intros r report Hr. split.
    + apply balanced_mass. now apply Hall.
    + apply balanced_charge. now apply Hall.
  - intros r proton_met dry_run _ Hz. unfold FixProton.fix_one.
    destruct (negb _); [reflexivity|].
    destruct (analyze_h_balance_fields r) as [-> _].
    assert (Hg : Num.gtb (Qabs (FixProton.h_imbalance (FixProton.analyze_h_balance r))) 0
                 = false).
    { apply gtb_le. rewrite Hz. discriminate. }
    now rewrite Hg.
Qed.

Lemma balanced_sample_within_tolerance :
  forall r, In r [Samples.r_balanced] -> SideSums.within_tolerance r.
Proof.
  intros r [<- | []]. split.
  - apply within_tol_get. vm_compute. reflexivity.
  - vm_compute. reflexivity.
Defined.

Lemma balanced_model_gets_no_edit_witness :
  ModelBalancer.run_balancing
    (Samples.model_of Samples.mets_plain [Samples.r_balanced])
  = Some (ModelBalancer.init
            (Samples.model_of Samples.mets_plain [Samples.r_balanced])).
Proof.
  exact (proj1 (balanced_model_gets_no_edit
                  (Samples.model_of Samples.mets_plain [Samples.r_balanced])
                  balanced_sample_within_tolerance)).
Defined.

(** C8 as stated fails for the standalone proton fixer, which applies no
    tolerance: the reaction C -> C + 0.005 H is within tolerance (its
    only imbalance is 0.005 of hydrogen), it does not hold the proton,
    and the fixer enters the proton into it with coefficient 0.005 and
    counts one fix. *)
Lemma standalone_fixer_edits_within_tolerance :
  SideSums.within_tolerance Samples.r_small
  /\ Cobra.mem Samples.proton_c (Cobra.stoich Samples.r_small) = false
  /\ FixProton.fix_one Samples.proton_c false Samples.r_small
     <> Samples.r_small
  /\ (Cobra.get_coefficient
        (FixProton.fix_one Samples.proton_c false Samples.r_small)
        "cpd00067_c0" == 5 # 1000)%Q
  /\ snd (fst (FixProton.fix_proton_balance
                 (Samples.model_of
                    [Samples.carbon; Samples.carbon2; Samples.hydrogen;
                     Samples.proton_c]
                    [Samples.r_small]) false)) = 1%nat.
Proof.
  split; [|split; [|split; [|split]]].
  - split.
    + apply within_tol_get. vm_compute. reflexivity.
    + vm_compute. reflexivity.
  - reflexivity.
  - intro H. apply (f_equal (fun r => length (Cobra.stoich r))) in H.
    vm_compute in H. discriminate.
  - vm_compute. reflexivity.
  - vm_compute. reflexivity.
Qed.

(** ** The model as a store of reactions *)

Section Store.
Import Cobra.

Lemma get_by_id_found (rs : list Reaction) (id : string) :
  In id (map rxn_id rs) ->
  exists r, get_by_id rs id = Some r /\ In r rs /\ rxn_id r = id.
Proof.
  unfold get_by_id. induction rs as [|r tl IH]; simpl; [intros []|].
  intro H. destruct (String.eqb id (rxn_id r)) eqn:E.
  - apply String.eqb_eq in E. exists r. repeat split; auto.
  - destruct H as [H | H].
    + subst id. now rewrite String.eqb_refl in E.
    + destruct (IH H) as [r0 [Hf [Hin Hid]]].
      exists r0. repeat split; auto.
Qed.

Lemma get_by_id_unique (rs : list Reaction) (r : Reaction) :
  NoDup (map rxn_id rs) -> In r rs -> get_by_id rs (rxn_id r) = Some r.
Proof.
  unfold get_by_id. induction rs as [|r0 tl IH]; simpl; [intros _ []|].
  intros Hnd Hin. inversion Hnd as [|? ? Hnotin Hnd']; subst.
  destruct Hin as [-> | Hin].
  - now rewrite String.eqb_refl.
  - destruct (String.eqb (rxn_id r) (rxn_id r0)) eqn:E.
    + apply String.eqb_eq in E. exfalso. apply Hnotin. rewrite <- E.
      now apply in_map.
    + now apply IH.
Qed.

Lemma store_ids (r' : Reaction) (rs : list Reaction) :
  map rxn_id (store r' rs) = map rxn_id rs.
Proof.
  induction rs as [|r tl IH]; simpl; [reflexivity|].
  destruct (String.eqb (rxn_id r') (rxn_id r)) eqn:E; simpl.
  - apply String.eqb_eq in E. now rewrite E.
  - now rewrite IH.
Qed.

Lemma store_other (r' r : Reaction) (rs : list Reaction) :
  In r rs -> rxn_id r <> rxn_id r' -> In r (store r' rs).
Proof.
  intros Hin Hne. induction rs as [|r0 tl IH]; simpl; [contradiction|].
  destruct (String.eqb (rxn_id r') (rxn_id r0)) eqn:E.
  - apply String.eqb_eq in E. destruct Hin as [-> | Hin].
    + now symmetry in E.
    + now right.
  - destruct Hin as [-> | Hin]; [now left | right; now apply IH].
Qed.

Lemma nodup_filter_ids (f : Reaction -> bool) (rs : list Reaction) :
  NoDup (map rxn_id rs) -> NoDup (map rxn_id (filter f rs)).
Proof.
  induction rs as [|r tl IH]; simpl; intro H; [constructor|].
  inversion H as [|? ? Hnotin Hnd]; subst.
  destruct (f r); simpl; [|now apply IH].
  constructor; [|now apply IH].
  intro Hin. apply Hnotin. apply in_map_iff in Hin.
  destruct Hin as [x [Hx Hf]]. apply filter_In in Hf.
  apply in_map_iff. exists x. tauto.
Qed.

End Store.

(** ** The two loops of [fix_all_reactions] *)

Section FixLoop.
Import Cobra ModelBalancer SideSums.

Context {A : Type}.
Variable key : A -> string.
Variable attempt :
  list Metabolite -> BalanceReport -> Reaction -> bool * Reaction * BalanceReport.
Variable entry : Reaction -> A -> Unfixable.
Variable body : A -> Balancer -> option Balancer.

Hypothesis body_eq : forall a self,
  body a self =
  match get_by_id (model_reactions (model self)) (key a) with
  | None => None
  | Some reaction =>
      let '(ok, reaction', report') :=
        attempt (model_metabolites (model self)) (balance_report self)
          reaction in
      Some (with_reaction reaction'
              (if ok then report' else add_unfixable (entry reaction' a) report')
              self)
  end.
Hypothesis attempt_id : forall ms rep r,
  rxn_id (snd (fst (attempt ms rep r))) = rxn_id r.
Hypothesis attempt_flag : forall ms rep rep' r,
  fst (fst (attempt ms rep r)) = fst (fst (attempt ms rep' r)).
Hypothesis attempt_unfixable : forall ms rep r,
  unfixable (snd (attempt ms rep r)) = unfixable rep.
Hypothesis entry_id : forall r a, unfixable_id (entry r a) = rxn_id r.

Lemma for_each_fix (infos : list A) : forall self,
  (forall a, In a infos ->
             In (key a) (map rxn_id (model_reactions (model self)))) ->
  exists self',
    for_each body infos self = Some self'
    /\ model_metabolites (model self') = model_metabolites (model self)
    /\ map rxn_id (model_reactions (model self'))
       = map rxn_id (model_reactions (model self))
    /\ incl (unfixable_ids self) (unfixable_ids self')
    /\ (forall r, In r (model_reactions (model self)) ->
                  ~ In (rxn_id r) (map key infos) ->
                  In r (model_reactions (model self')))
    /\ (NoDup (map key infos) ->
        NoDup (map rxn_id (model_reactions (model self))) ->
        forall r rep,
          In r (model_reactions (model self)) ->
          In (rxn_id r) (map key infos) ->
          fst (fst (attempt (model_metabolites (model self)) rep r)) = false ->
          In (rxn_id r) (unfixable_ids self')).
Proof.
  induction infos as [|a tl IH]; intros self Hkeys.
  - exists self. simpl. repeat split; auto using incl_refl.
    intros _ _ r rep _ [].
  - simpl. rewrite body_eq.
    destruct (get_by_id_found _ _ (Hkeys a (or_introl eq_refl)))
      as [r0 [Hget [Hin0 Hid0]]].
    rewrite Hget.
    pose proof (attempt_id (model_metabolites (model self))
                  (balance_report self) r0) as Hid.
    pose proof (attempt_unfixable (model_metabolites (model self))
                  (balance_report self) r0) as Hunf.
    pose proof (fun rep => attempt_flag (model_metabolites (model self))
                  (balance_report self) rep r0) as Hflag.
    destruct (attempt (model_metabolites (model self)) (balance_report self) r0)
      as [[ok r0'] rep'] eqn:Eatt.
    simpl in Hid, Hunf, Hflag.
    set (self1 := with_reaction r0' _ self).
    assert (Hids1 : map rxn_id (model_reactions (model self1))
                    = map rxn_id (model_reactions (model self))).
    { subst self1. simpl. apply store_ids. }
    destruct (IH self1) as [self' [Hrun [Hmets [Hids [Hincl [Hkeep Hlist]]]]]].
    { intros a' Ha'. rewrite Hids1. apply Hkeys. now right. }
    exists self'. split; [exact Hrun|].
    split; [rewrite Hmets; reflexivity|].
    split; [now rewrite Hids, Hids1|].
    assert (Hincl1 : incl (unfixable_ids self) (unfixable_ids self1)).
    { subst self1. unfold unfixable_ids. simpl.
      destruct ok; simpl; rewrite Hunf.
      - apply incl_refl.
      - rewrite map_app. apply incl_appl. apply incl_refl. }
    split; [eapply incl_tran; eassumption|].
    split.
    + intros r Hr Hnot. apply Hkeep.
      * subst self1. simpl. apply store_other; [exact Hr|].
        intro Heq. apply Hnot. left. congruence.
      * intro Hin. apply Hnot. now right.
    + intros Hnd Hndr r rep Hr Hin Hfalse.
      inversion Hnd as [|? ? Hnotin Hnd']; subst.
      destruct (string_dec (rxn_id r) (key a)) as [Heq | Hne].
      * assert (r = r0).
        { pose proof (get_by_id_unique _ r Hndr Hr) as Hu.
          rewrite Heq, Hget in Hu. now injection Hu. }
        subst r0. apply Hincl.
        rewrite <- (Hflag rep) in Hfalse. subst ok.
        subst self1. unfold unfixable_ids. simpl.
        rewrite map_app. apply in_or_app. right. simpl. left.
        rewrite entry_id. exact Hid.
      * destruct Hin as [Hin | Hin]; [congruence|].
        apply (Hlist Hnd') with (rep := rep).
        -- now rewrite Hids1.
        -- subst self1. simpl. apply store_other; [exact Hr|]. congruence.
        -- exact Hin.
        -- subst self1. simpl. exact Hfalse.
Qed.

End FixLoop.

Section FixPasses.
Import Cobra ModelBalancer SideSums.
Local Open Scope Q_scope.

Lemma adjust_id (met : Metabolite) (x : Q) (r : Reaction) :
  rxn_id (adjust met x r) = rxn_id r.
Proof. unfold adjust. now destruct (mem met (metabolites r)). Qed.

Lemma proton_step_id (ms : list Metabolite) (r : Reaction) (eb : Dict.t Q) :
  rxn_id (fst (proton_step ms (r, eb))) = rxn_id r.
Proof.
  unfold proton_step, fix_proton_balance.
  destruct (Dict.mem "H" eb && _); [|reflexivity].
  destruct (Num.ltb _ Num.tol); [reflexivity|].
  destruct (find_species _ _ _); simpl; [apply adjust_id | reflexivity].
Qed.

Lemma water_step_id (ms : list Metabolite) (r : Reaction) (eb : Dict.t Q) :
  rxn_id (fst (water_step ms (r, eb))) = rxn_id r.
Proof.
  unfold water_step, fix_water_balance.
  destruct (Dict.mem "O" eb && _); [|reflexivity].
  destruct (Num.ltb _ Num.tol); [reflexivity|].
  destruct (Num.gtb _ _); [reflexivity|].
  destruct (find_species _ _ _); simpl; [apply adjust_id | reflexivity].
Qed.

Lemma mass_attempt_id (ms : list Metabolite) (rep : BalanceReport)
    (r : Reaction) :
  rxn_id (snd (fst (balance_reaction_mass ms rep r))) = rxn_id r.
Proof.
  unfold balance_reaction_mass.
  destruct (_ || _); [reflexivity|].
  destruct (Num.ltb _ Num.tol); [reflexivity|].
  pose proof (proton_step_id ms r (calculate_mass_balance r)) as Hp.
  destruct (proton_step ms (r, calculate_mass_balance r)) as [r1 eb1].
  pose proof (water_step_id ms r1 eb1) as Hw.
  destruct (water_step ms (r1, eb1)) as [r2 eb2].
  simpl in Hp, Hw.
  destruct (Num.ltb _ Num.tol); simpl; congruence.
Qed.

Lemma mass_attempt_flag (ms : list Metabolite) (rep rep' : BalanceReport)
    (r : Reaction) :
  fst (fst (balance_reaction_mass ms rep r))
  = fst (fst (balance_reaction_mass ms rep' r)).
Proof.
  unfold balance_reaction_mass.
  destruct (_ || _); [reflexivity|].
  destruct (Num.ltb _ Num.tol); [reflexivity|].
  destruct (water_step ms _) as [r2 eb2].
  now destruct (Num.ltb _ Num.tol).
Qed.

Lemma mass_attempt_unfixable (ms : list Metabolite) (rep : BalanceReport)
    (r : Reaction) :
  unfixable (snd (balance_reaction_mass ms rep r)) = unfixable rep.
Proof.
  unfold balance_reaction_mass.
  destruct (_ || _); [reflexivity|].
  destruct (Num.ltb _ Num.tol); [reflexivity|].
  destruct (water_step ms _) as [r2 eb2].
  now destruct (Num.ltb _ Num.tol).
Qed.

Lemma charge_attempt_id (ms : list Metabolite) (rep : BalanceReport)
    (r : Reaction) :
  rxn_id (snd (fst (balance_reaction_charge ms rep r))) = rxn_id r.
Proof.
  unfold balance_reaction_charge.
  destruct (is_exchange_reaction r); [reflexivity|].
  destruct (Num.ltb _ Num.tol); [reflexivity|].
  destruct (find_species _ _ _); simpl; [apply adjust_id | reflexivity].
Qed.

Lemma charge_attempt_flag (ms : list Metabolite) (rep rep' : BalanceReport)
    (r : Reaction) :
  fst (fst (balance_reaction_charge ms rep r))
  = fst (fst (balance_reaction_charge ms rep' r)).
Proof.
  unfold balance_reaction_charge.
  destruct (is_exchange_reaction r); [reflexivity|].
  destruct (Num.ltb _ Num.tol); [reflexivity|].
  now destruct (find_species _ _ _).
Qed.

Lemma charge_attempt_unfixable (ms : list Metabolite) (rep : BalanceReport)
    (r : Reaction) :
  unfixable (snd (balance_reaction_charge ms rep r)) = unfixable rep.
Proof.
  unfold balance_reaction_charge.
  destruct (is_exchange_reaction r); [reflexivity|].
  destruct (Num.ltb _ Num.tol); [reflexivity|].
  now destruct (find_species _ _ _).
Qed.

(** What [analyze_balance] lists. *)
Lemma analyze_lists (rs : list Reaction) : forall rep,
  let rep' := fold_left analyze_one rs rep in
  mass_imbalanced rep'
    = (mass_imbalanced rep
       ++ map (fun r => (rxn_id r, calculate_mass_balance r))
            (filter mass_listed rs))%list
  /\ charge_imbalanced rep'
     = (charge_imbalanced rep
        ++ map (fun r => (rxn_id r, calculate_charge_balance r))
             (filter charge_listed rs))%list
  /\ unfixable rep' = unfixable rep
  /\ fixed_mass rep' = fixed_mass rep
  /\ fixed_charge rep' = fixed_charge rep.
Proof.
  induction rs as [|r tl IH]; intro rep; simpl.
  - now rewrite !app_nil_r.
  - destruct (IH (analyze_one rep r)) as [Hm [Hc [Hu [Hfm Hfc]]]].
    rewrite Hm, Hc, Hu, Hfm, Hfc. clear IH Hm Hc Hu Hfm Hfc.
    unfold analyze_one. fold (mass_listed r). fold (charge_listed r).
    destruct (mass_listed r); destruct (charge_listed r); simpl;
      rewrite <- ?app_assoc; simpl; repeat split; reflexivity.
Qed.

End FixPasses.

(** ** Reactions with a missing formula *)

Section MissingFormula.
Import Cobra.
Local Open Scope Q_scope.

Lemma unresolved_entry (r : Reaction) :
  SideSums.resolved r = false ->
  exists mc, In mc (stoich r)
             /\ truthy (ModelBalancer.get_metabolite_formula (fst mc)) = false.
Proof.
  unfold SideSums.resolved. induction (stoich r) as [|mc tl IH]; simpl.
  - discriminate.
  - destruct (truthy (ModelBalancer.get_metabolite_formula (fst mc))) eqn:E.
    + simpl. intro H. destruct (IH H) as [x [Hx Hf]].
      exists x. split; [now right | exact Hf].
    + intros _. exists mc. split; [now left | exact E].
Qed.

Lemma unresolved_has_no_formula (m : Metabolite) :
  truthy (ModelBalancer.get_metabolite_formula m) = false ->
  truthy (formula m) = false.
Proof.
  unfold ModelBalancer.get_metabolite_formula.
  destruct (truthy (formula m)) eqn:E; [|reflexivity].
  intro H. congruence.
Qed.

Lemma mass_loop_unknown (items : Stoich) : forall acc,
  forallb (fun mc => truthy (ModelBalancer.get_metabolite_formula (fst mc)))
    items = false ->
  ModelBalancer.mass_loop items acc = ModelBalancer.unknown.
Proof.
  induction items as [|[m c] tl IH]; intros acc H; simpl in *.
  - discriminate.
  - destruct (truthy (ModelBalancer.get_metabolite_formula m)); simpl in *.
    + now apply IH.
    + reflexivity.
Qed.

(** [side] of balance_reactions.py keeps what is listed and lists every
    metabolite without formula that it visits. *)
Lemma side_keeps (r : Reaction) (mets : list Metabolite) :
  forall st x, In x (snd st) ->
               In x (snd (BalanceReactions.side r mets st)).
Proof.
  induction mets as [|m tl IH]; intros [[els chg] missing] x Hx; simpl.
  - exact Hx.
  - destruct (negb (truthy (formula m))); apply IH; simpl.
    + apply in_or_app. now left.
    + exact Hx.
Qed.

Lemma side_lists (r : Reaction) (mets : list Metabolite) (m : Metabolite) :
  In m mets -> truthy (formula m) = false ->
  forall st, In (met_id m) (snd (BalanceReactions.side r mets st)).
Proof.
  intros Hin Hf. induction mets as [|m0 tl IH]; [contradiction|].
  intros [[els chg] missing]. simpl.
  destruct Hin as [-> | Hin].
  - rewrite Hf. simpl. apply side_keeps. simpl.
    apply in_or_app. right. now left.
  - destruct (negb (truthy (formula m0))); now apply IH.
Qed.

Lemma on_one_side (r : Reaction) (mc : Metabolite * Q) :
  In mc (stoich r) -> In (fst mc) (reactants r) \/ In (fst mc) (products r).
Proof.
  intro H. unfold reactants, products.
  destruct (Qle_bool 0 (snd mc)) eqn:E.
  - right. apply in_map. apply filter_In. split; assumption.
  - left. apply in_map. apply filter_In. split; [assumption|].
    unfold Num.ltb. now rewrite E.
Qed.

Lemma analysis_lists_missing (r : Reaction) (mc : Metabolite * Q) :
  In mc (stoich r) -> truthy (formula (fst mc)) = false ->
  In (met_id (fst mc))
     (BalanceReactions.missing_formulas
        (BalanceReactions.analyze_reaction_balance r)).
Proof.
  intros Hin Hf. unfold BalanceReactions.analyze_reaction_balance.
  destruct (on_one_side r mc Hin) as [Hside | Hside].
  - pose proof (side_lists r (reactants r) (fst mc) Hside Hf ([], 0, [])) as H1.
    destruct (BalanceReactions.side r (reactants r) ([], 0, []))
      as [[re rc] m1].
    simpl in H1.
    pose proof (side_keeps r (products r) ([], 0, m1) _ H1) as H2.
    destruct (BalanceReactions.side r (products r) ([], 0, m1))
      as [[pe pc] m2].
    exact H2.
  - destruct (BalanceReactions.side r (reactants r) ([], 0, []))
      as [[re rc] m1].
    pose proof (side_lists r (products r) (fst mc) Hside Hf ([], 0, m1)) as H2.
    destruct (BalanceReactions.side r (products r) ([], 0, m1))
      as [[pe pc] m2].
    exact H2.
Qed.

End MissingFormula.

Section FixLoopLists.
Import Cobra ModelBalancer.

Context {A : Type}.
Variable key : A -> string.
Variable attempt :
  list Metabolite -> BalanceReport -> Reaction -> bool * Reaction * BalanceReport.
Variable entry : Reaction -> A -> Unfixable.
Variable body : A -> Balancer -> option Balancer.

Hypothesis body_eq : forall a self,
  body a self =
  match get_by_id (model_reactions (model self)) (key a) with
  | None => None
  | Some reaction =>
      let '(ok, reaction', report') :=
        attempt (model_metabolites (model self)) (balance_report self)
          reaction in
      Some (with_reaction reaction'
              (if ok then report' else add_unfixable (entry reaction' a) report')
              self)
  end.
Hypothesis attempt_lists : forall ms rep r,
  mass_imbalanced (snd (attempt ms rep r)) = mass_imbalanced rep
  /\ charge_imbalanced (snd (attempt ms rep r)) = charge_imbalanced rep.

Lemma for_each_keeps_lists (infos : list A) : forall self self',
  for_each body infos self = Some self' ->
  mass_imbalanced (balance_report self') = mass_imbalanced (balance_report self)
  /\ charge_imbalanced (balance_report self')
     = charge_imbalanced (balance_report self).
Proof.
  induction infos as [|a tl IH]; intros self self'; simpl.
  - intro H. injection H as <-. split; reflexivity.
  - rewrite body_eq.
    destruct (get_by_id _ _) as [r0|]; [|discriminate].
    pose proof (attempt_lists (model_metabolites (model self))
                  (balance_report self) r0) as [Hm Hc].
    destruct (attempt _ _ r0) as [[ok r0'] rep']. simpl in Hm, Hc.
    intro H. apply IH in H. destruct H as [Hm' Hc'].
    rewrite Hm', Hc'. destruct ok; simpl; split; assumption.
Qed.

End FixLoopLists.

Section Passes.
Import Cobra ModelBalancer SideSums.
Local Open Scope Q_scope.

Lemma mass_attempt_lists (ms : list Metabolite) (rep : BalanceReport)
    (r : Reaction) :
  mass_imbalanced (snd (balance_reaction_mass ms rep r)) = mass_imbalanced rep
  /\ charge_imbalanced (snd (balance_reaction_mass ms rep r))
     = charge_imbalanced rep.
Proof.
  unfold balance_reaction_mass.
  destruct (_ || _); [split; reflexivity|].
  destruct (Num.ltb _ Num.tol); [split; reflexivity|].
  destruct (water_step ms _) as [r2 eb2].
  destruct (Num.ltb _ Num.tol); split; reflexivity.
Qed.

Lemma nodup_ids_inj (rs : list Reaction) (a b : Reaction) :
  NoDup (map rxn_id rs) -> In a rs -> In b rs -> rxn_id a = rxn_id b -> a = b.
Proof.
  intros Hnd Ha Hb Hid.
  pose proof (get_by_id_unique rs a Hnd Ha) as H1.
  pose proof (get_by_id_unique rs b Hnd Hb) as H2.
  rewrite Hid in H1. congruence.
Qed.

Lemma listed_keys {B : Type} (f : Reaction -> bool) (g : Reaction -> B)
    (rs : list Reaction) :
  map fst (map (fun r => (rxn_id r, g r)) (filter f rs))
  = map rxn_id (filter f rs).
Proof. rewrite map_map. reflexivity. Qed.

Lemma filter_ids_incl (f : Reaction -> bool) (rs : list Reaction) (id : string) :
  In id (map rxn_id (filter f rs)) -> In id (map rxn_id rs).
Proof.
  intro H. apply in_map_iff in H. destruct H as [r [Hid Hr]].
  apply filter_In in Hr. apply in_map_iff. exists r. tauto.
Qed.

Variable m : Model.
Hypothesis ids_unique : NoDup (map rxn_id (model_reactions m)).

Let self0 := analyze_balance (init m).

Lemma analyzed_mass_list :
  mass_imbalanced (balance_report self0)
  = map (fun r => (rxn_id r, calculate_mass_balance r))
      (filter mass_listed (model_reactions m)).
Proof.
  unfold self0, analyze_balance. simpl.
  now destruct (analyze_lists (model_reactions m)
                  (empty_report (length (model_reactions m)))) as [-> _].
Qed.

Lemma analyzed_charge_list :
  charge_imbalanced (balance_report self0)
  = map (fun r => (rxn_id r, calculate_charge_balance r))
      (filter charge_listed (model_reactions m)).
Proof.
  unfold self0, analyze_balance. simpl.
  now destruct (analyze_lists (model_reactions m)
                  (empty_report (length (model_reactions m)))) as [_ [-> _]].
Qed.

(** The two passes run to their end; what each leaves behind. *)
Lemma passes_complete :
  exists self1 self2,
    fix_mass_pass self0 = Some self1
    /\ fix_charge_pass self1 = Some self2
    /\ run_balancing m = Some self2
    /\ map rxn_id (model_reactions (model self1))
       = map rxn_id (model_reactions m)
    /\ (forall r, In r (model_reactions m) -> mass_listed r = false ->
                  In r (model_reactions (model self1)))
    /\ (forall r rep,
          In r (model_reactions m) -> mass_listed r = true ->
          fst (fst (balance_reaction_mass (model_metabolites m) rep r)) = false ->
          In (rxn_id r) (unfixable_ids self2))
    /\ (forall r1 rep,
          In r1 (model_reactions (model self1)) ->
          In (rxn_id r1) (map fst (charge_imbalanced (balance_report self0))) ->
          fst (fst (balance_reaction_charge (model_metabolites m) rep r1)) = false ->
          In (rxn_id r1) (unfixable_ids self2)).
Proof.
  destruct (for_each_fix fst balance_reaction_mass mass_entry fix_mass_body
              (fun a self => eq_refl) mass_attempt_id mass_attempt_flag
              mass_attempt_unfixable (fun r a => eq_refl)
              (mass_imbalanced (balance_report self0)) self0)
    as [self1 [Hrun1 [Hmets1 [Hids1 [Hincl1 [Hkeep1 Hlist1]]]]]].
  { intros a Ha. rewrite analyzed_mass_list in Ha.
    apply (in_map fst) in Ha. rewrite listed_keys in Ha.
    now apply filter_ids_incl in Ha. }
  destruct (for_each_keeps_lists fst balance_reaction_mass mass_entry
              fix_mass_body (fun a self => eq_refl) mass_attempt_lists
              _ _ _ Hrun1) as [_ Hcl].
  destruct (for_each_fix fst balance_reaction_charge charge_entry
              fix_charge_body (fun a self => eq_refl) charge_attempt_id
              charge_attempt_flag charge_attempt_unfixable
              (fun r a => eq_refl)
              (charge_imbalanced (balance_report self1)) self1)
    as [self2 [Hrun2 [Hmets2 [Hids2 [Hincl2 [Hkeep2 Hlist2]]]]]].
  { intros a Ha. rewrite Hcl, analyzed_charge_list in Ha.
    apply (in_map fst) in Ha. rewrite listed_keys in Ha.
    apply filter_ids_incl in Ha. now rewrite Hids1. }
  exists self1, self2.
  split; [exact Hrun1|]. split; [exact Hrun2|].
  split.
  { unfold run_balancing, fix_all_reactions. fold self0.
    unfold fix_mass_pass in Hrun1. unfold fix_mass_pass. now rewrite Hrun1. }
  split; [exact Hids1|].
  split.
  { intros r Hr Hnl. apply Hkeep1; [exact Hr|].
    rewrite analyzed_mass_list, listed_keys. intro Hin.
    apply in_map_iff in Hin. destruct Hin as [r' [Hid Hr']].
    apply filter_In in Hr'. destruct Hr' as [Hr' Hl].
    assert (r' = r) by (eapply nodup_ids_inj; eauto). subst r'. congruence. }
  split.
  { intros r rep Hr Hl Hfalse. apply Hincl2.
    apply (Hlist1) with (rep := rep).
    - rewrite analyzed_mass_list, listed_keys. now apply nodup_filter_ids.
    - exact ids_unique.
    - exact Hr.
    - rewrite analyzed_mass_list, listed_keys. apply in_map.
      apply filter_In. split; assumption.
    - exact Hfalse. }
  intros r1 rep Hr1 Hin Hfalse.
  apply (Hlist2) with (rep := rep).
  - rewrite Hcl, analyzed_charge_list, listed_keys. now apply nodup_filter_ids.
  - rewrite Hids1. exact ids_unique.
  - exact Hr1.
  - now rewrite Hcl.
  - rewrite Hmets1. exact Hfalse.
Qed.

End Passes.

(** ** The report of balance_reactions.py *)

Section Details.
Import Cobra BalanceReactions.

Let record (d : Dict.t Balance) (r : Reaction) : Dict.t Balance :=
  Dict.set (rxn_id r) (analyze_reaction_balance r) d.

Lemma details_fold (rs : list Reaction) : forall results,
  reaction_details (fold_left analyze_model_step rs results)
  = fold_left record rs (reaction_details results).
Proof.
  induction rs as [|r tl IH]; intro results; simpl; [reflexivity|].
  now rewrite IH.
Qed.

Lemma record_others (rs : list Reaction) (id : string) : forall d,
  ~ In id (map rxn_id rs) ->
  Dict.get id (fold_left record rs d) = Dict.get id d.
Proof.
  induction rs as [|r tl IH]; intros d H; simpl; [reflexivity|].
  rewrite IH.
  - unfold record, Dict.set. apply get_upsert_other.
    intro Heq. apply H. left. now symmetry.
  - intro Hin. apply H. now right.
Qed.

Lemma record_found (rs : list Reaction) (r : Reaction) : forall d,
  NoDup (map rxn_id rs) -> In r rs ->
  Dict.get (rxn_id r) (fold_left record rs d)
  = Some (analyze_reaction_balance r).
Proof.
  induction rs as [|r0 tl IH]; intros d Hnd Hin; [contradiction|].
  simpl in Hnd. inversion Hnd as [|? ? Hnotin Hnd']; subst. simpl.
  destruct Hin as [-> | Hin].
  - rewrite (record_others tl (rxn_id r) _ Hnotin).
    unfold record, Dict.set. rewrite get_upsert_same.
    now destruct (Dict.get (rxn_id r) d).
  - now apply IH.
Qed.

Lemma details_complete (m : Model) (r : Reaction) :
  NoDup (map rxn_id (model_reactions m)) -> In r (model_reactions m) ->
  Dict.get (rxn_id r) (reaction_details (analyze_model_balance m))
  = Some (analyze_reaction_balance r).
Proof.
  intros Hnd Hin. unfold analyze_model_balance.
  rewrite details_fold. now apply record_found.
Qed.

End Details.

(** C4 (as amended).  Let a reaction of the model have a metabolite for
    which no formula can be resolved.  Then [calculate_mass_balance]
    returns for it the single entry unknown = 1 and no element value;
    [analyze_balance] does not list it as mass-imbalanced; the mass-fix
    pass of [fix_all_reactions] runs to its end and leaves the reaction as
    it was; the whole run completes; and the analysis of
    balance_reactions.py lists the formula-less metabolite in the
    reaction's [missing_formulas]. *)
Theorem missing_formula_sets_reaction_aside (m : Cobra.Model) (r : Cobra.Reaction) :
  NoDup (map Cobra.rxn_id (Cobra.model_reactions m)) ->
  In r (Cobra.model_reactions m) ->
  SideSums.resolved r = false ->
  ModelBalancer.calculate_mass_balance r = [("unknown", 1%Q)]
  /\ ~ In (Cobra.rxn_id r)
         (map fst (ModelBalancer.mass_imbalanced
                     (ModelBalancer.balance_report
                        (ModelBalancer.analyze_balance (ModelBalancer.init m)))))
  /\ (exists self1,
        ModelBalancer.fix_mass_pass
          (ModelBalancer.analyze_balance (ModelBalancer.init m)) = Some self1
        /\ In r (Cobra.model_reactions (ModelBalancer.model self1)))
  /\ (exists self2, ModelBalancer.run_balancing m = Some self2)
  /\ BalanceReactions.missing_formulas
       (BalanceReactions.analyze_reaction_balance r) <> [].
Proof.
  intros Hnd Hin Hres.
  assert (Hunk : ModelBalancer.calculate_mass_balance r = ModelBalancer.unknown).
  { unfold ModelBalancer.calculate_mass_balance. now apply mass_loop_unknown. }
  assert (Hnl : SideSums.mass_listed r = false).
  { unfold SideSums.mass_listed. now rewrite Hunk. }
  destruct (passes_complete m Hnd)
    as [self1 [self2 [Hrun1 [_ [Hrun [_ [Hkeep _]]]]]]].
  split; [exact Hunk|]. split.
  { rewrite analyzed_mass_list, listed_keys. intro H.
    apply in_map_iff in H. destruct H as [r' [Hid Hr']].
    apply filter_In in Hr'. destruct Hr' as [Hr' Hl].
    assert (r' = r) by (eapply nodup_ids_inj; eauto). subst r'. congruence. }
  split; [exists self1; split; [exact Hrun1 | now apply Hkeep]|].
  split; [exists self2; exact Hrun|].
  destruct (unresolved_entry r Hres) as [mc [Hmc Hf]].
  apply unresolved_has_no_formula in Hf.
  pose proof (analysis_lists_missing r mc Hmc Hf) as Hl.
  intro Hnil. rewrite Hnil in Hl. contradiction.
Qed.

Lemma missing_formula_sets_reaction_aside_witness :
  ModelBalancer.calculate_mass_balance Samples.r_unknown_charged
  = [("unknown", 1%Q)].
Proof.
  refine (proj1 (missing_formula_sets_reaction_aside
                   (Samples.model_of Samples.mets_with_proton
                      [Samples.r_unknown_charged])
                   Samples.r_unknown_charged _ _ _)).
  - repeat constructor. intros [].
  - now left.
  - reflexivity.
Defined.

(** C4 as stated fails on "no corrective edit": the reaction U(-1) -> C
    has a metabolite without formula, and the run of [ModelBalancer]
    enters a proton into it in the charge pass and reports it as fixed. *)
Lemma charge_pass_edits_missing_formula_reaction :
  SideSums.resolved Samples.r_unknown_charged = false
  /\ match ModelBalancer.run_balancing
             (Samples.model_of Samples.mets_with_proton
                [Samples.r_unknown_charged]) with
     | Some self =>
         Cobra.model_reactions (ModelBalancer.model self)
         = [Samples.reaction "R_unknown_charged"
              [(Samples.unknown_anion, (-1)%Q); (Samples.carbon, 1%Q);
               (Samples.proton_c, (-1)%Q)]]
         /\ ModelBalancer.fixed_charge (ModelBalancer.balance_report self)
            = ["R_unknown_charged"]
     | None => False
     end.
Proof.
  split; [reflexivity|]. vm_compute. split; reflexivity.
Qed.

(** The analysis of balance_reactions.py goes on after a missing formula:
    for U + CH4 -> C it lists U as missing and still reports the hydrogen
    imbalance 4 of the metabolites that have a formula. *)
Lemma analysis_goes_on_after_missing_formula :
  let b := BalanceReactions.analyze_reaction_balance
             (Samples.reaction "R_partial"
                [(Samples.unknown_neutral, (-1)%Q); (Samples.methane, (-1)%Q);
                 (Samples.carbon, 1%Q)]) in
  BalanceReactions.missing_formulas b = ["V_c0"]
  /\ BalanceReactions.element_imbalances b = [("H", 4%Q)]
  /\ BalanceReactions.is_mass_balanced b = false.
Proof.
  vm_compute. repeat split; reflexivity.
Qed.

(** ** What the reports enumerate *)

(** C9 (as amended).  In a model with pairwise distinct reaction ids:
    the report of [analyze_model_balance] holds, under each reaction's id,
    that reaction's analysis (with its list of missing formulas); both
    passes of [fix_all_reactions] run to their end, and the report of
    [ModelBalancer] lists under [unfixable] every reaction listed as
    mass-imbalanced for which [balance_reaction_mass] returns false and
    every reaction listed as charge-imbalanced for which
    [balance_reaction_charge], run on the reaction as the mass pass left it,
    returns false. *)
Theorem reports_enumerate_failed_attempts (m : Cobra.Model) :
  NoDup (map Cobra.rxn_id (Cobra.model_reactions m)) ->
  (forall r, In r (Cobra.model_reactions m) ->
     Dict.get (Cobra.rxn_id r)
       (BalanceReactions.reaction_details (BalanceReactions.analyze_model_balance m))
     = Some (BalanceReactions.analyze_reaction_balance r))
  /\ exists self1 self2,
       ModelBalancer.fix_mass_pass
         (ModelBalancer.analyze_balance (ModelBalancer.init m)) = Some self1
       /\ ModelBalancer.fix_charge_pass self1 = Some self2
       /\ ModelBalancer.run_balancing m = Some self2
       /\ (forall r report,
             In r (Cobra.model_reactions m) ->
             SideSums.mass_listed r = true ->
             fst (fst (ModelBalancer.balance_reaction_mass
                         (Cobra.model_metabolites m) report r)) = false ->
             In (Cobra.rxn_id r) (SideSums.unfixable_ids self2))
       /\ (forall r1 report,
             In r1 (Cobra.model_reactions (ModelBalancer.model self1)) ->
             In (Cobra.rxn_id r1)
                (map fst (ModelBalancer.charge_imbalanced
                            (ModelBalancer.balance_report
                               (ModelBalancer.analyze_balance
                                  (ModelBalancer.init m))))) ->
             fst (fst (ModelBalancer.balance_reaction_charge
                         (Cobra.model_metabolites m) report r1)) = false ->
             In (Cobra.rxn_id r1) (SideSums.unfixable_ids self2)).
Proof.
  intro Hnd. split.
  - intros r Hr. now apply details_complete.
  - destruct (passes_complete m Hnd)
      as [self1 [self2 [Hrun1 [Hrun2 [Hrun [_ [_ [Hmass Hcharge]]]]]]]].
    exists self1, self2. repeat split; assumption.
Qed.

Lemma reports_enumerate_failed_attempts_witness :
  Dict.get "R_carbon"
    (BalanceReactions.reaction_details
       (BalanceReactions.analyze_model_balance
          (Samples.model_of Samples.mets_plain [Samples.r_carbon])))
  = Some (BalanceReactions.analyze_reaction_balance Samples.r_carbon).
Proof.
  refine (proj1 (reports_enumerate_failed_attempts
                   (Samples.model_of Samples.mets_plain [Samples.r_carbon]) _)
            Samples.r_carbon _).
  - repeat constructor. intros [].
  - now left.
Defined.

(** C9 as stated fails for the report of [ModelBalancer]: the reaction
    V -> C has a metabolite without formula, so its mass balance is
    indeterminate, and after the run its id is in none of the lists of
    the report. *)
Lemma indeterminate_reaction_absent_from_report :
  ModelBalancer.calculate_mass_balance Samples.r_unknown_neutral
  = [("unknown", 1%Q)]
  /\ match ModelBalancer.run_balancing
             (Samples.model_of Samples.mets_with_proton
                [Samples.r_unknown_neutral]) with
     | Some self =>
         ModelBalancer.balance_report self
         = {| ModelBalancer.total_reactions := 1;
              ModelBalancer.mass_imbalanced := [];
              ModelBalancer.charge_imbalanced := [];
              ModelBalancer.fixed_mass := [];
              ModelBalancer.fixed_charge := [];
              ModelBalancer.unfixable := [] |}
     | None => False
     end.
Proof.
  split; reflexivity.
Qed.

(** ** The standalone proton fixer *)

Section ProtonLoop.
Import Cobra FixProton.
Local Open Scope Q_scope.

Variable proton_met : Metabolite.
Variable dry_run : bool.

Lemma fix_one_changes (r : Reaction) :
  fix_one proton_met dry_run r <> r ->
  ~ h_imbalance (analyze_h_balance r) == 0
  /\ Qabs (h_imbalance (analyze_h_balance r)) <= 3.
Proof.
  unfold fix_one. destruct (negb _); [intro H; now elim H|].
  destruct (analyze_h_balance_fields r) as [-> _].
  destruct (Num.gtb (Qabs (h_imbalance (analyze_h_balance r))) 0) eqn:Eg;
    [|intro H; now elim H].
  destruct (Qle_bool (Qabs (h_imbalance (analyze_h_balance r))) 3) eqn:El;
    [|intro H; now elim H].
  intros _. apply gtb_gt in Eg. apply Qle_bool_iff in El.
  split; [|exact El].
  intro Hz. rewrite Hz in Eg. revert Eg. apply Qle_not_lt. discriminate.
Qed.

Lemma large_imbalance_cannot_fix (r : Reaction) :
  3 < Qabs (h_imbalance (analyze_h_balance r)) ->
  can_fix_with_proton (analyze_h_balance r) = false
  /\ Num.gtb (Qabs (h_imbalance (analyze_h_balance r))) 3 = true.
Proof.
  intro H. destruct (analyze_h_balance_fields r) as [-> _]. split.
  - apply andb_false_iff. right.
    destruct (Qle_bool _ 3) eqn:E; [|reflexivity].
    apply Qle_bool_iff in E. exfalso. revert H. now apply Qle_not_lt.
  - now apply gtb_gt.
Qed.

Lemma fix_one_large (r : Reaction) :
  3 < Qabs (h_imbalance (analyze_h_balance r)) ->
  fix_one proton_met dry_run r = r.
Proof.
  intro H. unfold fix_one. destruct (negb _); [reflexivity|].
  destruct (large_imbalance_cannot_fix r H) as [-> _]. reflexivity.
Qed.

Lemma loop_body_visited (st : Loop) (r : Reaction) :
  visited (loop_body proton_met dry_run st r)
  = (visited st ++ [fix_one proton_met dry_run r])%list.
Proof.
  unfold loop_body, fix_one.
  destruct (negb _); [reflexivity|].
  destruct (can_fix_with_proton _ && _); [reflexivity|].
  now destruct (Num.gtb _ 3).
Qed.

Lemma loop_body_remaining (st : Loop) (r : Reaction) :
  incl (remaining_imbalanced st)
    (remaining_imbalanced (loop_body proton_met dry_run st r))
  /\ (missing_formulas (analyze_h_balance r) = [] ->
      3 < Qabs (h_imbalance (analyze_h_balance r)) ->
      In (rxn_id r, h_imbalance (analyze_h_balance r))
        (remaining_imbalanced (loop_body proton_met dry_run st r))).
Proof.
  unfold loop_body. split.
  - destruct (negb _); [apply incl_refl|].
    destruct (can_fix_with_proton _ && _); [apply incl_refl|].
    destruct (Num.gtb _ 3); simpl; [apply incl_appl|]; apply incl_refl.
  - intros Hm Hl. rewrite Hm. simpl.
    destruct (large_imbalance_cannot_fix r Hl) as [-> ->]. simpl.
    apply in_or_app. right. now left.
Qed.

Lemma loop_spec (rs : list Reaction) : forall st,
  let st' := fold_left (loop_body proton_met dry_run) rs st in
  visited st' = (visited st ++ map (fix_one proton_met dry_run) rs)%list
  /\ incl (remaining_imbalanced st) (remaining_imbalanced st')
  /\ (forall r, In r rs ->
        missing_formulas (analyze_h_balance r) = [] ->
        3 < Qabs (h_imbalance (analyze_h_balance r)) ->
        In (rxn_id r, h_imbalance (analyze_h_balance r))
          (remaining_imbalanced st')).
Proof.
  induction rs as [|r tl IH]; intro st; simpl.
  - rewrite app_nil_r. repeat split; [apply incl_refl | intros r []].
  - destruct (IH (loop_body proton_met dry_run st r)) as [Hv [Hi Hl]].
    destruct (loop_body_remaining st r) as [Hi0 Hl0].
    split; [|split].
    + rewrite Hv, loop_body_visited, <- app_assoc. reflexivity.
    + eapply incl_tran; eassumption.
    + intros r' [<- | Hr'] Hm Hbig.
      * apply Hi. now apply Hl0.
      * now apply Hl.
Qed.

End ProtonLoop.

(** C10 (as amended).  When the model holds a species that
    [find_proton_metabolite] accepts, [fix_proton_balance] visits every
    reaction once; it changes a reaction only when the reaction's hydrogen
    imbalance is different from zero and at most 3 in absolute value; and
    every reaction with all formulas present whose hydrogen imbalance
    exceeds 3 in absolute value is left as it was and entered, with that
    imbalance, into [remaining_imbalanced]. *)
Theorem proton_fixer_adjusts_small_imbalances_only
    (m m' : Cobra.Model) (dry_run : bool) (proton_met : Cobra.Metabolite)
    (fixes : nat) (remaining : list (string * Q)) :
  FixProton.find_proton_metabolite m = Some proton_met ->
  FixProton.fix_proton_balance m dry_run = (m', fixes, remaining) ->
  Cobra.model_reactions m'
  = map (FixProton.fix_one proton_met dry_run) (Cobra.model_reactions m)
  /\ forall r, In r (Cobra.model_reactions m) ->
       (FixProton.fix_one proton_met dry_run r <> r ->
        ~ (FixProton.h_imbalance (FixProton.analyze_h_balance r) == 0)%Q
        /\ (Qabs (FixProton.h_imbalance (FixProton.analyze_h_balance r)) <= 3)%Q)
       /\ (FixProton.missing_formulas (FixProton.analyze_h_balance r) = [] ->
           (3 < Qabs (FixProton.h_imbalance (FixProton.analyze_h_balance r)))%Q ->
           FixProton.fix_one proton_met dry_run r = r
           /\ In (Cobra.rxn_id r,
                  FixProton.h_imbalance (FixProton.analyze_h_balance r))
                remaining).
Proof.
  intros Hfind. unfold FixProton.fix_proton_balance. rewrite Hfind.
  intro H. injection H as <- _ <-.
  destruct (loop_spec proton_met dry_run (Cobra.model_reactions m)
              {| FixProton.visited := []; FixProton.fixes_made := 0;
                 FixProton.remaining_imbalanced := [] |}) as [Hv [_ Hl]].
  split.
  - simpl. exact Hv.
  - intros r Hr. split.
    + apply fix_one_changes.
    + intros Hm Hbig. split; [now apply fix_one_large | now apply Hl].
Qed.

Lemma proton_fixer_adjusts_small_imbalances_only_witness :
  Cobra.model_reactions
    (fst (fst (FixProton.fix_proton_balance
                 (Samples.model_of Samples.mets_with_proton [Samples.r_methane])
                 false)))
  = map (FixProton.fix_one Samples.proton_c false) [Samples.r_methane].
Proof.
  refine (proj1 (proton_fixer_adjusts_small_imbalances_only
                   (Samples.model_of Samples.mets_with_proton [Samples.r_methane])
                   _ false Samples.proton_c _ _ _ _)).
  - reflexivity.
  - vm_compute. reflexivity.
Defined.

(** C10 as stated fails on "is listed": the model below has no species
    that [find_proton_metabolite] accepts; its reaction CH4 -> C has all
    formulas and the hydrogen imbalance 4, and [fix_proton_balance]
    returns with an empty list [remaining_imbalanced]. *)
Lemma large_imbalance_unlisted_without_proton :
  FixProton.find_proton_metabolite
    (Samples.model_of Samples.mets_plain [Samples.r_methane]) = None
  /\ FixProton.missing_formulas (FixProton.analyze_h_balance Samples.r_methane) = []
  /\ (FixProton.h_imbalance (FixProton.analyze_h_balance Samples.r_methane) == 4)%Q
  /\ FixProton.fix_proton_balance
       (Samples.model_of Samples.mets_plain [Samples.r_methane]) false
     = (Samples.model_of Samples.mets_plain [Samples.r_methane], 0%nat, []).
Proof.
  repeat split; reflexivity.
Qed.

(** ** The charge suffix in the parser of the standalone scripts *)

Section ChargeSuffix.
Import PyStr Formula.

Variable sign : ascii.
Variable digits : string.
Hypothesis sign_ok : is_sign sign = true.
Hypothesis digits_ok : all_digits digits = true.

Lemma sign_not_digit : is_digit sign = false.
Proof.
  unfold is_sign in sign_ok. apply orb_true_iff in sign_ok.
  destruct sign_ok as [H | H]; apply Ascii.eqb_eq in H; subst sign; reflexivity.
Qed.

Lemma sign_not_newline : Ascii.eqb sign newline = false.
Proof.
  unfold is_sign in sign_ok. apply orb_true_iff in sign_ok.
  destruct sign_ok as [H | H]; apply Ascii.eqb_eq in H; subst sign; reflexivity.
Qed.

Lemma sign_not_upper : is_upper sign = false.
Proof.
  unfold is_sign in sign_ok. apply orb_true_iff in sign_ok.
  destruct sign_ok as [H | H]; apply Ascii.eqb_eq in H; subst sign; reflexivity.
Qed.

Lemma drop_all_digits : drop_digits digits = EmptyString.
Proof.
  revert digits_ok. induction digits as [|c tl IH]; simpl; [reflexivity|].
  intro H. apply andb_true_iff in H. destruct H as [Hc Htl].
  rewrite Hc. now apply IH.
Qed.

(** No position before the suffix is matched by the charge pattern. *)
Lemma not_at_dollar_before (body : string) :
  at_dollar (drop_digits (body ++ String sign digits)) = false.
Proof.
  induction body as [|c tl IH]; simpl.
  - rewrite sign_not_digit. destruct digits; simpl.
    + apply sign_not_newline.
    + reflexivity.
  - destruct (is_digit c); [exact IH|].
    destruct tl; simpl; reflexivity.
Qed.

Lemma strip_charge_suffix (body : string) :
  strip_charge (body ++ String sign digits) = body.
Proof.
  induction body as [|c tl IH]; simpl.
  - rewrite sign_ok, drop_all_digits. reflexivity.
  - rewrite not_at_dollar_before, andb_false_r. now rewrite IH.
Qed.

Lemma lower_keeps_sign (body : string) :
  existsb_string is_sign (lower (body ++ String sign digits)) = true.
Proof.
  induction body as [|c tl IH]; simpl.
  - unfold lower_char. rewrite sign_not_upper, sign_ok. reflexivity.
  - rewrite IH. apply orb_true_r.
Qed.

(** The parser of balance_reactions.py, fix_proton_balance.py and
    fix_hydrogen_balance.py reads a formula that ends in a sign and
    digits as it reads the formula without them. *)
Lemma parse_formula_strips_charge (body : string) :
  parse_formula (Some (body ++ String sign digits))
  = accumulate (findall body) [].
Proof.
  unfold parse_formula.
  assert (Hne : String.eqb (body ++ String sign digits) "" = false)
    by (destruct body; reflexivity).
  assert (Hnone : String.eqb (lower (body ++ String sign digits)) "none" = false).
  { destruct (String.eqb _ "none") eqn:E; [|reflexivity].
    apply String.eqb_eq in E. pose proof (lower_keeps_sign body) as H.
    rewrite E in H. discriminate. }
  assert (Hnull : String.eqb (lower (body ++ String sign digits)) "null" = false).
  { destruct (String.eqb _ "null") eqn:E; [|reflexivity].
    apply String.eqb_eq in E. pose proof (lower_keeps_sign body) as H.
    rewrite E in H. discriminate. }
  rewrite Hne, Hnone, Hnull. simpl. now rewrite strip_charge_suffix.
Qed.

End ChargeSuffix.

(** ** The standalone water fixer *)

Section WaterFixer.
Import Cobra FixHydrogen.
Local Open Scope Q_scope.

Lemma analyze_h_o_balance_fields (r : Reaction) :
  can_fix_with_water (analyze_h_o_balance r)
  = Qeq_bool (h_imbalance (analyze_h_o_balance r))
      (2 * o_imbalance (analyze_h_o_balance r))
    && Num.gtb (Qabs (h_imbalance (analyze_h_o_balance r))) 0.
Proof.
  unfold analyze_h_o_balance.
  destruct (side_ho r (reactants r) (0, 0, [])) as [[rh ro] m1].
  destruct (side_ho r (products r) (0, 0, m1)) as [[ph po] m2].
  reflexivity.
Qed.

(** fix_hydrogen_balance.py edits a reaction only when its hydrogen
    imbalance is exactly twice its oxygen imbalance and not zero. *)
Lemma standalone_water_needs_exact_ratio (water_met : Metabolite)
    (dry_run : bool) (r : Reaction) :
  fix_one water_met dry_run r <> r ->
  h_imbalance (analyze_h_o_balance r) == 2 * o_imbalance (analyze_h_o_balance r)
  /\ ~ h_imbalance (analyze_h_o_balance r) == 0.
Proof.
  unfold fix_one. destruct (negb _); [intro H; now elim H|].
  rewrite analyze_h_o_balance_fields.
  destruct (Qeq_bool _ _) eqn:Ee; [|intro H; now elim H].
  destruct (Num.gtb (Qabs (h_imbalance (analyze_h_o_balance r))) 0) eqn:Eg;
    [|intro H; now elim H].
  intros _. apply Qeq_bool_iff in Ee. apply gtb_gt in Eg.
  split; [exact Ee|].
  intro Hz. rewrite Hz in Eg. revert Eg. apply Qle_not_lt. discriminate.
Qed.

End WaterFixer.

(** * Further properties of the scripts *)

(** ** The two formula parsers *)

Section ParserFacts.
Import PyStr Formula Notions.

Lemma remove_char_absent (c : ascii) (s : string) :
  existsb_string (Ascii.eqb c) s = false -> remove_char c s = s.
Proof.
  induction s as [|a tl IH]; simpl; [reflexivity|].
  intro H. apply orb_false_iff in H. destruct H as [Ha Htl].
  rewrite Ascii.eqb_sym in Ha. rewrite Ha. now rewrite IH.
Qed.

Lemma sign_free_chars (s : string) :
  sign_free s = true ->
  existsb_string (Ascii.eqb "+"%char) s = false
  /\ existsb_string (Ascii.eqb "-"%char) s = false.
Proof.
  unfold sign_free. rewrite negb_true_iff.
  induction s as [|a tl IH]; cbn [existsb_string]; [split; reflexivity|].
  intro H. apply orb_false_iff in H. destruct H as [Ha Htl].
  unfold is_sign in Ha. apply orb_false_iff in Ha. destruct Ha as [Hp Hm].
  destruct (IH Htl) as [IHp IHm].
  rewrite (Ascii.eqb_sym "+"%char a), (Ascii.eqb_sym "-"%char a), Hp, Hm.
  now split.
Qed.

Lemma strip_charge_sign_free (s : string) :
  sign_free s = true -> strip_charge s = s.
Proof.
  unfold sign_free. rewrite negb_true_iff.
  induction s as [|a tl IH]; simpl; [reflexivity|].
  intro H. apply orb_false_iff in H. destruct H as [Ha Htl].
  rewrite Ha. simpl. now rewrite IH.
Qed.

Lemma search_charge_sign_free (s : string) :
  sign_free s = true -> search_charge s = None.
Proof.
  unfold sign_free. rewrite negb_true_iff.
  induction s as [|a tl IH]; simpl; [reflexivity|].
  intro H. apply orb_false_iff in H. destruct H as [Ha Htl].
  rewrite Ha. simpl. now apply IH.
Qed.

End ParserFacts.

(** X1.  On a formula that holds no sign character and is not "none" or
    "null" in any letter case, the parser of [ModelBalancer] and the
    parser of the standalone scripts return the same element counts. *)
Theorem parsers_agree_without_sign (f : string) :
  Notions.sign_free f = true ->
  String.eqb (PyStr.lower f) "none" = false ->
  String.eqb (PyStr.lower f) "null" = false ->
  ModelBalancer.parse_formula (Some f) = Formula.parse_formula (Some f).
Proof.
  intros Hs Hnone Hnull.
  unfold ModelBalancer.parse_formula, Formula.parse_formula.
  rewrite Hnone, Hnull, !orb_false_r.
  destruct (String.eqb f ""); [reflexivity|].
  destruct (sign_free_chars f Hs) as [Hp Hm].
  rewrite (remove_char_absent "+" f Hp), (remove_char_absent "-" f Hm).
  now rewrite (strip_charge_sign_free f Hs).
Qed.

Lemma parsers_agree_without_sign_witness :
  ModelBalancer.parse_formula (Some "C6H12O6")
  = Formula.parse_formula (Some "C6H12O6").
Proof.
  apply (parsers_agree_without_sign "C6H12O6"); reflexivity.
Defined.

(** X2.  A formula without sign character has charge 0 for
    [get_charge_from_formula], and the parser of the standalone scripts
    reads it whole: stripping the charge leaves it as it is. *)
Theorem no_sign_no_charge (f : string) :
  Notions.sign_free f = true ->
  Formula.get_charge_from_formula (Some f) = 0%Z
  /\ Formula.strip_charge f = f.
Proof.
  intro Hs. split.
  - unfold Formula.get_charge_from_formula.
    now rewrite (search_charge_sign_free f Hs).
  - now apply strip_charge_sign_free.
Qed.

Lemma no_sign_no_charge_witness :
  Formula.get_charge_from_formula (Some "H2O") = 0%Z
  /\ Formula.strip_charge "H2O" = "H2O".
Proof.
  apply (no_sign_no_charge "H2O"). reflexivity.
Defined.

Section Symbols.
Import PyStr Formula Notions.
Local Open Scope Z_scope.

Lemma all_digits_snoc (ds : string) (c : ascii) :
  all_digits ds = true -> is_digit c = true ->
  all_digits (ds ++ String c EmptyString) = true.
Proof.
  intros Hds Hc. induction ds as [|a tl IH]; simpl.
  - now rewrite Hc.
  - simpl in Hds. apply andb_true_iff in Hds. destruct Hds as [Ha Htl].
    rewrite Ha. now apply IH.
Qed.

Lemma start_ok (c : ascii) : pending_ok (start c).
Proof.
  unfold start. destruct (is_upper c) eqn:E; simpl; [|exact I].
  split; [split; [exact E | reflexivity]|].
  intros _. now exists c.
Qed.

Lemma scan_groups (s : string) : forall p,
  pending_ok p -> Forall group_ok (scan p s).
Proof.
  induction s as [|c tl IH]; intros p Hp; simpl.
  - destruct p as [[[el ds] may]|]; simpl; [|constructor].
    destruct Hp as [Hg _]. constructor; [exact Hg | constructor].
  - destruct p as [[[el ds] may]|]; [|apply IH, start_ok].
    destruct Hp as [[Hel Hds] Hmay]. simpl in Hel, Hds.
    destruct (may && is_lower c) eqn:E1.
    + apply andb_true_iff in E1. destruct E1 as [-> Hlow].
      destruct (Hmay eq_refl) as [a [-> ->]].
      apply IH. simpl. split; [split|discriminate].
      * simpl. simpl in Hel. now rewrite Hel, Hlow.
      * reflexivity.
    + destruct (is_digit c) eqn:E2.
      * apply IH. simpl. split; [split|discriminate].
        -- exact Hel.
        -- simpl. now apply all_digits_snoc.
      * constructor; [split; assumption | apply IH, start_ok].
Qed.

Lemma int_acc_nonneg (ds : string) : forall acc, 0 <= acc -> 0 <= int_acc acc ds.
Proof.
  induction ds as [|a tl IH]; intros acc H; cbn [int_acc]; [exact H|].
  apply IH. lia.
Qed.

Lemma count_of_nonneg (ds : string) : 0 <= count_of ds.
Proof.
  unfold count_of. destruct ds; [lia|]. apply int_acc_nonneg. lia.
Qed.

Lemma upsert_entries {V : Type} (k : string) (f : V -> V) (v0 : V)
    (d : Dict.t V) (k' : string) (v' : V) :
  In (k', v') (Dict.upsert k f v0 d) ->
  In (k', v') d
  \/ (k' = k /\ (v' = v0 \/ exists old, In (k, old) d /\ v' = f old)).
Proof.
  induction d as [|[k0 v1] tl IH]; simpl.
  - intros [H | []]. injection H as <- <-. right. split; [reflexivity | now left].
  - destruct (String.eqb k k0) eqn:E.
    + apply String.eqb_eq in E. subst k0. intros [H | H].
      * injection H as <- <-. right. split; [reflexivity|].
        right. exists v1. split; [now left | reflexivity].
      * left. now right.
    + intros [H | H].
      * left. now left.
      * destruct (IH H) as [Hin | [Hk [Hv | [old [Hold Hv]]]]].
        -- left. now right.
        -- right. split; [exact Hk | now left].
        -- right. split; [exact Hk|]. right. exists old.
           split; [now right | exact Hv].
Qed.

Lemma accumulate_entries (ms : list (string * string)) : forall acc,
  Forall group_ok ms ->
  (forall k v, In (k, v) acc -> is_symbol k = true /\ 0 <= v) ->
  forall k v, In (k, v) (accumulate ms acc) -> is_symbol k = true /\ 0 <= v.
Proof.
  induction ms as [|[el ds] tl IH]; intros acc Hms Hacc k v; simpl.
  - apply Hacc.
  - inversion Hms as [|? ? [Hel _] Htl]; subst. simpl in Hel.
    apply IH; [exact Htl|].
    intros k' v' Hin. pose proof (count_of_nonneg ds) as Hc.
    apply upsert_entries in Hin.
    destruct Hin as [Hin | [-> [-> | [old [Hold ->]]]]].
    + now apply Hacc.
    + split; [exact Hel | lia].
    + destruct (Hacc _ _ Hold) as [_ Hnn]. split; [exact Hel | lia].
Qed.

End Symbols.

(** X3.  Whatever the input, the keys of the table returned by either
    formula parser are pairwise distinct element symbols (an upper-case
    letter, alone or followed by one lower-case letter), and no count is
    negative. *)
Theorem parsed_tables_hold_symbols (f : option string) :
  NoDup (Dict.keys (Formula.parse_formula f))
  /\ NoDup (Dict.keys (ModelBalancer.parse_formula f))
  /\ forall k v,
       In (k, v) (Formula.parse_formula f)
       \/ In (k, v) (ModelBalancer.parse_formula f) ->
       Notions.is_symbol k = true /\ (0 <= v)%Z.
Proof.
  split; [|split].
  - unfold Formula.parse_formula. destruct f as [s|]; [|constructor].
    destruct (_ || _); [constructor|].
    apply accumulate_nodup. constructor.
  - apply parse_formula_nodup.
  - intros k v [H | H].
    + unfold Formula.parse_formula in H. destruct f as [s|]; [|contradiction].
      destruct (_ || _); [contradiction|].
      revert H. apply accumulate_entries.
      * apply scan_groups. exact I.
      * intros ? ? [].
    + unfold ModelBalancer.parse_formula in H.
      destruct f as [s|]; [|contradiction].
      destruct (String.eqb s ""); [contradiction|].
      revert H. apply accumulate_entries.
      * apply scan_groups. exact I.
      * intros ? ? [].
Qed.

Section ChargeOf.
Import PyStr Formula.

Lemma take_all_digits (digits : string) :
  all_digits digits = true -> take_digits digits = digits.
Proof.
  induction digits as [|c tl IH]; simpl; [reflexivity|].
  intro H. apply andb_true_iff in H. destruct H as [Hc Htl].
  rewrite Hc. now rewrite IH.
Qed.

Lemma search_charge_suffix (sign : ascii) (digits body : string) :
  is_sign sign = true -> all_digits digits = true ->
  search_charge (body ++ String sign digits) = Some (sign, digits).
Proof.
  intros Hs Hd. induction body as [|c tl IH]; simpl.
  - rewrite Hs, (drop_all_digits digits Hd). simpl.
    now rewrite (take_all_digits digits Hd).
  - rewrite (not_at_dollar_before sign digits Hs Hd tl), andb_false_r.
    exact IH.
Qed.

End ChargeOf.

(** X4.  A formula made of a body followed by a sign and a run of digits
    splits as the standalone scripts intend: [parse_formula] returns the
    element counts of the body alone, and [get_charge_from_formula]
    returns the digits as a number (1 when there are none) with the sign. *)
Theorem formula_splits_into_counts_and_charge
    (body : string) (sign : ascii) (digits : string) :
  PyStr.is_sign sign = true ->
  PyStr.all_digits digits = true ->
  Formula.parse_formula (Some (body ++ String sign digits))
  = Formula.accumulate (Formula.findall body) []
  /\ Formula.get_charge_from_formula (Some (body ++ String sign digits))
     = ((if Ascii.eqb sign "+"%char then 1 else -1)
        * (match digits with EmptyString => 1 | _ => PyStr.int digits end))%Z.
Proof.
  intros Hs Hd. split.
  - now apply parse_formula_strips_charge.
  - unfold Formula.get_charge_from_formula.
    now rewrite (search_charge_suffix sign digits body Hs Hd).
Qed.

Lemma formula_splits_into_counts_and_charge_witness :
  Formula.parse_formula (Some "C6H11O9P-2")
  = [("C", 6%Z); ("H", 11%Z); ("O", 9%Z); ("P", 1%Z)]
  /\ Formula.get_charge_from_formula (Some "C6H11O9P-2") = (-2)%Z.
Proof.
  exact (formula_splits_into_counts_and_charge "C6H11O9P" "-" "2"
           eq_refl eq_refl).
Defined.

(** ** The hydrogen balance of the standalone proton fixer *)

Section StandaloneBalance.
Import Cobra FixProton SideSums Notions.
Local Open Scope Q_scope.

Lemma get_coefficient_unique (r : Reaction) (mc : Metabolite * Q) :
  NoDup (met_ids (stoich r)) -> In mc (stoich r) ->
  get_coefficient r (met_id (fst mc)) = snd mc.
Proof.
  unfold get_coefficient, met_ids.
  induction (stoich r) as [|x tl IH]; simpl; [intros _ []|].
  intros Hnd Hin. inversion Hnd as [|? ? Hnotin Hnd']; subst.
  destruct Hin as [-> | Hin].
  - now rewrite String.eqb_refl.
  - destruct (String.eqb (met_id (fst mc)) (met_id (fst x))) eqn:E.
    + apply String.eqb_eq in E. exfalso. apply Hnotin. rewrite <- E.
      apply in_map_iff. now exists mc.
    + now apply IH.
Qed.

Lemma abs_sum_reactants (f : Metabolite -> Z) (d : Stoich) :
  abs_sum f (filter (fun mc => Num.ltb (snd mc) 0) d) == reactant_sum f d.
Proof.
  induction d as [|[m c] tl IH]; simpl; [reflexivity|].
  destruct (Num.ltb c 0); simpl; rewrite IH; ring.
Qed.

Lemma abs_sum_products (f : Metabolite -> Z) (d : Stoich) :
  abs_sum f (filter (fun mc => Qle_bool 0 (snd mc)) d) == product_sum f d.
Proof.
  induction d as [|[m c] tl IH]; simpl; [reflexivity|].
  unfold Num.gtb. destruct (Qle_bool 0 c) eqn:E1; simpl; rewrite IH.
  - destruct (Num.ltb 0 c) eqn:E2; [reflexivity|].
    apply Qle_bool_iff in E1. apply ltb_ge in E2.
    assert (Hc : c == 0) by lra. rewrite Hc. simpl. ring.
  - destruct (Num.ltb 0 c) eqn:E2; [|ring].
    apply ltb_lt in E2.
    assert (Hle : 0 <= c) by lra. apply Qle_bool_iff in Hle. congruence.
Qed.

(** One loop of [analyze_h_balance] over entries of the reaction that all
    have a formula adds their hydrogen and lists nothing. *)
Lemma side_h_sum (r : Reaction) (l : Stoich) :
  NoDup (met_ids (stoich r)) ->
  (forall mc, In mc l -> In mc (stoich r)) ->
  forallb (fun mc => truthy (formula (fst mc))) l = true ->
  forall h0 missing,
    fst (side_h r (map fst l) (h0, missing)) == h0 + abs_sum (atoms_of "H") l
    /\ snd (side_h r (map fst l) (h0, missing)) = missing.
Proof.
  intros Hnd. induction l as [|[m c] tl IH]; intros Hin Hf h0 missing.
  - simpl. split; [ring | reflexivity].
  - simpl in Hf. apply andb_true_iff in Hf. destruct Hf as [Hm Htl].
    simpl map. cbn [side_h].
    pose proof (get_coefficient_unique r (m, c) Hnd (Hin _ (or_introl eq_refl)))
      as Hc.
    simpl in Hc, Hm. rewrite Hc, Hm. cbn [negb snd].
    destruct (IH (fun mc H => Hin mc (or_intror H)) Htl
                (h0 + Qabs c * inject_Z (Dict.get_default "H" 0%Z
                                           (Formula.parse_formula (formula m))))
                missing) as [Hh Hmiss].
    split; [|exact Hmiss].
    rewrite Hh. cbn [abs_sum]. unfold atoms_of. ring.
Qed.

Lemma filter_all_formulas (g : Metabolite * Q -> bool) (d : Stoich) :
  forallb (fun mc => truthy (formula (fst mc))) d = true ->
  forallb (fun mc => truthy (formula (fst mc))) (filter g d) = true.
Proof.
  induction d as [|x tl IH]; simpl; [reflexivity|].
  intro H. apply andb_true_iff in H. destruct H as [Hx Htl].
  destruct (g x); simpl; [rewrite Hx|]; now apply IH.
Qed.

Lemma analyze_h_balance_sums (r : Reaction) :
  NoDup (met_ids (stoich r)) -> all_formulas r = true ->
  h_imbalance (analyze_h_balance r)
    == reactant_sum (atoms_of "H") (stoich r)
       - product_sum (atoms_of "H") (stoich r)
  /\ missing_formulas (analyze_h_balance r) = [].
Proof.
  intros Hnd Hall. unfold analyze_h_balance, reactants, products.
  destruct (side_h_sum r (filter (fun mc => Num.ltb (snd mc) 0) (stoich r)) Hnd
              (fun mc H => proj1 (proj1 (filter_In _ _ _) H))
              (filter_all_formulas _ _ Hall) 0 []) as [Hr Hrm].
  destruct (side_h r (map fst (filter (fun mc => Num.ltb (snd mc) 0) (stoich r)))
              (0, [])) as [rh m1].
  simpl in Hr, Hrm. subst m1.
  destruct (side_h_sum r (filter (fun mc => Qle_bool 0 (snd mc)) (stoich r)) Hnd
              (fun mc H => proj1 (proj1 (filter_In _ _ _) H))
              (filter_all_formulas _ _ Hall) 0 []) as [Hp Hpm].
  destruct (side_h r (map fst (filter (fun mc => Qle_bool 0 (snd mc)) (stoich r)))
              (0, [])) as [ph m2].
  simpl in Hp, Hpm. subst m2. simpl. split; [|reflexivity].
  rewrite Hr, Hp, abs_sum_reactants, abs_sum_products. ring.
Qed.

End StandaloneBalance.

(** X5.  For a reaction whose metabolites have pairwise distinct ids and
    all have a formula, [analyze_h_balance] lists no missing formula and
    its hydrogen imbalance is the sum over the reactants of
    |coefficient| x hydrogen count minus the same sum over the products. *)
Theorem standalone_hydrogen_balance_is_reactants_minus_products
    (r : Cobra.Reaction) :
  NoDup (Notions.met_ids (Cobra.stoich r)) ->
  Notions.all_formulas r = true ->
  (FixProton.h_imbalance (FixProton.analyze_h_balance r)
   == SideSums.reactant_sum (Notions.atoms_of "H") (Cobra.stoich r)
      - SideSums.product_sum (Notions.atoms_of "H") (Cobra.stoich r))%Q
  /\ FixProton.missing_formulas (FixProton.analyze_h_balance r) = [].
Proof.
  apply analyze_h_balance_sums.
Qed.

Lemma standalone_hydrogen_balance_is_reactants_minus_products_witness :
  (FixProton.h_imbalance (FixProton.analyze_h_balance Samples.r_methane)
   == SideSums.reactant_sum (Notions.atoms_of "H") (Cobra.stoich Samples.r_methane)
      - SideSums.product_sum (Notions.atoms_of "H") (Cobra.stoich Samples.r_methane))%Q
  /\ FixProton.missing_formulas (FixProton.analyze_h_balance Samples.r_methane) = [].
Proof.
  apply (standalone_hydrogen_balance_is_reactants_minus_products Samples.r_methane).
  - repeat constructor; simpl; intuition discriminate.
  - reflexivity.
Defined.

Section StandaloneEdit.
Import Cobra FixProton SideSums Notions.
Local Open Scope Q_scope.

Lemma signed_sum_app (f : Metabolite -> Z) (d e : Stoich) :
  signed_sum f (d ++ e)%list == signed_sum f d + signed_sum f e.
Proof.
  induction d as [|[m c] tl IH]; simpl; [ring|]. rewrite IH. ring.
Qed.

Lemma signed_sum_drop_zeros (f : Metabolite -> Z) (d : Stoich) :
  signed_sum f (drop_zeros d) == signed_sum f d.
Proof.
  unfold drop_zeros. induction d as [|[m c] tl IH]; simpl; [reflexivity|].
  destruct (Qeq_bool c 0) eqn:E; simpl; rewrite IH; [|reflexivity].
  apply Qeq_bool_iff in E. rewrite E. ring.
Qed.

Lemma met_ids_filter_nodup (g : Metabolite * Q -> bool) (d : Stoich) :
  NoDup (met_ids d) -> NoDup (met_ids (filter g d)).
Proof.
  unfold met_ids. induction d as [|x tl IH]; simpl; intro H; [constructor|].
  inversion H as [|? ? Hnotin Hnd]; subst.
  destruct (g x); simpl; [|now apply IH].
  constructor; [|now apply IH].
  intro Hin. apply Hnotin. apply in_map_iff in Hin.
  destruct Hin as [y [Hy Hf]]. apply filter_In in Hf.
  apply in_map_iff. exists y. tauto.
Qed.

Lemma met_ids_entered_nodup (p : Metabolite) (x : Q) (d : Stoich) :
  NoDup (met_ids d) -> mem p d = false ->
  NoDup (met_ids (d ++ [(p, x)])%list).
Proof.
  unfold met_ids, mem. intros Hnd Hmem.
  rewrite map_app. simpl. apply NoDup_app.
  - exact Hnd.
  - constructor; [intros [] | constructor].
  - intros id Hin [<- | []].
    apply in_map_iff in Hin. destruct Hin as [y [Hy Hin]].
    assert (Hex : existsb (fun mc => same_met p (fst mc)) d = true).
    { apply existsb_exists. exists y. split; [exact Hin|].
      unfold same_met. rewrite Hy. apply String.eqb_refl. }
    congruence.
Qed.

Lemma atoms_need_formula (element : string) (p : Metabolite) :
  atoms_of element p <> 0%Z -> truthy (formula p) = true.
Proof.
  unfold atoms_of, truthy, Formula.parse_formula.
  destruct (formula p) as [f|]; [|intro H; now elim H].
  destruct (String.eqb f ""); simpl; [intro H; now elim H | reflexivity].
Qed.

(** The hydrogen imbalance after a species the reaction did not hold has
    been entered with coefficient [x]. *)
Lemma entered_balance (p : Metabolite) (x : Q) (r : Reaction) :
  NoDup (met_ids (stoich r)) -> all_formulas r = true ->
  mem p (stoich r) = false -> truthy (formula p) = true -> ~ x == 0 ->
  h_imbalance (analyze_h_balance (add_metabolites [(p, x)] r))
  == h_imbalance (analyze_h_balance r) - x * inject_Z (atoms_of "H" p).
Proof.
  intros Hnd Hall Hmem Hp Hx.
  destruct (coefficient_of_entered p x r Hmem Hx) as [Hst _].
  destruct (analyze_h_balance_sums r Hnd Hall) as [Hr _].
  destruct (analyze_h_balance_sums (add_metabolites [(p, x)] r)) as [Hr' _].
  - rewrite Hst. apply met_ids_filter_nodup.
    now apply met_ids_entered_nodup.
  - unfold all_formulas. rewrite Hst. apply filter_all_formulas.
    rewrite forallb_app. unfold all_formulas in Hall. rewrite Hall.
    simpl. now rewrite Hp.
  - rewrite Hr', Hr, Hst.
    pose proof (signed_is_products_minus_reactants (atoms_of "H")
                  (drop_zeros (stoich r ++ [(p, x)])%list)) as H1.
    pose proof (signed_is_products_minus_reactants (atoms_of "H") (stoich r))
      as H2.
    pose proof (signed_sum_drop_zeros (atoms_of "H")
                  (stoich r ++ [(p, x)])%list) as H3.
    pose proof (signed_sum_app (atoms_of "H") (stoich r) [(p, x)]) as H4.
    simpl in H4. lra.
Qed.

End StandaloneEdit.

(** X6.  When the standalone proton fixer edits a reaction (distinct
    metabolite ids, all formulas present, hydrogen imbalance different
    from zero and at most 3 in absolute value) that does not hold the
    proton species, and that species counts one hydrogen, the hydrogen
    imbalance [analyze_h_balance] computes for the edited reaction is
    twice the imbalance before the edit. *)
Theorem standalone_proton_fix_doubles_imbalance
    (proton_met : Cobra.Metabolite) (r : Cobra.Reaction) :
  NoDup (Notions.met_ids (Cobra.stoich r)) ->
  Notions.all_formulas r = true ->
  Cobra.mem proton_met (Cobra.stoich r) = false ->
  Notions.atoms_of "H" proton_met = 1%Z ->
  ~ (FixProton.h_imbalance (FixProton.analyze_h_balance r) == 0)%Q ->
  (Qabs (FixProton.h_imbalance (FixProton.analyze_h_balance r)) <= 3)%Q ->
  (FixProton.h_imbalance
     (FixProton.analyze_h_balance (FixProton.fix_one proton_met false r))
   == 2 * FixProton.h_imbalance (FixProton.analyze_h_balance r))%Q.
Proof.
  intros Hnd Hall Hmem Hatoms Hnz Hle.
  assert (Hp : Cobra.truthy (Cobra.formula proton_met) = true).
  { apply (atoms_need_formula "H"). rewrite Hatoms. discriminate. }
  destruct (analyze_h_balance_sums r Hnd Hall) as [_ Hmiss].
  destruct (analyze_h_balance_fields r) as [Hcan Hneed].
  set (h := FixProton.h_imbalance (FixProton.analyze_h_balance r)) in *.
  assert (Habs : (0 < Qabs h)%Q).
  { destruct (Q_dec h 0) as [[Hneg | Hpos] | Hz].
    - rewrite Qabs_neg by lra. lra.
    - rewrite Qabs_pos by lra. lra.
    - contradiction. }
  unfold FixProton.fix_one. rewrite Hmiss, Hcan, Hneed. fold h.
  assert (Hg : Num.gtb (Qabs h) 0 = true) by now apply gtb_gt.
  assert (Hl : Qle_bool (Qabs h) 3 = true) by now apply Qle_bool_iff.
  rewrite Hg, Hl. simpl.
  destruct (Num.gtb h 0) eqn:Epos.
  - apply gtb_gt in Epos.
    rewrite (entered_balance proton_met (- Qabs h)%Q r Hnd Hall Hmem Hp).
    + fold h. rewrite Hatoms. rewrite (Qabs_pos h) by lra. simpl. ring.
    + rewrite (Qabs_pos h) by lra. lra.
  - apply gtb_le in Epos.
    rewrite (entered_balance proton_met (Qabs h) r Hnd Hall Hmem Hp).
    + fold h. rewrite Hatoms. rewrite (Qabs_neg h) by lra. simpl. ring.
    + lra.
Qed.

Lemma standalone_proton_fix_doubles_imbalance_witness :
  (FixProton.h_imbalance
     (FixProton.analyze_h_balance
        (FixProton.fix_one Samples.proton_c false Samples.r_short_h))
   == 2 * FixProton.h_imbalance (FixProton.analyze_h_balance Samples.r_short_h))%Q.
Proof.
  apply (standalone_proton_fix_doubles_imbalance Samples.proton_c
           Samples.r_short_h).
  - repeat constructor; simpl; intuition discriminate.
  - reflexivity.
  - reflexivity.
  - reflexivity.
  - vm_compute. discriminate.
  - vm_compute. discriminate.
Defined.

(** ** Dry runs and counts of the standalone proton fixer *)

Section ProtonCounts.
Import Cobra FixProton Notions.
Local Open Scope Q_scope.

Variable proton_met : Metabolite.

Lemma fix_one_dry (r : Reaction) : fix_one proton_met true r = r.
Proof.
  unfold fix_one. destruct (negb _); [reflexivity|].
  now destruct (can_fix_with_proton _ && _).
Qed.

Lemma map_fix_one_dry (rs : list Reaction) :
  map (fix_one proton_met true) rs = rs.
Proof.
  induction rs as [|r tl IH]; simpl; [reflexivity|].
  now rewrite fix_one_dry, IH.
Qed.

Lemma loop_counts (dry_run : bool) (rs : list Reaction) : forall st,
  let st' := fold_left (loop_body proton_met dry_run) rs st in
  fixes_made st' = (fixes_made st + length (filter proton_fixable rs))%nat
  /\ remaining_imbalanced st'
     = (remaining_imbalanced st
        ++ map (fun r => (rxn_id r, h_imbalance (analyze_h_balance r)))
             (filter proton_review rs))%list.
Proof.
  induction rs as [|r tl IH]; intro st; simpl.
  - now rewrite Nat.add_0_r, app_nil_r.
  - destruct (IH (loop_body proton_met dry_run st r)) as [Hf Hr].
    rewrite Hf, Hr. clear IH Hf Hr.
    unfold loop_body, proton_fixable, proton_review.
    destruct (Nat.eqb (length (missing_formulas (analyze_h_balance r))) 0);
      simpl; [|split; [lia | reflexivity]].
    destruct (can_fix_with_proton (analyze_h_balance r)
              && Num.gtb (Qabs (protons_needed (analyze_h_balance r))) 0);
      simpl; [split; [lia | reflexivity]|].
    destruct (Num.gtb (Qabs (h_imbalance (analyze_h_balance r))) 3); simpl.
    + split; [lia | now rewrite <- app_assoc].
    + split; [lia | reflexivity].
Qed.

End ProtonCounts.

(** X7.  A dry run of the standalone proton fixer returns the model as it
    received it, and it returns the same number of fixes and the same
    list of reactions for review as the run that edits the model. *)
Theorem proton_dry_run_changes_nothing (m : Cobra.Model) :
  fst (fst (FixProton.fix_proton_balance m true)) = m
  /\ snd (fst (FixProton.fix_proton_balance m true))
     = snd (fst (FixProton.fix_proton_balance m false))
  /\ snd (FixProton.fix_proton_balance m true)
     = snd (FixProton.fix_proton_balance m false).
Proof.
  unfold FixProton.fix_proton_balance.
  destruct (FixProton.find_proton_metabolite m) as [p|];
    [|repeat split; reflexivity].
  pose (st0 := {| FixProton.visited := []; FixProton.fixes_made := 0;
                  FixProton.remaining_imbalanced := [] |}).
  fold st0.
  destruct (loop_spec p true (Cobra.model_reactions m) st0) as [Hv _].
  destruct (loop_counts p true (Cobra.model_reactions m) st0) as [Hft Hrt].
  destruct (loop_counts p false (Cobra.model_reactions m) st0) as [Hff Hrf].
  simpl. split; [|split].
  - rewrite Hv. simpl. rewrite map_fix_one_dry. now destruct m.
  - now rewrite Hft, Hff.
  - now rewrite Hrt, Hrf.
Qed.

(** X8.  In either mode, when a proton species is found, the number of
    fixes the standalone proton fixer returns is the number of reactions
    with all formulas present and a hydrogen imbalance different from
    zero and at most 3 in absolute value. *)
Theorem proton_fixes_count (m : Cobra.Model) (dry_run : bool)
    (proton_met : Cobra.Metabolite) :
  FixProton.find_proton_metabolite m = Some proton_met ->
  snd (fst (FixProton.fix_proton_balance m dry_run))
  = length
      (filter
         (fun r =>
            let b := FixProton.analyze_h_balance r in
            Nat.eqb (length (FixProton.missing_formulas b)) 0
            && (Num.gtb (Qabs (FixProton.h_imbalance b)) 0
                && Qle_bool (Qabs (FixProton.h_imbalance b)) 3))
         (Cobra.model_reactions m)).
Proof.
  intro Hfind. unfold FixProton.fix_proton_balance. rewrite Hfind. simpl.
  destruct (loop_counts proton_met dry_run (Cobra.model_reactions m)
              {| FixProton.visited := []; FixProton.fixes_made := 0;
                 FixProton.remaining_imbalanced := [] |}) as [Hf _].
  rewrite Hf. simpl. f_equal. apply filter_ext. intro r.
  unfold Notions.proton_fixable.
  destruct (analyze_h_balance_fields r) as [-> ->].
  destruct (Nat.eqb _ 0); simpl; [|reflexivity].
  destruct (Num.gtb _ 0); simpl; [|reflexivity].
  now rewrite andb_true_r.
Qed.

Lemma proton_fixes_count_witness :
  snd (fst (FixProton.fix_proton_balance
              (Samples.model_of Samples.mets_with_proton
                 [Samples.r_short_h; Samples.r_methane; Samples.r_balanced])
              true)) = 1%nat.
Proof.
  exact (eq_trans
           (proton_fixes_count
              (Samples.model_of Samples.mets_with_proton
                 [Samples.r_short_h; Samples.r_methane; Samples.r_balanced])
              true Samples.proton_c eq_refl)
           eq_refl).
Defined.

(** ** Locating the proton and the water species *)

Section Locate.
Import Cobra.

Lemma find_all_false {A : Type} (f : A -> bool) (l : list A) :
  (forall x, In x l -> f x = false) -> find f l = None.
Proof.
  induction l as [|a tl IH]; simpl; intro H; [reflexivity|].
  rewrite (H a (or_introl eq_refl)). apply IH. intros x Hx. apply H. now right.
Qed.

Lemma get_met_by_id_some (mets : list Metabolite) (id : string) (c : Metabolite) :
  FixProton.get_met_by_id mets id = Some c -> In c mets /\ met_id c = id.
Proof.
  unfold FixProton.get_met_by_id. intro H. apply find_some in H.
  destruct H as [Hin He]. apply String.eqb_eq in He. now split.
Qed.

Lemma proton_direct_match_sound (mets : list Metabolite) (ids : list string)
    (c : Metabolite) :
  FixProton.direct_match mets ids = Some c ->
  In c mets /\ FixProton.formula_in c ["H"; "H+"] = true.
Proof.
  induction ids as [|id tl IH]; simpl; [discriminate|].
  destruct (FixProton.get_met_by_id mets id) as [cand|] eqn:E; [|exact IH].
  destruct (FixProton.formula_in cand ["H"; "H+"]) eqn:Ef; [|exact IH].
  intro H. injection H as <-. apply get_met_by_id_some in E. tauto.
Qed.

Lemma proton_formula_accepted (c : Metabolite) :
  FixProton.formula_in c ["H"; "H+"] = true ->
  FixProton.looks_like_proton c = true.
Proof.
  unfold FixProton.looks_like_proton, FixProton.formula_in.
  destruct (formula c) as [f|]; [|discriminate].
  cbn [existsb]. intro H. rewrite orb_false_r in H.
  apply orb_true_iff in H.
  destruct H as [H | H]; rewrite H; rewrite ?orb_true_r; reflexivity.
Qed.

Lemma water_direct_match_sound (mets : list Metabolite) (ids : list string)
    (c : Metabolite) :
  FixHydrogenRun.direct_match mets ids = Some c ->
  In c mets /\ In (met_id c) ids.
Proof.
  induction ids as [|id tl IH]; simpl; [discriminate|].
  destruct (FixProton.get_met_by_id mets id) as [cand|] eqn:E.
  - intro H. injection H as <-. apply get_met_by_id_some in E.
    destruct E as [Hin Hid]. split; [exact Hin | now left].
  - intro H. destruct (IH H) as [Hin Hid]. split; [exact Hin | now right].
Qed.

Lemma water_ids_accepted :
  forallb
    (fun id =>
       PyStr.contains "h2o" (PyStr.lower id)
       || PyStr.contains "water" (PyStr.lower id)
       || PyStr.contains "cpd00001" (PyStr.lower id))
    (FixProton.full_ids ["h2o"; "cpd00001"; "H2O"; "water"]) = true.
Proof. vm_compute. reflexivity. Qed.

Lemma water_id_accepted (c : Metabolite) :
  In (met_id c) (FixProton.full_ids ["h2o"; "cpd00001"; "H2O"; "water"]) ->
  FixHydrogenRun.looks_like_water c = true.
Proof.
  intro Hin. pose proof water_ids_accepted as H.
  rewrite forallb_forall in H. specialize (H _ Hin).
  unfold FixHydrogenRun.looks_like_water.
  apply orb_true_iff in H. destruct H as [H | H].
  - apply orb_true_iff in H. destruct H as [H | H]; rewrite H;
      rewrite ?orb_true_r; reflexivity.
  - rewrite H. rewrite ?orb_true_r. reflexivity.
Qed.

End Locate.

(** X9.  [find_proton_metabolite] returns only a metabolite of the model
    that passes its proton test (formula H, H+ or H1, or an id holding
    "cpd00067" or "proton" or starting with "h_", or a name holding
    "proton" or "h+", letter case ignored), and it returns nothing exactly
    when no metabolite of the model passes that test. *)
Theorem find_proton_metabolite_spec (m : Cobra.Model) :
  (forall p, FixProton.find_proton_metabolite m = Some p ->
             In p (Cobra.model_metabolites m)
             /\ FixProton.looks_like_proton p = true)
  /\ (FixProton.find_proton_metabolite m = None <->
      forall x, In x (Cobra.model_metabolites m) ->
                FixProton.looks_like_proton x = false).
Proof.
  unfold FixProton.find_proton_metabolite. split.
  - intros p.
    destruct (FixProton.direct_match _ _) as [c|] eqn:E.
    + intro H. injection H as <-.
      apply proton_direct_match_sound in E. destruct E as [Hin Hf].
      split; [exact Hin | now apply proton_formula_accepted].
    + intro H. apply find_some in H. exact H.
  - split.
    + destruct (FixProton.direct_match _ _) as [c|]; [discriminate|].
      intros H x Hx. exact (find_none _ _ H x Hx).
    + intro Hall.
      destruct (FixProton.direct_match _ _) as [c|] eqn:E.
      * apply proton_direct_match_sound in E. destruct E as [Hin Hf].
        apply proton_formula_accepted in Hf.
        rewrite (Hall c Hin) in Hf. discriminate.
      * now apply find_all_false.
Qed.

(** X10.  [find_water_metabolite] returns only a metabolite of the model
    that passes its water test (formula H2O, or an id holding "h2o",
    "water" or "cpd00001", or a name holding "water", letter case
    ignored), and it returns nothing exactly when no metabolite of the
    model passes that test. *)
Theorem find_water_metabolite_spec (m : Cobra.Model) :
  (forall w, FixHydrogenRun.find_water_metabolite m = Some w ->
             In w (Cobra.model_metabolites m)
             /\ FixHydrogenRun.looks_like_water w = true)
  /\ (FixHydrogenRun.find_water_metabolite m = None <->
      forall x, In x (Cobra.model_metabolites m) ->
                FixHydrogenRun.looks_like_water x = false).
Proof.
  unfold FixHydrogenRun.find_water_metabolite. split.
  - intros w.
    destruct (FixHydrogenRun.direct_match _ _) as [c|] eqn:E.
    + intro H. injection H as <-.
      apply water_direct_match_sound in E. destruct E as [Hin Hid].
      split; [exact Hin | now apply water_id_accepted].
    + intro H. apply find_some in H. exact H.
  - split.
    + destruct (FixHydrogenRun.direct_match _ _) as [c|]; [discriminate|].
      intros H x Hx. exact (find_none _ _ H x Hx).
    + intro Hall.
      destruct (FixHydrogenRun.direct_match _ _) as [c|] eqn:E.
      * apply water_direct_match_sound in E. destruct E as [Hin Hid].
        apply water_id_accepted in Hid.
        rewrite (Hall c Hin) in Hid. discriminate.
      * now apply find_all_false.
Qed.

(** ** The loop of the standalone water fixer *)

Section WaterLoop.
Import Cobra FixHydrogen FixHydrogenRun.
Local Open Scope Q_scope.

Variable water_met : Metabolite.
Variable dry_run : bool.

Lemma analyze_h_o_needed (r : Reaction) :
  water_molecules_needed (analyze_h_o_balance r)
  = if Qeq_bool (h_imbalance (analyze_h_o_balance r))
         (2 * o_imbalance (analyze_h_o_balance r))
    then o_imbalance (analyze_h_o_balance r) else 0.
Proof.
  unfold analyze_h_o_balance.
  destruct (side_ho r (reactants r) (0, 0, [])) as [[rh ro] m1].
  destruct (side_ho r (products r) (0, 0, m1)) as [[ph po] m2].
  reflexivity.
Qed.

Lemma off_ratio_not_fixed (r : Reaction) :
  ~ h_imbalance (analyze_h_o_balance r)
    == 2 * o_imbalance (analyze_h_o_balance r) ->
  can_fix_with_water (analyze_h_o_balance r) = false
  /\ Num.gtb (Qabs (h_imbalance (analyze_h_o_balance r))) 0
     || Num.gtb (Qabs (o_imbalance (analyze_h_o_balance r))) 0 = true.
Proof.
  intro Hoff. split.
  - rewrite analyze_h_o_balance_fields.
    destruct (Qeq_bool _ _) eqn:E; [|reflexivity].
    apply Qeq_bool_iff in E. contradiction.
  - set (h := h_imbalance (analyze_h_o_balance r)) in *.
    set (o := o_imbalance (analyze_h_o_balance r)) in *.
    destruct (Num.gtb (Qabs h) 0) eqn:Eh; [reflexivity|].
    destruct (Num.gtb (Qabs o) 0) eqn:Eo; [reflexivity|].
    exfalso. apply Hoff. apply gtb_le in Eh. apply gtb_le in Eo.
    assert (Hh : h == 0).
    { pose proof (Qabs_nonneg h). revert Eh H. apply Qabs_case; intros; lra. }
    assert (Ho : o == 0).
    { pose proof (Qabs_nonneg o). revert Eo H. apply Qabs_case; intros; lra. }
    rewrite Hh, Ho. reflexivity.
Qed.

Lemma water_fix_one_off_ratio (r : Reaction) :
  ~ h_imbalance (analyze_h_o_balance r)
    == 2 * o_imbalance (analyze_h_o_balance r) ->
  FixHydrogen.fix_one water_met dry_run r = r.
Proof.
  intro H. unfold FixHydrogen.fix_one. destruct (negb _); [reflexivity|].
  destruct (off_ratio_not_fixed r H) as [-> _]. reflexivity.
Qed.

Lemma water_loop_body_visited (st : Loop) (r : Reaction) :
  visited (loop_body water_met dry_run st r)
  = (visited st ++ [FixHydrogen.fix_one water_met dry_run r])%list.
Proof.
  unfold loop_body, FixHydrogen.fix_one.
  destruct (negb _); [reflexivity|].
  destruct (can_fix_with_water _ && _); [reflexivity|].
  now destruct (_ || _).
Qed.

Lemma water_loop_body_listed (st : Loop) (r : Reaction) :
  incl (problematic_reactions st)
    (problematic_reactions (loop_body water_met dry_run st r))
  /\ (missing_formulas (analyze_h_o_balance r) = [] ->
      ~ h_imbalance (analyze_h_o_balance r)
        == 2 * o_imbalance (analyze_h_o_balance r) ->
      In (rxn_id r, h_imbalance (analyze_h_o_balance r),
          o_imbalance (analyze_h_o_balance r))
        (problematic_reactions (loop_body water_met dry_run st r))).
Proof.
  unfold loop_body. split.
  - destruct (negb _); [apply incl_refl|].
    destruct (can_fix_with_water _ && _); [apply incl_refl|].
    destruct (_ || _); simpl; [apply incl_appl|]; apply incl_refl.
  - intros Hm Hoff. rewrite Hm. simpl.
    destruct (off_ratio_not_fixed r Hoff) as [-> ->]. simpl.
    apply in_or_app. right. now left.
Qed.

Lemma water_loop_spec (rs : list Reaction) : forall st,
  let st' := fold_left (loop_body water_met dry_run) rs st in
  visited st'
    = (visited st ++ map (FixHydrogen.fix_one water_met dry_run) rs)%list
  /\ incl (problematic_reactions st) (problematic_reactions st')
  /\ (forall r, In r rs ->
        missing_formulas (analyze_h_o_balance r) = [] ->
        ~ h_imbalance (analyze_h_o_balance r)
          == 2 * o_imbalance (analyze_h_o_balance r) ->
        In (rxn_id r, h_imbalance (analyze_h_o_balance r),
            o_imbalance (analyze_h_o_balance r))
          (problematic_reactions st')).
Proof.
  induction rs as [|r tl IH]; intro st; simpl.
  - rewrite app_nil_r. repeat split; [apply incl_refl | intros r []].
  - destruct (IH (loop_body water_met dry_run st r)) as [Hv [Hi Hl]].
    destruct (water_loop_body_listed st r) as [Hi0 Hl0].
    split; [|split].
    + rewrite Hv, water_loop_body_visited, <- app_assoc. reflexivity.
    + eapply incl_tran; eassumption.
    + intros r' [<- | Hr'] Hm Hoff.
      * apply Hi. now apply Hl0.
      * now apply Hl.
Qed.

End WaterLoop.

(** X11.  When [find_water_metabolite] finds a water species,
    [fix_hydrogen_balance_with_water] visits every reaction once; it
    changes a reaction only when the reaction's hydrogen imbalance is
    exactly twice its oxygen imbalance and not zero; and every reaction
    with all formulas present whose hydrogen imbalance is not twice its
    oxygen imbalance is left as it was and entered, with both imbalances,
    into [problematic_reactions]. *)
Theorem water_fixer_adjusts_exact_ratio_only
    (m m' : Cobra.Model) (dry_run : bool) (water_met : Cobra.Metabolite)
    (fixes : nat) (problematic : list (string * Q * Q)) :
  FixHydrogenRun.find_water_metabolite m = Some water_met ->
  FixHydrogenRun.fix_hydrogen_balance_with_water m dry_run
    = (m', fixes, problematic) ->
  Cobra.model_reactions m'
  = map (FixHydrogen.fix_one water_met dry_run) (Cobra.model_reactions m)
  /\ forall r, In r (Cobra.model_reactions m) ->
       let b := FixHydrogen.analyze_h_o_balance r in
       (FixHydrogen.fix_one water_met dry_run r <> r ->
        (FixHydrogen.h_imbalance b == 2 * FixHydrogen.o_imbalance b)%Q
        /\ ~ (FixHydrogen.h_imbalance b == 0)%Q)
       /\ (FixHydrogen.missing_formulas b = [] ->
           ~ (FixHydrogen.h_imbalance b == 2 * FixHydrogen.o_imbalance b)%Q ->
           FixHydrogen.fix_one water_met dry_run r = r
           /\ In (Cobra.rxn_id r, FixHydrogen.h_imbalance b,
                  FixHydrogen.o_imbalance b) problematic).
Proof.
  intros Hfind. unfold FixHydrogenRun.fix_hydrogen_balance_with_water.
  rewrite Hfind. intro H. injection H as <- _ <-.
  destruct (water_loop_spec water_met dry_run (Cobra.model_reactions m)
              {| FixHydrogenRun.visited := []; FixHydrogenRun.fixes_made := 0;
                 FixHydrogenRun.problematic_reactions := [] |}) as [Hv [_ Hl]].
  split.
  - simpl. exact Hv.
  - intros r Hr. cbv zeta. split.
    + apply standalone_water_needs_exact_ratio.
    + intros Hm Hoff. split;
        [now apply water_fix_one_off_ratio | now apply Hl].
Qed.

Lemma water_fixer_adjusts_exact_ratio_only_witness :
  Cobra.model_reactions
    (fst (fst (FixHydrogenRun.fix_hydrogen_balance_with_water
                 (Samples.model_of Samples.mets_with_water
                    [Samples.r_almost_water]) false)))
  = map (FixHydrogen.fix_one Samples.water_c false) [Samples.r_almost_water].
Proof.
  refine (proj1 (water_fixer_adjusts_exact_ratio_only
                   (Samples.model_of Samples.mets_with_water
                      [Samples.r_almost_water])
                   _ false Samples.water_c _ _ _ _)).
  - reflexivity.
  - vm_compute. reflexivity.
Defined.

(** ** More on the two loops of [fix_all_reactions] *)

Section FixLoopMore.
Import Cobra ModelBalancer.

Context {A : Type}.
Variable key : A -> string.
Variable attempt :
  list Metabolite -> BalanceReport -> Reaction -> bool * Reaction * BalanceReport.
Variable entry : Reaction -> A -> Unfixable.
Variable body : A -> Balancer -> option Balancer.

Hypothesis body_eq : forall a self,
  body a self =
  match get_by_id (model_reactions (model self)) (key a) with
  | None => None
  | Some reaction =>
      let '(ok, reaction', report') :=
        attempt (model_metabolites (model self)) (balance_report self)
          reaction in
      Some (with_reaction reaction'
              (if ok then report' else add_unfixable (entry reaction' a) report')
              self)
  end.

(** A reflexive and transitive relation between reports that every
    attempt and every entry into [unfixable] respects holds between the
    report before the loop and the report after it. *)
Lemma for_each_rel (R : BalanceReport -> BalanceReport -> Prop) :
  (forall rep, R rep rep) ->
  (forall a b c, R a b -> R b c -> R a c) ->
  (forall ms rep r, R rep (snd (attempt ms rep r))) ->
  (forall x rep, R rep (add_unfixable x rep)) ->
  forall infos self self',
    for_each body infos self = Some self' ->
    R (balance_report self) (balance_report self').
Proof.
  intros Hrefl Htrans Hatt Hunf.
  induction infos as [|a tl IH]; intros self self'; simpl.
  - intro H. injection H as <-. apply Hrefl.
  - rewrite body_eq.
    destruct (get_by_id _ _) as [r0|]; [|discriminate].
    pose proof (Hatt (model_metabolites (model self)) (balance_report self) r0)
      as Hstep.
    destruct (attempt _ _ r0) as [[ok r0'] rep']. simpl in Hstep.
    intro H. apply IH in H. simpl in H.
    eapply Htrans; [|exact H].
    destruct ok; [exact Hstep|].
    eapply Htrans; [exact Hstep | apply Hunf].
Qed.

(** A list of the report that an attempt lengthens by at most one entry
    grows by at most the length of the batch. *)
Lemma for_each_length (F : BalanceReport -> list string) :
  (forall ms rep r,
     (length (F (snd (attempt ms rep r))) <= S (length (F rep)))%nat) ->
  (forall x rep, F (add_unfixable x rep) = F rep) ->
  forall infos self self',
    for_each body infos self = Some self' ->
    (length (F (balance_report self'))
     <= length (F (balance_report self)) + length infos)%nat.
Proof.
  intros Hatt Hunf.
  induction infos as [|a tl IH]; intros self self'; simpl.
  - intro H. injection H as <-. lia.
  - rewrite body_eq.
    destruct (get_by_id _ _) as [r0|]; [|discriminate].
    pose proof (Hatt (model_metabolites (model self)) (balance_report self) r0)
      as Hstep.
    destruct (attempt _ _ r0) as [[ok r0'] rep']. simpl in Hstep.
    intro H. apply IH in H. simpl in H.
    destruct ok; [|rewrite Hunf in H]; lia.
Qed.

(** Membership tracked through the loop: when the step made for a
    reaction with property [P] puts the reaction's id into the list [L],
    the id is in [L] after the loop. *)
Lemma for_each_track
    (P : list Metabolite -> Reaction -> Prop)
    (L : BalanceReport -> list string) :
  (forall ms rep r, rxn_id (snd (fst (attempt ms rep r))) = rxn_id r) ->
  (forall ms rep r, incl (L rep) (L (snd (attempt ms rep r)))) ->
  (forall x rep, incl (L rep) (L (add_unfixable x rep))) ->
  (forall ms rep r a,
     P ms r ->
     In (rxn_id r)
        (L (if fst (fst (attempt ms rep r)) then snd (attempt ms rep r)
            else add_unfixable (entry (snd (fst (attempt ms rep r))) a)
                   (snd (attempt ms rep r))))) ->
  forall infos self self',
    for_each body infos self = Some self' ->
    NoDup (map key infos) ->
    NoDup (map rxn_id (model_reactions (model self))) ->
    forall r,
      In r (model_reactions (model self)) ->
      In (rxn_id r) (map key infos) ->
      P (model_metabolites (model self)) r ->
      In (rxn_id r) (L (balance_report self')).
Proof.
  intros Hid Hmono Hunf Hhit.
  assert (Hincl : forall infos self self',
            for_each body infos self = Some self' ->
            incl (L (balance_report self)) (L (balance_report self'))).
  { intros infos self self' H.
    apply (for_each_rel (fun a b => incl (L a) (L b))) with (infos := infos);
      auto using incl_refl.
    intros a b c Hab Hbc. eapply incl_tran; eassumption. }
  induction infos as [|a tl IH]; intros self self' Hrun Hnd Hndr r Hr Hin HP.
  - destruct Hin.
  - simpl in Hrun. rewrite body_eq in Hrun.
    destruct (get_by_id (model_reactions (model self)) (key a)) as [r0|] eqn:Hget;
      [|discriminate].
    pose proof (Hid (model_metabolites (model self)) (balance_report self) r0)
      as Hid0.
    pose proof (fun H => Hhit (model_metabolites (model self))
                  (balance_report self) r0 a H) as Hhit0.
    destruct (attempt (model_metabolites (model self)) (balance_report self) r0)
      as [[ok r0'] rep'] eqn:Eatt.
    simpl in Hid0, Hhit0.
    inversion Hnd as [|? ? Hnotin Hnd']; subst.
    destruct (string_dec (rxn_id r) (key a)) as [Heq | Hne].
    + assert (r = r0).
      { pose proof (get_by_id_unique _ r Hndr Hr) as Hu.
        rewrite Heq, Hget in Hu. now injection Hu. }
      subst r0. apply (Hincl _ _ _ Hrun). simpl. now apply Hhit0.
    + destruct Hin as [Hin | Hin]; [congruence|].
      apply (IH _ _ Hrun Hnd').
      * simpl. rewrite store_ids. exact Hndr.
      * simpl. apply store_other; [exact Hr|].
        apply find_some in Hget. destruct Hget as [_ He].
        apply String.eqb_eq in He. congruence.
      * exact Hin.
      * exact HP.
Qed.

End FixLoopMore.

(** ** The run of [ModelBalancer] as a whole *)

Section WholeRun.
Import Cobra ModelBalancer SideSums Notions.
Local Open Scope Q_scope.

(** What an attempt does to the report: nothing, or one id entered into
    the list of fixed reactions. *)
Lemma mass_attempt_report (ms : list Metabolite) (rep : BalanceReport)
    (r : Reaction) :
  snd (balance_reaction_mass ms rep r) = rep
  \/ (fst (fst (balance_reaction_mass ms rep r)) = true
      /\ snd (balance_reaction_mass ms rep r) = add_fixed_mass (rxn_id r) rep).
Proof.
  generalize (mass_attempt_id ms rep r).
  unfold balance_reaction_mass.
  destruct (_ || _); [now left|].
  destruct (Num.ltb _ Num.tol); [now left|].
  destruct (water_step ms _) as [r2 eb2]. cbv beta iota.
  destruct (Num.ltb _ Num.tol); simpl; intro Hid; [|now left].
  right. now rewrite Hid.
Qed.

Lemma charge_attempt_report (ms : list Metabolite) (rep : BalanceReport)
    (r : Reaction) :
  snd (balance_reaction_charge ms rep r) = rep
  \/ (fst (fst (balance_reaction_charge ms rep r)) = true
      /\ snd (balance_reaction_charge ms rep r)
         = add_fixed_charge (rxn_id r) rep).
Proof.
  generalize (charge_attempt_id ms rep r).
  unfold balance_reaction_charge.
  destruct (is_exchange_reaction r); [now left|].
  destruct (Num.ltb _ Num.tol); [now left|].
  destruct (find_species _ _ _); simpl; intro Hid; [|now left].
  right. now rewrite Hid.
Qed.

(** A reaction that is neither exempt nor within tolerance is reported
    as fixed or makes the attempt return false. *)
Lemma mass_attempt_decides (ms : list Metabolite) (rep : BalanceReport)
    (r : Reaction) :
  is_exchange_reaction r || is_transport_reaction r = false ->
  Num.ltb (max_imbalance (calculate_mass_balance r)) Num.tol = false ->
  (fst (fst (balance_reaction_mass ms rep r)) = true
   /\ snd (balance_reaction_mass ms rep r) = add_fixed_mass (rxn_id r) rep)
  \/ (fst (fst (balance_reaction_mass ms rep r)) = false
      /\ snd (balance_reaction_mass ms rep r) = rep).
Proof.
  intros Hex Hbal. generalize (mass_attempt_id ms rep r).
  unfold balance_reaction_mass. rewrite Hex, Hbal. clear Hex Hbal.
  destruct (water_step ms _) as [r2 eb2]. cbv beta iota.
  destruct (Num.ltb _ Num.tol); simpl; intro Hid.
  - left. now rewrite Hid.
  - right. now split.
Qed.

Lemma analyze_total (rs : list Reaction) : forall rep,
  total_reactions (fold_left analyze_one rs rep) = total_reactions rep.
Proof.
  induction rs as [|r tl IH]; intro rep; simpl; [reflexivity|].
  rewrite IH. unfold analyze_one.
  destruct (_ && _); destruct (Num.gtb _ Num.tol); reflexivity.
Qed.

Lemma same_lists_refl (a : BalanceReport) : same_lists a a.
Proof. repeat split. Qed.

Lemma same_lists_trans (a b c : BalanceReport) :
  same_lists a b -> same_lists b c -> same_lists a c.
Proof.
  intros [H1 [H2 H3]] [H4 [H5 H6]]. repeat split; congruence.
Qed.

Variable m : Model.

Let self0 := analyze_balance (init m).

(** Both passes complete on every model. *)
Lemma run_completes :
  exists self1 self2,
    fix_mass_pass self0 = Some self1
    /\ fix_charge_pass self1 = Some self2
    /\ run_balancing m = Some self2
    /\ same_lists (balance_report self0) (balance_report self1)
    /\ same_lists (balance_report self1) (balance_report self2)
    /\ model_metabolites (model self1) = model_metabolites m
    /\ model_metabolites (model self2) = model_metabolites m
    /\ map rxn_id (model_reactions (model self1)) = map rxn_id (model_reactions m)
    /\ map rxn_id (model_reactions (model self2)) = map rxn_id (model_reactions m).
Proof.
  destruct (for_each_fix fst balance_reaction_mass mass_entry fix_mass_body
              (fun a self => eq_refl) mass_attempt_id mass_attempt_flag
              mass_attempt_unfixable (fun r a => eq_refl)
              (mass_imbalanced (balance_report self0)) self0)
    as [self1 [Hrun1 [Hmets1 [Hids1 _]]]].
  { intros a Ha. unfold self0 in Ha. rewrite analyzed_mass_list in Ha.
    apply (in_map fst) in Ha. rewrite listed_keys in Ha.
    now apply filter_ids_incl in Ha. }
  assert (Hsame1 : same_lists (balance_report self0) (balance_report self1)).
  { apply (for_each_rel fst balance_reaction_mass mass_entry fix_mass_body
             (fun a self => eq_refl) same_lists same_lists_refl same_lists_trans)
      with (infos := mass_imbalanced (balance_report self0)); [| |exact Hrun1].
    - intros ms rep r.
      destruct (mass_attempt_report ms rep r) as [-> | [_ ->]];
        repeat split.
    - intros x rep. repeat split. }
  destruct (for_each_fix fst balance_reaction_charge charge_entry
              fix_charge_body (fun a self => eq_refl) charge_attempt_id
              charge_attempt_flag charge_attempt_unfixable
              (fun r a => eq_refl)
              (charge_imbalanced (balance_report self1)) self1)
    as [self2 [Hrun2 [Hmets2 [Hids2 _]]]].
  { intros a Ha. destruct Hsame1 as [_ [_ Hc]]. rewrite <- Hc in Ha.
    unfold self0 in Ha. rewrite analyzed_charge_list in Ha.
    apply (in_map fst) in Ha. rewrite listed_keys in Ha.
    apply filter_ids_incl in Ha. now rewrite Hids1. }
  assert (Hsame2 : same_lists (balance_report self1) (balance_report self2)).
  { apply (for_each_rel fst balance_reaction_charge charge_entry fix_charge_body
             (fun a self => eq_refl) same_lists same_lists_refl same_lists_trans)
      with (infos := charge_imbalanced (balance_report self1)); [| |exact Hrun2].
    - intros ms rep r.
      destruct (charge_attempt_report ms rep r) as [-> | [_ ->]];
        repeat split.
    - intros x rep. repeat split. }
  exists self1, self2.
  split; [exact Hrun1|]. split; [exact Hrun2|].
  split.
  { unfold run_balancing, fix_all_reactions. fold self0.
    unfold fix_mass_pass in Hrun1. unfold fix_mass_pass. now rewrite Hrun1. }
  split; [exact Hsame1|]. split; [exact Hsame2|].
  split; [exact Hmets1|]. split; [now rewrite Hmets2|].
  split; [exact Hids1|]. now rewrite Hids2.
Qed.

End WholeRun.

Section RunCounts.
Import Cobra ModelBalancer SideSums Notions.
Local Open Scope Q_scope.

Variable m : Model.

Lemma analyzed_fixed_empty :
  fixed_mass (balance_report (analyze_balance (init m))) = []
  /\ fixed_charge (balance_report (analyze_balance (init m))) = []
  /\ total_reactions (balance_report (analyze_balance (init m)))
     = length (model_reactions m).
Proof.
  unfold analyze_balance. simpl.
  destruct (analyze_lists (model_reactions m)
              (empty_report (length (model_reactions m))))
    as [_ [_ [_ [Hfm Hfc]]]].
  rewrite Hfm, Hfc, analyze_total. repeat split.
Qed.

Lemma filter_map_length {B : Type} (f : Reaction -> bool) (g : Reaction -> B)
    (rs : list Reaction) :
  (length (map g (filter f rs)) <= length rs)%nat.
Proof.
  rewrite length_map. induction rs as [|r tl IH]; simpl; [lia|].
  destruct (f r); simpl; lia.
Qed.

(** The counts of the report after the run. *)
Lemma run_counts :
  exists self,
    run_balancing m = Some self
    /\ total_reactions (balance_report self) = length (model_reactions m)
    /\ (length (mass_imbalanced (balance_report self))
        <= length (model_reactions m))%nat
    /\ (length (charge_imbalanced (balance_report self))
        <= length (model_reactions m))%nat
    /\ (length (fixed_mass (balance_report self))
        <= length (mass_imbalanced (balance_report self)))%nat
    /\ (length (fixed_charge (balance_report self))
        <= length (charge_imbalanced (balance_report self)))%nat.
Proof.
  destruct (run_completes m)
    as [self1 [self2 [Hrun1 [Hrun2 [Hrun [Hs1 [Hs2 _]]]]]]].
  destruct analyzed_fixed_empty as [Hfm0 [Hfc0 Htot0]].
  destruct Hs1 as [Ht1 [Hm1 Hc1]]. destruct Hs2 as [Ht2 [Hm2 Hc2]].
  (* the mass pass *)
  assert (Hlen1 : (length (fixed_mass (balance_report self1))
                   <= length (fixed_mass
                                (balance_report (analyze_balance (init m))))
                      + length (mass_imbalanced
                                  (balance_report (analyze_balance (init m)))))%nat).
  { apply (for_each_length fst balance_reaction_mass mass_entry fix_mass_body
             (fun a self => eq_refl) fixed_mass); [| |exact Hrun1].
    - intros ms rep r.
      destruct (mass_attempt_report ms rep r) as [-> | [_ ->]]; simpl.
      + lia.
      + rewrite length_app. simpl. lia.
    - reflexivity. }
  pose proof (for_each_rel fst balance_reaction_mass mass_entry fix_mass_body
                (fun a self => eq_refl)
                (fun a b => fixed_charge a = fixed_charge b)
                (fun rep => eq_refl)
                (fun a b c H1 H2 => eq_trans H1 H2)) as Hkeep1.
  assert (Hfc1 : fixed_charge (balance_report self1) = []).
  { rewrite <- Hfc0. symmetry.
    apply (Hkeep1) with (infos := mass_imbalanced
                                    (balance_report (analyze_balance (init m))));
      [| |exact Hrun1].
    - intros ms rep r.
      destruct (mass_attempt_report ms rep r) as [-> | [_ ->]]; reflexivity.
    - reflexivity. }
  (* the charge pass *)
  pose proof (for_each_length fst balance_reaction_charge charge_entry
                fix_charge_body (fun a self => eq_refl) fixed_charge) as Hlen2.
  assert (Hfc2 : (length (fixed_charge (balance_report self2))
                  <= length (fixed_charge (balance_report self1))
                     + length (charge_imbalanced (balance_report self1)))%nat).
  { apply Hlen2; [| |exact Hrun2].
    - intros ms rep r.
      destruct (charge_attempt_report ms rep r) as [-> | [_ ->]]; simpl.
      + lia.
      + rewrite length_app. simpl. lia.
    - reflexivity. }
  assert (Hfm2 : fixed_mass (balance_report self2)
                 = fixed_mass (balance_report self1)).
  { symmetry.
    apply (for_each_rel fst balance_reaction_charge charge_entry fix_charge_body
             (fun a self => eq_refl)
             (fun a b => fixed_mass a = fixed_mass b)
             (fun rep => eq_refl) (fun a b c H1 H2 => eq_trans H1 H2))
      with (infos := charge_imbalanced (balance_report self1));
      [| |exact Hrun2].
    - intros ms rep r.
      destruct (charge_attempt_report ms rep r) as [-> | [_ ->]]; reflexivity.
    - reflexivity. }
  exists self2. split; [exact Hrun|].
  split; [congruence|].
  rewrite <- Hm2, <- Hm1, <- Hc2, <- Hc1.
  rewrite analyzed_mass_list, analyzed_charge_list.
  split; [apply filter_map_length|]. split; [apply filter_map_length|].
  rewrite <- (analyzed_mass_list m), <- (analyzed_charge_list m).
  split.
  - rewrite Hfm2. rewrite Hfm0 in Hlen1. exact Hlen1.
  - rewrite Hfc1, <- Hc1 in Hfc2. exact Hfc2.
Qed.

End RunCounts.

(** X12.  On every model the run of [ModelBalancer] (analysis and both
    fix passes) completes without a failed lookup; it leaves the model's
    list of metabolites and the ids and order of its reactions as they
    were, and the report it ends with still holds the reaction count and
    the two lists of imbalanced reactions exactly as the analysis made
    them. *)
Theorem run_keeps_model_frame (m : Cobra.Model) :
  exists self,
    ModelBalancer.run_balancing m = Some self
    /\ Cobra.model_metabolites (ModelBalancer.model self)
       = Cobra.model_metabolites m
    /\ map Cobra.rxn_id (Cobra.model_reactions (ModelBalancer.model self))
       = map Cobra.rxn_id (Cobra.model_reactions m)
    /\ ModelBalancer.total_reactions (ModelBalancer.balance_report self)
       = length (Cobra.model_reactions m)
    /\ ModelBalancer.mass_imbalanced (ModelBalancer.balance_report self)
       = map (fun r => (Cobra.rxn_id r, ModelBalancer.calculate_mass_balance r))
           (filter SideSums.mass_listed (Cobra.model_reactions m))
    /\ ModelBalancer.charge_imbalanced (ModelBalancer.balance_report self)
       = map (fun r => (Cobra.rxn_id r, ModelBalancer.calculate_charge_balance r))
           (filter SideSums.charge_listed (Cobra.model_reactions m)).
Proof.
  destruct (run_completes m)
    as [self1 [self2 [_ [_ [Hrun [Hs1 [Hs2 [_ [Hmets [_ Hids]]]]]]]]]].
  destruct Hs1 as [Ht1 [Hm1 Hc1]]. destruct Hs2 as [Ht2 [Hm2 Hc2]].
  destruct (analyzed_fixed_empty m) as [_ [_ Htot]].
  exists self2. split; [exact Hrun|]. split; [exact Hmets|].
  split; [exact Hids|]. split; [congruence|].
  split.
  - rewrite <- Hm2, <- Hm1. apply analyzed_mass_list.
  - rewrite <- Hc2, <- Hc1. apply analyzed_charge_list.
Qed.

Section Rates.
Local Open Scope Q_scope.

Lemma rate_is_fraction (total imbalanced fixed : nat) (q : Q) :
  Summary.rate total imbalanced fixed = Some q ->
  (imbalanced <= total)%nat -> (fixed <= imbalanced)%nat ->
  0 <= q /\ q <= 1.
Proof.
  unfold Summary.rate. destruct (Nat.eqb total 0) eqn:E; [discriminate|].
  apply Nat.eqb_neq in E. intro H. injection H as <-. intros Hi Hf.
  assert (Hpos : 0 < inject_Z (Z.of_nat total)).
  { change 0 with (inject_Z 0). rewrite <- Zlt_Qlt. lia. }
  split.
  - apply Qle_shift_div_l; [exact Hpos|].
    rewrite Qmult_0_l. change 0 with (inject_Z 0). rewrite <- Zle_Qle. lia.
  - apply Qle_shift_div_r; [exact Hpos|].
    rewrite Qmult_1_l. rewrite <- Zle_Qle. lia.
Qed.

End Rates.

(** X13.  [generate_summary] divides by the number of reactions: phases
    1 to 3 of [run_balancing] fail with the division by zero exactly when
    the model has no reaction. *)
Theorem summary_fails_exactly_on_empty_model (m : Cobra.Model) :
  Summary.run_with_summary m = None <-> Cobra.model_reactions m = [].
Proof.
  unfold Summary.run_with_summary, Summary.generate_summary.
  destruct (run_counts m) as [self [Hrun [Htot _]]].
  rewrite Hrun, Htot. unfold Summary.rate.
  destruct (Cobra.model_reactions m) as [|r tl]; simpl.
  - split; reflexivity.
  - split; discriminate.
Qed.

(** X14.  Whenever phases 1 to 3 of [run_balancing] complete, the two
    balance rates of the summary lie between 0 and 1. *)
Theorem summary_rates_are_fractions (m : Cobra.Model)
    (self : ModelBalancer.Balancer) (summary : Summary.t) :
  Summary.run_with_summary m = Some (self, summary) ->
  (0 <= Summary.mass_balance_rate summary
   /\ Summary.mass_balance_rate summary <= 1
   /\ 0 <= Summary.charge_balance_rate summary
   /\ Summary.charge_balance_rate summary <= 1)%Q.
Proof.
  unfold Summary.run_with_summary, Summary.generate_summary.
  destruct (run_counts m) as [self' [Hrun [Htot [Hm [Hc [Hfm Hfc]]]]]].
  rewrite Hrun, Htot.
  destruct (Summary.rate _ _ (length (ModelBalancer.fixed_mass _)))
    as [qm|] eqn:Em; [|discriminate].
  destruct (Summary.rate _ _ (length (ModelBalancer.fixed_charge _)))
    as [qc|] eqn:Ec; [|discriminate].
  intro H. injection H as _ <-. simpl.
  destruct (rate_is_fraction _ _ _ _ Em Hm Hfm) as [H1 H2].
  destruct (rate_is_fraction _ _ _ _ Ec Hc Hfc) as [H3 H4].
  repeat split; assumption.
Qed.

Lemma summary_rates_are_fractions_witness :
  (0 <= 1 /\ 1 <= 1 /\ 0 <= 1 /\ (1 : Q) <= 1)%Q.
Proof.
  refine (summary_rates_are_fractions
            (Samples.model_of Samples.mets_with_proton [Samples.r_short_h])
            _ {| Summary.summary_total_reactions := 1;
                 Summary.mass_imbalanced_initial := 1;
                 Summary.charge_imbalanced_initial := 0;
                 Summary.mass_fixed := 1;
                 Summary.charge_fixed := 0;
                 Summary.summary_unfixable := 0;
                 Summary.mass_balance_rate := 1;
                 Summary.charge_balance_rate := 1 |} _).
  vm_compute. reflexivity.
Defined.

Section Settled.
Import Cobra ModelBalancer SideSums Notions.
Local Open Scope Q_scope.

Lemma mass_listed_not_balanced (r : Reaction) :
  mass_listed r = true ->
  Num.ltb (max_imbalance (calculate_mass_balance r)) Num.tol = false.
Proof.
  unfold mass_listed. intro H. apply andb_true_iff in H. destruct H as [_ H].
  apply gtb_gt in H. apply ltb_ge. now apply Qlt_le_weak.
Qed.

Lemma mass_settled_after_mass_pass (m : Model) (self1 : Balancer) (r : Reaction) :
  NoDup (map rxn_id (model_reactions m)) ->
  fix_mass_pass (analyze_balance (init m)) = Some self1 ->
  In r (model_reactions m) ->
  mass_listed r = true ->
  is_exchange_reaction r || is_transport_reaction r = false ->
  In (rxn_id r) (mass_settled (balance_report self1)).
Proof.
  intros Hnd Hrun Hr Hl Hex.
  apply (for_each_track fst balance_reaction_mass mass_entry fix_mass_body
           (fun a self => eq_refl)
           (fun _ r0 =>
              is_exchange_reaction r0 || is_transport_reaction r0 = false
              /\ Num.ltb (max_imbalance (calculate_mass_balance r0)) Num.tol
                 = false)
           mass_settled mass_attempt_id)
    with (infos := mass_imbalanced (balance_report (analyze_balance (init m))))
         (self := analyze_balance (init m)).
  - intros ms rep r0. unfold mass_settled.
    destruct (mass_attempt_report ms rep r0) as [-> | [_ ->]]; simpl.
    + apply incl_refl.
    + intros x Hx. apply in_app_or in Hx. apply in_or_app.
      destruct Hx as [Hx | Hx]; [left; apply in_or_app; now left | now right].
  - intros x rep. unfold mass_settled. simpl.
    intros y Hy. apply in_app_or in Hy. apply in_or_app.
    destruct Hy as [Hy | Hy]; [now left|]. right.
    rewrite map_app. apply in_or_app. now left.
  - intros ms rep r0 a [Hex0 Hbal0]. unfold mass_settled.
    pose proof (mass_attempt_id ms rep r0) as Hid.
    destruct (mass_attempt_decides ms rep r0 Hex0 Hbal0) as [[-> ->] | [-> ->]];
      simpl; apply in_or_app.
    + left. apply in_or_app. right. now left.
    + right. rewrite map_app. apply in_or_app. right. simpl. now left.
  - exact Hrun.
  - rewrite analyzed_mass_list, listed_keys. now apply nodup_filter_ids.
  - exact Hnd.
  - exact Hr.
  - rewrite analyzed_mass_list, listed_keys. apply in_map.
    apply filter_In. now split.
  - split; [exact Hex | now apply mass_listed_not_balanced].
Qed.

End Settled.

(** X15.  In a model with pairwise distinct reaction ids, every reaction
    that the analysis lists as mass-imbalanced and that is neither an
    exchange nor a transport reaction is, at the end of the run, either in
    [fixed_mass] or in [unfixable]: none is left without a verdict. *)
Theorem mass_imbalanced_reactions_get_a_verdict (m : Cobra.Model)
    (r : Cobra.Reaction) :
  NoDup (map Cobra.rxn_id (Cobra.model_reactions m)) ->
  In r (Cobra.model_reactions m) ->
  SideSums.mass_listed r = true ->
  ModelBalancer.is_exchange_reaction r = false ->
  ModelBalancer.is_transport_reaction r = false ->
  exists self,
    ModelBalancer.run_balancing m = Some self
    /\ (In (Cobra.rxn_id r)
          (ModelBalancer.fixed_mass (ModelBalancer.balance_report self))
        \/ In (Cobra.rxn_id r) (SideSums.unfixable_ids self)).
Proof.
  intros Hnd Hr Hl Hex Htr.
  destruct (run_completes m) as [self1 [self2 [Hrun1 [Hrun2 [Hrun _]]]]].
  exists self2. split; [exact Hrun|].
  assert (H1 : In (Cobra.rxn_id r)
                 (Notions.mass_settled (ModelBalancer.balance_report self1))).
  { apply (mass_settled_after_mass_pass m); try assumption.
    now rewrite Hex, Htr. }
  assert (H2 : incl (Notions.mass_settled (ModelBalancer.balance_report self1))
                 (Notions.mass_settled (ModelBalancer.balance_report self2))).
  { apply (for_each_rel fst ModelBalancer.balance_reaction_charge
             ModelBalancer.charge_entry ModelBalancer.fix_charge_body
             (fun a self => eq_refl)
             (fun a b => incl (Notions.mass_settled a) (Notions.mass_settled b)))
      with (infos := ModelBalancer.charge_imbalanced
                       (ModelBalancer.balance_report self1));
      [intro; apply incl_refl | | | | exact Hrun2].
    - intros a b c Hab Hbc. eapply incl_tran; eassumption.
    - intros ms rep r0.
      destruct (charge_attempt_report ms rep r0) as [-> | [_ ->]];
        apply incl_refl.
    - intros x rep. unfold Notions.mass_settled. simpl.
      intros y Hy. apply in_app_or in Hy. apply in_or_app.
      destruct Hy as [Hy | Hy]; [now left|]. right.
      rewrite map_app. apply in_or_app. now left. }
  apply H2 in H1. unfold Notions.mass_settled in H1.
  apply in_app_or in H1. exact H1.
Qed.

Lemma mass_imbalanced_reactions_get_a_verdict_witness :
  exists self,
    ModelBalancer.run_balancing
      (Samples.model_of Samples.mets_plain [Samples.r_carbon]) = Some self
    /\ (In "R_carbon"
          (ModelBalancer.fixed_mass (ModelBalancer.balance_report self))
        \/ In "R_carbon" (SideSums.unfixable_ids self)).
Proof.
  apply (mass_imbalanced_reactions_get_a_verdict
           (Samples.model_of Samples.mets_plain [Samples.r_carbon])
           Samples.r_carbon).
  - repeat constructor. intros [].
  - now left.
  - reflexivity.
  - reflexivity.
  - reflexivity.
Defined.

(** ** What a successful mass fix touches *)

Section FixFrame.
Import Cobra ModelBalancer Notions.
Local Open Scope Q_scope.

Variable model_mets : list Metabolite.

Lemma find_species_some (prefix : string) (comp : option string)
    (p : Metabolite) :
  find_species prefix comp model_mets = Some p ->
  In p model_mets /\ PyStr.startswith prefix (met_id p) = true.
Proof.
  unfold find_species. intro H. apply find_some in H.
  destruct H as [Hin Hp]. apply andb_true_iff in Hp. tauto.
Qed.

Lemma adjust_entries (met : Metabolite) (x : Q) (r : Reaction)
    (mc : Metabolite * Q) :
  In mc (stoich (adjust met x r)) -> In mc (stoich r) \/ fst mc = met.
Proof.
  unfold adjust. destruct (mem met (metabolites r)) eqn:E.
  - intro H. now left.
  - unfold add_metabolites, add_one, metabolites in *. simpl. rewrite E.
    unfold drop_zeros. intro H. apply filter_In in H. destruct H as [H _].
    apply in_app_or in H. destruct H as [H | [<- | []]]; [now left | now right].
Qed.

Lemma adjust_keeps (met : Metabolite) (x : Q) (r : Reaction)
    (mc : Metabolite * Q) :
  In mc (stoich r) -> ~ snd mc == 0 -> In mc (stoich (adjust met x r)).
Proof.
  intros Hin Hnz. unfold adjust. destruct (mem met (metabolites r)) eqn:E.
  - exact Hin.
  - unfold add_metabolites, add_one, metabolites in *. simpl. rewrite E.
    unfold drop_zeros. apply filter_In. split.
    + apply in_or_app. now left.
    + destruct (Qeq_bool (snd mc) 0) eqn:Ez; [|reflexivity].
      apply Qeq_bool_iff in Ez. contradiction.
Qed.

Lemma touches_only_refl (prefix : string) (r : Reaction) :
  touches_only model_mets prefix r r.
Proof. split; [intros mc H; now left | intros mc H _; exact H]. Qed.

Lemma adjust_touches (prefix : string) (comp : option string)
    (p : Metabolite) (x : Q) (r : Reaction) :
  find_species prefix comp model_mets = Some p ->
  touches_only model_mets prefix r (adjust p x r).
Proof.
  intro Hf. apply find_species_some in Hf. destruct Hf as [Hin Hp]. split.
  - intros mc Hmc. apply adjust_entries in Hmc.
    destruct Hmc as [H | ->]; [now left | right; now split].
  - intros mc Hmc Hnz. now apply adjust_keeps.
Qed.

Lemma proton_step_touches (r : Reaction) (eb : Dict.t Q) :
  touches_only model_mets "cpd00067" r (fst (proton_step model_mets (r, eb))).
Proof.
  unfold proton_step, fix_proton_balance.
  destruct (Dict.mem "H" eb && _); [|apply touches_only_refl].
  destruct (Num.ltb _ Num.tol); [apply touches_only_refl|].
  destruct (find_species _ _ _) eqn:E; simpl;
    [eapply adjust_touches; eassumption | apply touches_only_refl].
Qed.

Lemma water_step_touches (r : Reaction) (eb : Dict.t Q) :
  touches_only model_mets "cpd00001" r (fst (water_step model_mets (r, eb))).
Proof.
  unfold water_step, fix_water_balance.
  destruct (Dict.mem "O" eb && _); [|apply touches_only_refl].
  destruct (Num.ltb _ Num.tol); [apply touches_only_refl|].
  destruct (Num.gtb _ _); [apply touches_only_refl|].
  destruct (find_species _ _ _) eqn:E; simpl;
    [eapply adjust_touches; eassumption | apply touches_only_refl].
Qed.

End FixFrame.

(** X16.  When [balance_reaction_mass] reports a reaction as fixed, every
    entry of the mutated reaction is an entry the reaction had or a
    species of the model whose id starts with "cpd00067" or "cpd00001",
    and every entry the reaction had with a non-zero coefficient for a
    species that is neither is still there with the same coefficient. *)
Theorem mass_fix_touches_proton_and_water_only
    (model_mets : list Cobra.Metabolite) (report : ModelBalancer.BalanceReport)
    (r r' : Cobra.Reaction) :
  ModelBalancer.balance_reaction_mass model_mets report r =
    (true, r', ModelBalancer.add_fixed_mass (Cobra.rxn_id r') report) ->
  (forall mc, In mc (Cobra.stoich r') ->
     In mc (Cobra.stoich r)
     \/ (In (fst mc) model_mets
         /\ Notions.proton_or_water_id (Cobra.met_id (fst mc)) = true))
  /\ (forall mc, In mc (Cobra.stoich r) -> ~ (snd mc == 0)%Q ->
        Notions.proton_or_water_id (Cobra.met_id (fst mc)) = false ->
        In mc (Cobra.stoich r')).
Proof.
  unfold ModelBalancer.balance_reaction_mass.
  destruct (_ || _).
  { intro H. injection H as _ H. symmetry in H.
    now apply add_fixed_mass_changes in H. }
  destruct (Num.ltb _ Num.tol).
  { intro H. injection H as _ H. symmetry in H.
    now apply add_fixed_mass_changes in H. }
  pose proof (proton_step_touches model_mets r
                (ModelBalancer.calculate_mass_balance r)) as Hp.
  destruct (ModelBalancer.proton_step model_mets
              (r, ModelBalancer.calculate_mass_balance r)) as [r1 eb1].
  pose proof (water_step_touches model_mets r1 eb1) as Hw.
  destruct (ModelBalancer.water_step model_mets (r1, eb1)) as [r2 eb2].
  cbn [fst] in Hp, Hw. destruct Hp as [Hp1 Hp2]. destruct Hw as [Hw1 Hw2].
  destruct (Num.ltb _ Num.tol); [|discriminate].
  intro H. injection H as <- _. unfold Notions.proton_or_water_id. split.
  - intros mc Hmc. destruct (Hw1 mc Hmc) as [H1 | [Hin Hpre]].
    + destruct (Hp1 mc H1) as [H0 | [Hin Hpre]]; [now left|].
      right. split; [exact Hin | now rewrite Hpre].
    + right. split; [exact Hin | rewrite Hpre; apply orb_true_r].
  - intros mc Hmc Hnz _. apply Hw2; [|exact Hnz]. now apply Hp2.
Qed.

Lemma mass_fix_touches_proton_and_water_only_witness :
  In (Samples.carbon, 1%Q)
    (Cobra.stoich (Cobra.add_metabolites [(Samples.proton_c, 1%Q)]
                     Samples.r_short_h)).
Proof.
  refine (proj2 (mass_fix_touches_proton_and_water_only
                   Samples.mets_with_proton (ModelBalancer.empty_report 1)
                   Samples.r_short_h _ _) (Samples.carbon, 1%Q) _ _ _).
  - reflexivity.
  - simpl. right. left. reflexivity.
  - intro H. vm_compute in H. discriminate.
  - reflexivity.
Defined.

(** X17.  A reaction that [balance_reaction_mass] has reported as fixed
    is returned unchanged, with the report untouched, by any later call
    of [balance_reaction_mass] under the same model. *)
Theorem fixed_reaction_passes_second_call
    (model_mets : list Cobra.Metabolite)
    (report report2 : ModelBalancer.BalanceReport) (r r' : Cobra.Reaction) :
  ModelBalancer.balance_reaction_mass model_mets report r =
    (true, r', ModelBalancer.add_fixed_mass (Cobra.rxn_id r') report) ->
  ModelBalancer.balance_reaction_mass model_mets report2 r'
  = (true, r', report2).
Proof.
  unfold ModelBalancer.balance_reaction_mass at 1.
  destruct (_ || _).
  { intro H. injection H as _ H. symmetry in H.
    now apply add_fixed_mass_changes in H. }
  destruct (Num.ltb _ Num.tol).
  { intro H. injection H as _ H. symmetry in H.
    now apply add_fixed_mass_changes in H. }
  pose proof (steps_balance model_mets r) as Hst. simpl in Hst.
  destruct (ModelBalancer.water_step _ _) as [r2 eb2]. simpl in Hst.
  destruct (Num.ltb _ Num.tol) eqn:E; [|discriminate].
  intro H. injection H as <- _. subst eb2.
  unfold ModelBalancer.balance_reaction_mass.
  destruct (_ || _); [reflexivity|]. now rewrite E.
Qed.

Lemma fixed_reaction_passes_second_call_witness :
  ModelBalancer.balance_reaction_mass Samples.mets_with_proton
    (ModelBalancer.empty_report 1)
    (Cobra.add_metabolites [(Samples.proton_c, 1%Q)] Samples.r_short_h)
  = (true, Cobra.add_metabolites [(Samples.proton_c, 1%Q)] Samples.r_short_h,
     ModelBalancer.empty_report 1).
Proof.
  apply (fixed_reaction_passes_second_call Samples.mets_with_proton
           (ModelBalancer.empty_report 1) (ModelBalancer.empty_report 1)
           Samples.r_short_h).
  reflexivity.
Defined.

(** ** balance_reactions.py: reactions without formulas, and the counters *)

Section ModelBalance.
Import Cobra BalanceReactions Notions.
Local Open Scope Q_scope.

Lemma side_without_formulas (r : Reaction) (l : list Metabolite) :
  (forall m, In m l -> truthy (formula m) = false) ->
  forall els chg missing,
    side r l (els, chg, missing)
    = (els, chg, (missing ++ map met_id l)%list).
Proof.
  induction l as [|m tl IH]; intros Hl els chg missing; simpl.
  - now rewrite app_nil_r.
  - rewrite (Hl m (or_introl eq_refl)). simpl.
    rewrite IH by (intros x Hx; apply Hl; now right).
    now rewrite <- app_assoc.
Qed.

Lemma no_formulas_filter (g : Metabolite * Q -> bool) (r : Reaction) :
  no_formulas r = true ->
  forall m, In m (map fst (filter g (stoich r))) -> truthy (formula m) = false.
Proof.
  unfold no_formulas. intros H m Hm.
  apply in_map_iff in Hm. destruct Hm as [mc [<- Hmc]].
  apply filter_In in Hmc. destruct Hmc as [Hmc _].
  rewrite forallb_forall in H. specialize (H mc Hmc).
  now apply negb_true_iff in H.
Qed.

Lemma balanced_is_both (r : Reaction) :
  is_balanced (analyze_reaction_balance r)
  = is_mass_balanced (analyze_reaction_balance r)
    && is_charge_balanced (analyze_reaction_balance r).
Proof.
  unfold analyze_reaction_balance.
  destruct (side r (reactants r) _) as [[re rc] m1].
  destruct (side r (products r) _) as [[pe pc] m2].
  reflexivity.
Qed.

Lemma set_update_nodup (new : list string) : forall old,
  NoDup old -> NoDup (set_update new old).
Proof.
  unfold set_update. induction new as [|x tl IH]; intros old Hold; simpl.
  - exact Hold.
  - apply IH. destruct (existsb (String.eqb x) old) eqn:E; [exact Hold|].
    apply NoDup_app; [exact Hold | repeat constructor; intros [] |].
    intros y Hy [<-|[]].
    enough (existsb (String.eqb x) old = true) by congruence.
    apply existsb_exists. exists x. split; [exact Hy | apply String.eqb_refl].
Qed.

(** The relations between the counters that one pass of the loop of
    [analyze_model_balance] keeps, [n] being the number of reactions
    seen so far. *)
Lemma model_step_counters (n : nat) (res : Results) (r : Reaction) :
  (fully_balanced_reactions res + mass_imbalanced_reactions res <= n
   /\ fully_balanced_reactions res + charge_imbalanced_reactions res <= n
   /\ n <= fully_balanced_reactions res + mass_imbalanced_reactions res
           + charge_imbalanced_reactions res
   /\ reactions_with_missing_formulas res <= n
   /\ length (charge_imbalance_distribution res)
      = charge_imbalanced_reactions res
   /\ NoDup (missing_formula_metabolites res))%nat ->
  let res' := analyze_model_step res r in
  (total_reactions res' = total_reactions res
   /\ fully_balanced_reactions res' + mass_imbalanced_reactions res' <= S n
   /\ fully_balanced_reactions res' + charge_imbalanced_reactions res' <= S n
   /\ S n <= fully_balanced_reactions res' + mass_imbalanced_reactions res'
             + charge_imbalanced_reactions res'
   /\ reactions_with_missing_formulas res' <= S n
   /\ length (charge_imbalance_distribution res')
      = charge_imbalanced_reactions res'
   /\ NoDup (missing_formula_metabolites res'))%nat.
Proof.
  intros (H1 & H2 & H3 & H4 & H5 & H6). unfold analyze_model_step. simpl.
  rewrite (balanced_is_both r).
  destruct (is_mass_balanced (analyze_reaction_balance r));
    destruct (is_charge_balanced (analyze_reaction_balance r));
    destruct (negb _); simpl;
    rewrite ?length_app; simpl;
    repeat split; try lia; try assumption;
    now apply set_update_nodup.
Qed.

Lemma model_loop_counters (rs : list Reaction) : forall (n : nat) res,
  (fully_balanced_reactions res + mass_imbalanced_reactions res <= n
   /\ fully_balanced_reactions res + charge_imbalanced_reactions res <= n
   /\ n <= fully_balanced_reactions res + mass_imbalanced_reactions res
           + charge_imbalanced_reactions res
   /\ reactions_with_missing_formulas res <= n
   /\ length (charge_imbalance_distribution res)
      = charge_imbalanced_reactions res
   /\ NoDup (missing_formula_metabolites res))%nat ->
  let res' := fold_left analyze_model_step rs res in
  (total_reactions res' = total_reactions res
   /\ fully_balanced_reactions res' + mass_imbalanced_reactions res'
      <= n + length rs
   /\ fully_balanced_reactions res' + charge_imbalanced_reactions res'
      <= n + length rs
   /\ n + length rs
      <= fully_balanced_reactions res' + mass_imbalanced_reactions res'
         + charge_imbalanced_reactions res'
   /\ reactions_with_missing_formulas res' <= n + length rs
   /\ length (charge_imbalance_distribution res')
      = charge_imbalanced_reactions res'
   /\ NoDup (missing_formula_metabolites res'))%nat.
Proof.
  induction rs as [|r tl IH]; intros n res H; cbn [fold_left length].
  - rewrite Nat.add_0_r. split; [reflexivity | exact H].
  - destruct (model_step_counters n res r H) as [Ht H'].
    destruct (IH (S n) (analyze_model_step res r) H') as [Ht' H''].
    replace (n + S (length tl))%nat with (S n + length tl)%nat by lia.
    split; [congruence | exact H''].
Qed.

End ModelBalance.

(** X18.  [analyze_reaction_balance] of balance_reactions.py reports a
    reaction none of whose metabolites has a formula as balanced, with
    no element imbalance and charge imbalance 0, and lists the ids of
    all its metabolites, reactants first, as missing formulas. *)
Theorem reaction_without_formulas_counts_as_balanced (r : Cobra.Reaction) :
  Notions.no_formulas r = true ->
  let b := BalanceReactions.analyze_reaction_balance r in
  BalanceReactions.is_balanced b = true
  /\ BalanceReactions.element_imbalances b = []
  /\ (BalanceReactions.charge_imbalance b == 0)%Q
  /\ BalanceReactions.missing_formulas b
     = (map Cobra.met_id (Cobra.reactants r)
        ++ map Cobra.met_id (Cobra.products r))%list.
Proof.
  intros H. unfold BalanceReactions.analyze_reaction_balance.
  unfold Cobra.reactants, Cobra.products.
  rewrite (side_without_formulas r _ (no_formulas_filter _ r H)).
  rewrite (side_without_formulas r _ (no_formulas_filter _ r H)).
  simpl. repeat split.
Qed.

Lemma reaction_without_formulas_counts_as_balanced_witness :
  BalanceReactions.is_balanced
    (BalanceReactions.analyze_reaction_balance
       (Samples.reaction "R_unknown"
          [(Samples.unknown_anion, (-1)%Q); (Samples.unknown_neutral, 1%Q)]))
  = true.
Proof.
  refine (proj1 (reaction_without_formulas_counts_as_balanced
                   (Samples.reaction "R_unknown"
                      [(Samples.unknown_anion, (-1)%Q);
                       (Samples.unknown_neutral, 1%Q)]) _)).
  reflexivity.
Defined.

(** X19.  The counters of [analyze_model_balance]: [total_reactions] is
    the number of reactions; a reaction counted as fully balanced is
    counted under neither imbalance, every other reaction under at
    least one of them; no counter exceeds the total; the charge
    distribution has one value per charge-imbalanced reaction; and no
    metabolite id is collected twice. *)
Theorem model_balance_counters (m : Cobra.Model) :
  let res := BalanceReactions.analyze_model_balance m in
  let n := length (Cobra.model_reactions m) in
  (BalanceReactions.total_reactions res = n
   /\ BalanceReactions.fully_balanced_reactions res
      + BalanceReactions.mass_imbalanced_reactions res <= n
   /\ BalanceReactions.fully_balanced_reactions res
      + BalanceReactions.charge_imbalanced_reactions res <= n
   /\ n <= BalanceReactions.fully_balanced_reactions res
           + BalanceReactions.mass_imbalanced_reactions res
           + BalanceReactions.charge_imbalanced_reactions res
   /\ BalanceReactions.reactions_with_missing_formulas res <= n
   /\ length (BalanceReactions.charge_imbalance_distribution res)
      = BalanceReactions.charge_imbalanced_reactions res
   /\ NoDup (BalanceReactions.missing_formula_metabolites res))%nat.
Proof.
  unfold BalanceReactions.analyze_model_balance.
  apply (model_loop_counters (Cobra.model_reactions m) 0).
  simpl. repeat split; try lia. constructor.
Qed.

(** ** balance_model_reactions.py: the transport test *)

Section Transport.
Import Cobra ModelBalancer Notions.

Lemma opt_string_eqb_eq (a b : option string) :
  opt_string_eqb a b = true <-> a = b.
Proof.
  destruct a as [x|], b as [y|]; simpl.
  - rewrite String.eqb_eq. split; congruence.
  - split; discriminate.
  - split; discriminate.
  - split; reflexivity.
Qed.

Lemma compartments_of_in (items : Stoich) : forall seen c,
  In c (compartments_of items seen)
  <-> In c seen \/ exists mc, In mc items /\ compartment (fst mc) = c.
Proof.
  induction items as [|[m q] tl IH]; intros seen c; simpl.
  - split; [now left | intros [H | [mc [[] _]]]; exact H].
  - destruct (existsb _ seen) eqn:E; rewrite IH.
    + split.
      * intros [H | [mc [H1 H2]]]; [now left|].
        right. exists mc. split; [now right | exact H2].
      * intros [H | [mc [[<- | H1] H2]]]; [now left | | right; now exists mc].
        left. apply existsb_exists in E. destruct E as [x [Hx Ex]].
        apply opt_string_eqb_eq in Ex. simpl in H2. congruence.
    + rewrite in_app_iff. simpl. split.
      * intros [[H | [<- | []]] | [mc [H1 H2]]].
        -- now left.
        -- right. exists (m, q). split; [now left | reflexivity].
        -- right. exists mc. split; [now right | exact H2].
      * intros [H | [mc [[<- | H1] H2]]].
        -- left. now left.
        -- left. right. left. exact H2.
        -- right. now exists mc.
Qed.

Lemma compartments_of_nodup (items : Stoich) : forall seen,
  NoDup seen -> NoDup (compartments_of items seen).
Proof.
  induction items as [|[m q] tl IH]; intros seen Hs; simpl.
  - exact Hs.
  - destruct (existsb _ seen) eqn:E; apply IH; [exact Hs|].
    apply NoDup_app; [exact Hs | repeat constructor; intros [] |].
    intros y Hy [<-|[]].
    enough (existsb (opt_string_eqb (compartment m)) seen = true)
      by congruence.
    apply existsb_exists. exists (compartment m).
    split; [exact Hy | now apply opt_string_eqb_eq].
Qed.

End Transport.

(** X20.  [is_transport_reaction] holds exactly of the reactions two of
    whose metabolites have different [compartment] attributes, a
    missing attribute counting as a compartment of its own. *)
Theorem transport_iff_two_compartments (r : Cobra.Reaction) :
  ModelBalancer.is_transport_reaction r = true
  <-> Notions.spans_compartments (Cobra.stoich r).
Proof.
  unfold ModelBalancer.is_transport_reaction, Notions.spans_compartments,
    Cobra.metabolites.
  pose proof (compartments_of_nodup (Cobra.stoich r) [] (NoDup_nil _)) as Hnd.
  pose proof (compartments_of_in (Cobra.stoich r) []) as Hin.
  destruct (ModelBalancer.compartments_of (Cobra.stoich r) []) as [|a [|b l]].
  - split; [discriminate|]. intros (x & y & Hx & _).
    destruct (proj2 (Hin (Cobra.compartment (fst x)))
                (or_intror (ex_intro _ x (conj Hx eq_refl)))).
  - split; [discriminate|]. intros (x & y & Hx & Hy & Hne).
    assert (Hxa : In (Cobra.compartment (fst x)) [a])
      by (apply Hin; right; now exists x).
    assert (Hya : In (Cobra.compartment (fst y)) [a])
      by (apply Hin; right; now exists y).
    destruct Hxa as [Hxa|[]]. destruct Hya as [Hya|[]].
    assert (Heq : Cobra.opt_string_eqb (Cobra.compartment (fst x))
                    (Cobra.compartment (fst y)) = true)
      by (apply opt_string_eqb_eq; congruence).
    congruence.
  - split; [intros _ | reflexivity].
    destruct (proj1 (Hin a) (or_introl eq_refl)) as [[] | [x [Hx Ex]]].
    destruct (proj1 (Hin b) (or_intror (or_introl eq_refl)))
      as [[] | [y [Hy Ey]]].
    exists x, y. repeat split; [exact Hx | exact Hy |].
    destruct (Cobra.opt_string_eqb _ _) eqn:E; [|reflexivity].
    apply opt_string_eqb_eq in E. exfalso.
    inversion Hnd as [|? ? Hna _]; subst. apply Hna. left. congruence.
Qed.

(** ** balance_model_reactions.py: what entering a species does to the balances *)

Section FixEffect.
Import Cobra ModelBalancer SideSums.
Local Open Scope Q_scope.

Lemma signed_sum_entered (f : Metabolite -> Z) (p : Metabolite) (x : Q)
    (r : Reaction) :
  mem p (metabolites r) = false ->
  signed_sum f (stoich (add_metabolites [(p, x)] r))
  == signed_sum f (stoich r) + x * inject_Z (f p).
Proof.
  intro Hmem. unfold metabolites in Hmem.
  unfold add_metabolites, add_one. simpl. rewrite Hmem.
  rewrite signed_sum_drop_zeros, signed_sum_app. simpl. ring.
Qed.

Lemma forallb_filter {A : Type} (g h : A -> bool) (d : list A) :
  forallb g d = true -> forallb g (filter h d) = true.
Proof.
  induction d as [|x tl IH]; simpl; [reflexivity|].
  intro H. apply andb_true_iff in H. destruct H as [Hx Htl].
  destruct (h x); simpl; [rewrite Hx|]; now apply IH.
Qed.

Lemma resolved_entered (p : Metabolite) (x : Q) (r : Reaction) :
  resolved r = true -> truthy (get_metabolite_formula p) = true ->
  mem p (metabolites r) = false ->
  resolved (add_metabolites [(p, x)] r) = true.
Proof.
  intros Hres Hp Hmem. unfold metabolites in Hmem. unfold resolved in *.
  unfold add_metabolites, add_one. simpl. rewrite Hmem.
  unfold drop_zeros. apply forallb_filter.
  rewrite forallb_app, Hres. simpl. now rewrite Hp.
Qed.

(** The element balance after a species absent from the reaction has
    been entered with coefficient [- x]. *)
Lemma mass_balance_entered (p : Metabolite) (x : Q) (r : Reaction)
    (element : string) :
  resolved r = true -> truthy (get_metabolite_formula p) = true ->
  mem p (metabolites r) = false ->
  Dict.get_default element 0
    (calculate_mass_balance (adjust p x r))
  == Dict.get_default element 0 (calculate_mass_balance r)
     - x * inject_Z (atoms element p).
Proof.
  intros Hres Hp Hmem. unfold adjust. rewrite Hmem.
  unfold calculate_mass_balance, metabolites.
  rewrite (mass_loop_get element _ (resolved_entered p (- x) r Hres Hp Hmem)).
  rewrite (mass_loop_get element _ Hres).
  rewrite (signed_sum_entered _ p (- x) r Hmem).
  change (Dict.get_default element 0 (@nil (string * Q))) with 0.
  ring.
Qed.

End FixEffect.

(** X21.  [balance_reaction_charge], on a reaction that is no exchange
    reaction, is off balance in charge and does not hold the proton
    species found for its first metabolite's compartment, returns True,
    appends the reaction's id to [fixed_charge], and leaves the reaction
    with the charge balance it had times (1 - charge of that species),
    a missing charge counting 0: balanced when the species carries
    charge 1, unchanged when it carries none. *)
Theorem charge_fix_scales_balance
    (model_mets : list Cobra.Metabolite) (report : ModelBalancer.BalanceReport)
    (r : Cobra.Reaction) (p : Cobra.Metabolite) :
  ModelBalancer.is_exchange_reaction r = false ->
  ~ (Qabs (ModelBalancer.calculate_charge_balance r) < Num.tol)%Q ->
  ModelBalancer.find_species "cpd00067"
    (ModelBalancer.first_compartment (Cobra.metabolites r)) model_mets
  = Some p ->
  Cobra.mem p (Cobra.metabolites r) = false ->
  let out := ModelBalancer.balance_reaction_charge model_mets report r in
  fst (fst out) = true
  /\ ModelBalancer.fixed_charge (snd out)
     = (ModelBalancer.fixed_charge report ++ [Cobra.rxn_id r])%list
  /\ (ModelBalancer.calculate_charge_balance (snd (fst out))
      == ModelBalancer.calculate_charge_balance r
         * (1 - inject_Z (ModelBalancer.charge_or_0 p)))%Q.
Proof.
  intros Hex Hoff Hfind Hmem.
  unfold ModelBalancer.balance_reaction_charge. rewrite Hex.
  destruct (Num.ltb _ Num.tol) eqn:E;
    [apply ltb_lt in E; contradiction|].
  rewrite Hfind. unfold ModelBalancer.adjust. rewrite Hmem. simpl.
  repeat split.
  unfold ModelBalancer.calculate_charge_balance, Cobra.metabolites.
  rewrite charge_fold, (signed_sum_entered _ p _ r Hmem).
  rewrite (charge_fold (Cobra.stoich r) 0). ring.
Qed.

Lemma charge_fix_scales_balance_witness :
  (ModelBalancer.calculate_charge_balance
     (snd (fst (ModelBalancer.balance_reaction_charge
                  Samples.mets_with_proton (ModelBalancer.empty_report 1)
                  Samples.r_unknown_charged)))
   == ModelBalancer.calculate_charge_balance Samples.r_unknown_charged
      * (1 - inject_Z (ModelBalancer.charge_or_0 Samples.proton_c)))%Q.
Proof.
  refine (proj2 (proj2 (charge_fix_scales_balance
                          Samples.mets_with_proton
                          (ModelBalancer.empty_report 1)
                          Samples.r_unknown_charged Samples.proton_c
                          _ _ _ _)));
    try reflexivity.
  intro H. vm_compute in H. discriminate.
Defined.

(** X22.  [fix_proton_balance] of [ModelBalancer], called with the
    element balance of a reaction whose formulas are all resolved, whose
    hydrogen imbalance h is not below 0.01 in absolute value and which
    does not hold the proton species found, returns True and leaves the
    reaction with every element's balance changed by
    - h x (atoms of that element in the species' formula). *)
Theorem proton_fix_shifts_balance
    (model_mets : list Cobra.Metabolite) (r : Cobra.Reaction)
    (p : Cobra.Metabolite) :
  SideSums.resolved r = true ->
  Cobra.truthy (ModelBalancer.get_metabolite_formula p) = true ->
  ~ (Qabs (Dict.get_default "H" 0 (ModelBalancer.calculate_mass_balance r))
     < Num.tol)%Q ->
  ModelBalancer.find_species "cpd00067"
    (ModelBalancer.first_non_proton_compartment (Cobra.metabolites r))
    model_mets = Some p ->
  Cobra.mem p (Cobra.metabolites r) = false ->
  let out :=
    ModelBalancer.fix_proton_balance model_mets r
      (ModelBalancer.calculate_mass_balance r) in
  fst out = true
  /\ forall element,
       (Dict.get_default element 0
          (ModelBalancer.calculate_mass_balance (snd out))
        == Dict.get_default element 0 (ModelBalancer.calculate_mass_balance r)
           - Dict.get_default "H" 0 (ModelBalancer.calculate_mass_balance r)
             * inject_Z (SideSums.atoms element p))%Q.
Proof.
  intros Hres Hp Hoff Hfind Hmem.
  unfold ModelBalancer.fix_proton_balance.
  destruct (Num.ltb _ Num.tol) eqn:E;
    [apply ltb_lt in E; contradiction|].
  rewrite Hfind. cbn [fst snd]. split; [reflexivity|].
  intro element. now apply mass_balance_entered.
Qed.

Lemma proton_fix_shifts_balance_witness :
  (Dict.get_default "H" 0
     (ModelBalancer.calculate_mass_balance
        (snd (ModelBalancer.fix_proton_balance Samples.mets_with_proton
                Samples.r_short_h
                (ModelBalancer.calculate_mass_balance Samples.r_short_h))))
   == Dict.get_default "H" 0
        (ModelBalancer.calculate_mass_balance Samples.r_short_h)
      - Dict.get_default "H" 0
          (ModelBalancer.calculate_mass_balance Samples.r_short_h)
        * inject_Z (SideSums.atoms "H" Samples.proton_c))%Q.
Proof.
  refine (proj2 (proton_fix_shifts_balance Samples.mets_with_proton
                   Samples.r_short_h Samples.proton_c _ _ _ _ _) "H");
    try reflexivity.
  intro H. vm_compute in H. discriminate.
Defined.

(** X23.  [fix_water_balance] of [ModelBalancer], called with the
    element balance of a reaction whose formulas are all resolved, whose
    oxygen imbalance o is not below 0.01 in absolute value, whose
    hydrogen imbalance is within 0.1 of 2 x o and which does not hold
    the water species found, returns True and leaves the reaction with
    every element's balance changed by
    - o x (atoms of that element in the species' formula). *)
Theorem water_fix_shifts_balance
    (model_mets : list Cobra.Metabolite) (r : Cobra.Reaction)
    (w : Cobra.Metabolite) :
  SideSums.resolved r = true ->
  Cobra.truthy (ModelBalancer.get_metabolite_formula w) = true ->
  ~ (Qabs (Dict.get_default "O" 0 (ModelBalancer.calculate_mass_balance r))
     < Num.tol)%Q ->
  (Qabs (Dict.get_default "H" 0 (ModelBalancer.calculate_mass_balance r)
         - 2 * Dict.get_default "O" 0 (ModelBalancer.calculate_mass_balance r))
   <= 1 # 10)%Q ->
  ModelBalancer.find_species "cpd00001"
    (ModelBalancer.first_compartment (Cobra.metabolites r))
    model_mets = Some w ->
  Cobra.mem w (Cobra.metabolites r) = false ->
  let out :=
    ModelBalancer.fix_water_balance model_mets r
      (ModelBalancer.calculate_mass_balance r) in
  fst out = true
  /\ forall element,
       (Dict.get_default element 0
          (ModelBalancer.calculate_mass_balance (snd out))
        == Dict.get_default element 0 (ModelBalancer.calculate_mass_balance r)
           - Dict.get_default "O" 0 (ModelBalancer.calculate_mass_balance r)
             * inject_Z (SideSums.atoms element w))%Q.
Proof.
  intros Hres Hw Hoff Hratio Hfind Hmem.
  unfold ModelBalancer.fix_water_balance.
  destruct (Num.ltb _ Num.tol) eqn:E;
    [apply ltb_lt in E; contradiction|].
  destruct (Num.gtb _ (1 # 10)) eqn:E2.
  { apply gtb_gt in E2. exfalso. apply (Qlt_not_le _ _ E2 Hratio). }
  rewrite Hfind. cbn [fst snd]. split; [reflexivity|].
  intro element. now apply mass_balance_entered.
Qed.

Lemma water_fix_shifts_balance_witness :
  (Dict.get_default "H" 0
     (ModelBalancer.calculate_mass_balance
        (snd (ModelBalancer.fix_water_balance Samples.mets_with_water
                Samples.r_almost_water
                (ModelBalancer.calculate_mass_balance Samples.r_almost_water))))
   == Dict.get_default "H" 0
        (ModelBalancer.calculate_mass_balance Samples.r_almost_water)
      - Dict.get_default "O" 0
          (ModelBalancer.calculate_mass_balance Samples.r_almost_water)
        * inject_Z (SideSums.atoms "H" Samples.water_c))%Q.
Proof.
  refine (proj2 (water_fix_shifts_balance Samples.mets_with_water
                   Samples.r_almost_water Samples.water_c _ _ _ _ _ _) "H");
    try reflexivity.
  - intro H. vm_compute in H. discriminate.
  - intro H. vm_compute in H. discriminate.
Defined.
